(** * OpenWebUI KB Sync: a shallow embedding of the synchronisation engine

    The plugin (main.ts, version 2.0.0 with the knowledge-base cache and the
    mobile settings) is embedded function by function.  A JavaScript string
    is the list of its UTF-16 code units; the plugin object, its settings and
    the remote service are explicit state; [async] methods are state
    transformers that either return or throw. *)

From Stdlib Require Import ZArith NArith List String Ascii Lia Bool.
From Stdlib Require Import DecimalString HexadecimalString.
From Stdlib Require HexadecimalFacts HexadecimalPos HexadecimalN.
From Stdlib Require Import QArith_base.
From stdpp Require Import base option list gmap fin_maps.

Local Open Scope N_scope.

(** ** JavaScript strings *)

(** A string is its sequence of UTF-16 code units (numbers below 2^16). *)
Abbreviation jsstring := (list N).

(** A string literal of the source (all of them are ASCII). *)
Definition lit (s : string) : jsstring :=
  map N_of_ascii (list_ascii_of_string s).
Arguments lit : simpl never.

Definition inRange (lo hi c : N) : bool := (lo <=? c) && (c <=? hi).

Definition isLower (c : N) : bool := inRange 97 122 c.
Definition isUpper (c : N) : bool := inRange 65 90 c.
Definition isDigit (c : N) : bool := inRange 48 57 c.

(** The character class [[a-zA-Z0-9\-_]]. *)
Definition isTagChar (c : N) : bool :=
  isLower c || isUpper c || isDigit c || (c =? 45) || (c =? 95).

(** [String.prototype.toLowerCase] and [toUpperCase] on one code unit.  Only
    the ASCII letters are mapped: the plugin applies them to tag names, which
    are made of [isTagChar] code units. *)
Definition toLowerCase1 (c : N) : N := if isUpper c then c + 32 else c.
Definition toUpperCase1 (c : N) : N := if isLower c then c - 32 else c.

Definition toLowerCase (s : jsstring) : jsstring := map toLowerCase1 s.

Fixpoint startsWith (p s : jsstring) : bool :=
  match p, s with
  | [], _ => true
  | _ :: _, [] => false
  | a :: p', b :: s' => (a =? b) && startsWith p' s'
  end.

(** [s.includes(p)] *)
Fixpoint includes (p s : jsstring) : bool :=
  startsWith p s ||
  match s with
  | [] => false
  | _ :: s' => includes p s'
  end.

(** [s.split(sep)] for a separator of one code unit; the result is never
    empty ([''.split('.')] is [['']]). *)
Fixpoint split (sep : N) (s : jsstring) : list jsstring :=
  match s with
  | [] => [[]]
  | c :: s' =>
      if c =? sep then [] :: split sep s'
      else match split sep s' with
           | w :: ws => (c :: w) :: ws
           | [] => [[c]]
           end
  end.

(** [parts.join(sep)] *)
Fixpoint join (sep : jsstring) (parts : list jsstring) : jsstring :=
  match parts with
  | [] => []
  | [w] => w
  | w :: ws => w ++ sep ++ join sep ws
  end.

(** [parts.pop()] on the result of a split: its last element. *)
Definition pop (parts : list jsstring) : jsstring := List.last parts [].

(** [a || b] on strings: the empty string is falsy. *)
Definition orElse (a b : jsstring) : jsstring :=
  match a with [] => b | _ => a end.

(** [n.toString()] and [n.toString(16)] for a natural number. *)
Definition toString10 (n : N) : jsstring :=
  lit (DecimalString.NilZero.string_of_uint (N.to_uint n)).
Definition toString16 (n : N) : jsstring :=
  lit (HexadecimalString.NilZero.string_of_uint (N.to_hex_uint n)).

(** Lexicographic order on code units: the order of [Array.prototype.sort]
    without a comparator on an array of strings. *)
Fixpoint strLeb (a b : jsstring) : bool :=
  match a, b with
  | [], _ => true
  | _ :: _, [] => false
  | x :: a', y :: b' => (x <? y) || ((x =? y) && strLeb a' b')
  end.

Fixpoint sortInsert (x : jsstring) (l : list jsstring) : list jsstring :=
  match l with
  | [] => [x]
  | y :: l' => if strLeb x y then x :: y :: l' else y :: sortInsert x l'
  end.

(** [arr.sort()] (the sorted array; the source sorts in place). *)
Definition jsSort (l : list jsstring) : list jsstring :=
  fold_right sortInsert [] l.

(** [arr.includes(x)] *)
Definition arrIncludes (x : jsstring) (l : list jsstring) : bool :=
  bool_decide (x ∈ l).

(** ** generateContentHash *)

Local Open Scope Z_scope.

(** ToInt32: the value of [x | 0], [x & x] and of the result of [<<]. *)
Definition toInt32 (z : Z) : Z :=
  let m := z mod 2 ^ 32 in if m <? 2 ^ 31 then m else m - 2 ^ 32.

(** One round of the loop:
    [hash = ((hash << 5) - hash) + char; hash = hash & hash]. *)
Definition hashStep (hash : Z) (char : N) : Z :=
  toInt32 ((toInt32 (Z.shiftl hash 5) - hash) + Z.of_N char).

Definition generateContentHash (content : jsstring) : jsstring :=
  match content with
  | [] => toString10 0
  | _ => toString16 (Z.to_N (Z.abs (fold_left hashStep content 0)))
  end.

(** ** generateStableFilename *)

Local Open Scope N_scope.

(** [s.replace(/\.[^/.]+$/, '')]: the leftmost position holding a dot that
    is followed, up to the end of the string, by one or more code units
    other than '/' and '.'; the string is cut there. *)
Fixpoint stripExtension (s : jsstring) : jsstring :=
  match s with
  | [] => []
  | c :: s' =>
      if (c =? 46) && negb (bool_decide (s' = []))
         && forallb (fun d => negb ((d =? 47) || (d =? 46))) s'
      then []
      else c :: stripExtension s'
  end.

(** [s.replace(/[^a-zA-Z0-9\-_]/g, '_')] *)
Definition sanitize (s : jsstring) : jsstring :=
  map (fun c => if isTagChar c then c else 95) s.

(** [s.substring(0, n)] *)
Definition substring0 (n : nat) (s : jsstring) : jsstring := firstn n s.

Definition generateStableFilename (originalName contentHash : jsstring)
  : jsstring :=
  let extension := orElse (pop (split 46 originalName)) (lit "md") in
  let baseName := sanitize (stripExtension originalName) in
  baseName ++ lit "_" ++ substring0 8 contentHash ++ lit "." ++ extension.

(** ** Declared memberships: the #kb/ tags of a document *)

(** The longest prefix of code units satisfying [P], and the rest: a greedy
    [[...]+] whose continuation starts with a code unit outside the class. *)
Fixpoint span (P : N → bool) (s : jsstring) : jsstring * jsstring :=
  match s with
  | c :: s' => if P c then let (t, r) := span P s' in (c :: t, r) else ([], s)
  | [] => ([], [])
  end.

(** One attempt of [/#kb\/([a-zA-Z0-9\-_]+)/] at the head of [s]: the
    captured name when the marker and at least one tag character are there. *)
Definition matchTagAt (s : jsstring) : option jsstring :=
  if startsWith (lit "#kb/") s then
    match fst (span isTagChar (skipn 4 s)) with
    | [] => None
    | t => Some t
    end
  else None.

(** [content.matchAll(/#kb\/([a-zA-Z0-9\-_]+)/g)]: the captures, left to
    right.  [skip] counts the code units of the current match that are still
    to be passed over: after a match the search resumes behind it. *)
Fixpoint kbTagMatchesFrom (skip : nat) (s : jsstring) : list jsstring :=
  match s with
  | [] => []
  | _ :: s' =>
      match skip with
      | S k => kbTagMatchesFrom k s'
      | O =>
          match matchTagAt s with
          | Some t => t :: kbTagMatchesFrom (3 + length t) s'
          | None => kbTagMatchesFrom 0 s'
          end
      end
  end.

Definition kbTagMatches (content : jsstring) : list jsstring :=
  kbTagMatchesFrom 0 content.

(** [word.charAt(0).toUpperCase() + word.slice(1)] *)
Definition capitalize (word : jsstring) : jsstring :=
  match word with
  | [] => []
  | c :: w => toUpperCase1 c :: w
  end.

Definition convertTagToKnowledgeBaseName (tagName : jsstring) : jsstring :=
  join (lit " ")
    (map capitalize
       (split 32
          (toLowerCase
             (map (fun c => if (c =? 45) || (c =? 95) then 32 else c)
                tagName)))).

(** The knowledge-base names one document declares: the inner loop of
    [findFilesWithKBTags], one name per tag occurrence, in order. *)
Definition declaredKnowledgeBases (content : jsstring) : list jsstring :=
  map convertTagToKnowledgeBaseName (kbTagMatches content).

(** ** encodeURIComponent *)

Definition isUnreserved (c : N) : bool :=
  isLower c || isUpper c || isDigit c
  || bool_decide (c ∈ [45; 95; 46; 33; 126; 42; 39; 40; 41]).

Definition isHighSurrogate (c : N) : bool := inRange 55296 56319 c.
Definition isLowSurrogate (c : N) : bool := inRange 56320 57343 c.

Definition hexDigit (d : N) : N := if d <? 10 then 48 + d else 55 + d.

(** One octet as "%XX". *)
Definition pct (b : N) : jsstring := [37; hexDigit (b / 16); hexDigit (b mod 16)].

(** The UTF-8 octets of a code point. *)
Definition utf8 (cp : N) : list N :=
  if cp <? 128 then [cp]
  else if cp <? 2048 then [192 + cp / 64; 128 + cp mod 64]
  else if cp <? 65536 then
    [224 + cp / 4096; 128 + (cp / 64) mod 64; 128 + cp mod 64]
  else
    [240 + cp / 262144; 128 + (cp / 4096) mod 64;
     128 + (cp / 64) mod 64; 128 + cp mod 64].

Definition escapeCodePoint (cp : N) : jsstring := concat (map pct (utf8 cp)).

(** [encodeURIComponent]: [None] stands for the URIError that the built-in
    throws on an unpaired surrogate.  [hi] is a high surrogate read just
    before and still waiting for its low half. *)
Fixpoint encodeFrom (hi : option N) (s : jsstring) : option jsstring :=
  match s with
  | [] => match hi with None => Some [] | Some _ => None end
  | c :: s' =>
      match hi with
      | Some h =>
          if isLowSurrogate c then
            app (escapeCodePoint ((h - 55296) * 1024 + (c - 56320) + 65536))
              <$> encodeFrom None s'
          else None
      | None =>
          if isUnreserved c then cons c <$> encodeFrom None s'
          else if isLowSurrogate c then None
          else if isHighSurrogate c then encodeFrom (Some c) s'
          else app (escapeCodePoint c) <$> encodeFrom None s'
      end
  end.

Definition encodeURIComponent (s : jsstring) : option jsstring :=
  encodeFrom None s.

(** ** processObsidianLinks *)

Definition notBracket (c : N) : bool := negb (c =? 93).
Definition notBracketPipe (c : N) : bool := negb ((c =? 93) || (c =? 124)).

(** What a regular expression found at the head of the text: the length of
    the match and its capture groups. *)
Definition Match : Type := nat * list jsstring.

(** [/\[\[([^\]|]+)\|([^\]]+)\]\]/] at the head of [s]. *)
Definition matchPipedLink (s : jsstring) : option Match :=
  if startsWith (lit "[[") s then
    let (p, r1) := span notBracketPipe (skipn 2 s) in
    match p, r1 with
    | _ :: _, bar :: r2 =>
        let (d, r3) := span notBracket r2 in
        match d with
        | _ :: _ =>
            if (bar =? 124) && startsWith (lit "]]") r3
            then Some ((2 + length p + 1 + length d + 2)%nat, [p; d])
            else None
        | [] => None
        end
    | _, _ => None
    end
  else None.

(** [/\[\[([^\]]+)\]\]/] at the head of [s]. *)
Definition matchLink (s : jsstring) : option Match :=
  if startsWith (lit "[[") s then
    let (p, r) := span notBracket (skipn 2 s) in
    match p with
    | _ :: _ =>
        if startsWith (lit "]]") r
        then Some ((2 + length p + 2)%nat, [p]) else None
    | [] => None
    end
  else None.

(** [/!\[\[([^\]]+)\]\]/] at the head of [s]. *)
Definition matchEmbed (s : jsstring) : option Match :=
  match s with
  | bang :: s' =>
      if bang =? 33 then
        match matchLink s' with
        | Some (n, g) => Some (S n, g)
        | None => None
        end
      else None
  | [] => None
  end.

(** [text.replace(re, callback)] for a global expression: every match, left
    to right and without overlap, is replaced by what the callback returns
    for its groups ([None]: the callback threw).  [skip] counts the code
    units of the current match still to be dropped. *)
Fixpoint replaceFrom (re : jsstring → option Match)
    (callback : list jsstring → option jsstring)
    (skip : nat) (s : jsstring) : option jsstring :=
  match s with
  | [] => Some []
  | c :: s' =>
      match skip with
      | S k => replaceFrom re callback k s'
      | O =>
          match re s with
          | Some (len, groups) =>
              r ← callback groups;
              app r <$> replaceFrom re callback (len - 1) s'
          | None => cons c <$> replaceFrom re callback 0 s'
          end
      end
  end.

Definition replaceAll re callback (s : jsstring) : option jsstring :=
  replaceFrom re callback 0 s.

Definition obsidianUri (encodedVaultName encodedFilePath : jsstring)
  : jsstring :=
  lit "obsidian://open?vault=" ++ encodedVaultName
  ++ lit "&file=" ++ encodedFilePath.

(** [filePath.includes('.') ? filePath : filePath + '.md'] *)
Definition finalPath (filePath : jsstring) : jsstring :=
  if includes (lit ".") filePath then filePath else filePath ++ lit ".md".

(** [filePath.split('/').pop() || filePath] *)
Definition linkDisplayText (filePath : jsstring) : jsstring :=
  orElse (pop (split 47 filePath)) filePath.

Definition pipedLinkCallback (encodedVaultName : jsstring)
    (groups : list jsstring) : option jsstring :=
  match groups with
  | [filePath; displayText] =>
      encodedFilePath ← encodeURIComponent (finalPath filePath);
      Some (lit "[" ++ displayText ++ lit "]("
            ++ obsidianUri encodedVaultName encodedFilePath ++ lit ")")
  | _ => None
  end.

Definition linkCallback (encodedVaultName : jsstring)
    (groups : list jsstring) : option jsstring :=
  match groups with
  | [filePath] =>
      encodedFilePath ← encodeURIComponent (finalPath filePath);
      Some (lit "[" ++ linkDisplayText filePath ++ lit "]("
            ++ obsidianUri encodedVaultName encodedFilePath ++ lit ")")
  | _ => None
  end.

Definition embedCallback (encodedVaultName : jsstring)
    (groups : list jsstring) : option jsstring :=
  match groups with
  | [filePath] =>
      encodedFilePath ← encodeURIComponent filePath;
      Some (lit "*Embedded: [" ++ linkDisplayText filePath ++ lit "]("
            ++ obsidianUri encodedVaultName encodedFilePath ++ lit ")*")
  | _ => None
  end.

(** [None]: the function threw (a URIError of [encodeURIComponent]). *)
Definition processObsidianLinks (content vaultName : jsstring)
  : option jsstring :=
  encodedVaultName ← encodeURIComponent vaultName;
  c1 ← replaceAll matchPipedLink (pipedLinkCallback encodedVaultName) content;
  c2 ← replaceAll matchLink (linkCallback encodedVaultName) c1;
  replaceAll matchEmbed (embedCallback encodedVaultName) c2.

(** ** The remote service, the host and the plugin object *)

Local Open Scope Z_scope.

(** [interface KnowledgeBase] (the description is never read). *)
Record KnowledgeBase := { kb_id : jsstring; kb_name : jsstring }.

(** The requests the plugin sends to OpenWebUI. *)
Inductive Call :=
| ListKnowledgeBases                             (* GET /api/v1/knowledge/ *)
| CreateKnowledgeBase (name : jsstring)          (* POST /api/v1/knowledge/create *)
| AddFile (kbId fileId : jsstring)               (* POST /api/v1/knowledge/{kbId}/file/add *)
| RemoveFile (kbId fileId : jsstring)            (* POST /api/v1/knowledge/{kbId}/file/remove *)
| DeleteFile (fileId : jsstring)                 (* DELETE /api/v1/files/{fileId} *)
| UploadFile (filename content : jsstring).      (* POST /api/v1/files/ *)

(** What a request comes back with: the transport rejects (no connection),
    or there is a response with its status, its text and its JSON body, of
    the type the source reads it at. *)
Inductive Reply (A : Type) :=
| Rejected (message : jsstring)
| Response (status : N) (text : jsstring) (json : A).
Arguments Rejected {A}.
Arguments Response {A}.

(** The remote service: the reply to each request, given the requests sent
    before it.  The JSON of the list request is [None] when it is not an
    array; create and upload answer with the [id] of the new object. *)
Record Remote := {
  listReply : list Call → Reply (option (list KnowledgeBase));
  createReply : list Call → jsstring → Reply jsstring;
  addReply : list Call → jsstring → jsstring → Reply unit;
  removeReply : list Call → jsstring → jsstring → Reply unit;
  deleteReply : list Call → jsstring → Reply unit;
  uploadReply : list Call → jsstring → jsstring → Reply jsstring
}.

(** A method returns or throws an [Error] with a message. *)
Inductive Result (A : Type) :=
| Ok (a : A)
| Throw (message : jsstring).
Arguments Ok {A}.
Arguments Throw {A}.

(** [TFile], with what [vault.read(file)] resolves or rejects with. *)
Record TFile := {
  path : jsstring;
  name : jsstring;
  mtime : Z;
  vaultRead : Result jsstring
}.

Inductive ConnectionType := wifi | cellular | unknown.

(** What the plugin finds around it.  [getBatteryLevel()] resolves with a
    double, [battery.level * 100]: a rational number.  [schedule i] says in
    which order the host resumes the reconciliations that the batch starting
    at index [i] runs together (see [promiseAll]). *)
Record Host := {
  remote : Remote;
  clock : nat → Z;                 (* the n-th reading of Date.now() *)
  vaultName : jsstring;            (* app.vault.getName() *)
  normalizePath : jsstring → jsstring;
  markdownFiles : list TFile;      (* app.vault.getMarkdownFiles() *)
  connectionType : ConnectionType; (* getConnectionType() *)
  isMobileDevice : bool;
  batteryLevel : Q;                (* getBatteryLevel(), in percent *)
  documentHidden : bool;
  schedule : Z → list nat
}.

Record OpenWebUIFileRecord := {
  fileId : jsstring;
  uploadedFilename : jsstring;
  contentHash : jsstring;
  lastModified : Z;
  knowledgeBases : list jsstring
}.

Inductive NetworkBehavior := always | wifi_preferred | wifi_only.

Record MobileSettings := {
  networkBehavior : NetworkBehavior;
  cellularFileLimit : Z;
  maxConcurrentUploads : Z;
  batchSize : Z;
  enableBackgroundSync : bool;
  batteryOptimization : bool;
  lowBatteryThreshold : Z
}.

Record Settings := {
  openwebuiUrl : jsstring;
  apiToken : jsstring;
  syncState : gmap jsstring (list jsstring);
  fileMapping : gmap jsstring OpenWebUIFileRecord;
  mobile : MobileSettings
}.

Record SyncStatus := {
  synced : Z;
  total : Z;
  issyncing : bool;
  error : bool
}.

Record CacheEntry := { cachedId : jsstring; timestamp : Z }.

(** The plugin object, and what it has done so far. *)
Record Plugin := {
  settings : Settings;             (* this.settings *)
  saved : Settings;                (* what saveData last wrote *)
  syncStatus : SyncStatus;
  syncMutex : bool;
  kbCache : gmap jsstring CacheEntry;
  lastCellularWarning : Z;
  notices : list jsstring;         (* the Notice pop-ups shown, oldest first *)
  calls : list Call;               (* the requests sent, oldest first *)
  ticks : nat                      (* how often Date.now() was read *)
}.

Definition KB_CACHE_TTL : Z := 5 * 60 * 1000.
Definition CELLULAR_WARNING_INTERVAL : Z := 10 * 60 * 1000.

(** *** Field updates *)

Definition withSettings (f : Settings → Settings) (p : Plugin) : Plugin :=
  {| settings := f (settings p); saved := saved p;
     syncStatus := syncStatus p; syncMutex := syncMutex p;
     kbCache := kbCache p; lastCellularWarning := lastCellularWarning p;
     notices := notices p; calls := calls p; ticks := ticks p |}.

Definition withSaved (s : Settings) (p : Plugin) : Plugin :=
  {| settings := settings p; saved := s;
     syncStatus := syncStatus p; syncMutex := syncMutex p;
     kbCache := kbCache p; lastCellularWarning := lastCellularWarning p;
     notices := notices p; calls := calls p; ticks := ticks p |}.

Definition withSyncStatus (f : SyncStatus → SyncStatus) (p : Plugin) : Plugin :=
  {| settings := settings p; saved := saved p;
     syncStatus := f (syncStatus p); syncMutex := syncMutex p;
     kbCache := kbCache p; lastCellularWarning := lastCellularWarning p;
     notices := notices p; calls := calls p; ticks := ticks p |}.

Definition withSyncMutex (b : bool) (p : Plugin) : Plugin :=
  {| settings := settings p; saved := saved p;
     syncStatus := syncStatus p; syncMutex := b;
     kbCache := kbCache p; lastCellularWarning := lastCellularWarning p;
     notices := notices p; calls := calls p; ticks := ticks p |}.

Definition withKbCache
    (f : gmap jsstring CacheEntry → gmap jsstring CacheEntry) (p : Plugin)
  : Plugin :=
  {| settings := settings p; saved := saved p;
     syncStatus := syncStatus p; syncMutex := syncMutex p;
     kbCache := f (kbCache p); lastCellularWarning := lastCellularWarning p;
     notices := notices p; calls := calls p; ticks := ticks p |}.

Definition withLastCellularWarning (t : Z) (p : Plugin) : Plugin :=
  {| settings := settings p; saved := saved p;
     syncStatus := syncStatus p; syncMutex := syncMutex p;
     kbCache := kbCache p; lastCellularWarning := t;
     notices := notices p; calls := calls p; ticks := ticks p |}.

Definition withNotice (message : jsstring) (p : Plugin) : Plugin :=
  {| settings := settings p; saved := saved p;
     syncStatus := syncStatus p; syncMutex := syncMutex p;
     kbCache := kbCache p; lastCellularWarning := lastCellularWarning p;
     notices := notices p ++ [message]; calls := calls p; ticks := ticks p |}.

Definition withCall (c : Call) (p : Plugin) : Plugin :=
  {| settings := settings p; saved := saved p;
     syncStatus := syncStatus p; syncMutex := syncMutex p;
     kbCache := kbCache p; lastCellularWarning := lastCellularWarning p;
     notices := notices p; calls := calls p ++ [c]; ticks := ticks p |}.

Definition withTick (p : Plugin) : Plugin :=
  {| settings := settings p; saved := saved p;
     syncStatus := syncStatus p; syncMutex := syncMutex p;
     kbCache := kbCache p; lastCellularWarning := lastCellularWarning p;
     notices := notices p; calls := calls p; ticks := S (ticks p) |}.

Definition withSyncState
    (f : gmap jsstring (list jsstring) → gmap jsstring (list jsstring))
    (s : Settings) : Settings :=
  {| openwebuiUrl := openwebuiUrl s; apiToken := apiToken s;
     syncState := f (syncState s); fileMapping := fileMapping s;
     mobile := mobile s |}.

Definition withFileMapping
    (f : gmap jsstring OpenWebUIFileRecord → gmap jsstring OpenWebUIFileRecord)
    (s : Settings) : Settings :=
  {| openwebuiUrl := openwebuiUrl s; apiToken := apiToken s;
     syncState := syncState s; fileMapping := f (fileMapping s);
     mobile := mobile s |}.

Definition withKnowledgeBases (f : list jsstring → list jsstring)
    (r : OpenWebUIFileRecord) : OpenWebUIFileRecord :=
  {| fileId := fileId r; uploadedFilename := uploadedFilename r;
     contentHash := contentHash r; lastModified := lastModified r;
     knowledgeBases := f (knowledgeBases r) |}.

(** *** Methods as state transformers *)

(** A method runs on the plugin object and returns or throws; what it did
    to the object before throwing stays done. *)
Definition M (A : Type) : Type := Plugin → Result A * Plugin.

Definition ret {A} (a : A) : M A := fun p => (Ok a, p).
Definition throw {A} (message : jsstring) : M A := fun p => (Throw message, p).

Definition bind {A B} (m : M A) (k : A → M B) : M B :=
  fun p => match m p with
           | (Ok a, p') => k a p'
           | (Throw e, p') => (Throw e, p')
           end.

Declare Scope method_scope.
Delimit Scope method_scope with method.
Notation "'let*' x := m 'in' k" := (bind m (fun x => k))
  (at level 10, x name, m at level 99, k at level 200) : method_scope.
Notation "m ;; k" := (bind m (fun _ => k))
  (at level 100, k at level 200, right associativity) : method_scope.
Local Open Scope method_scope.

(** [try { m } catch (error) { handler error }] *)
Definition tryCatch {A} (m : M A) (handler : jsstring → M A) : M A :=
  fun p => match m p with
           | (Ok a, p') => (Ok a, p')
           | (Throw e, p') => handler e p'
           end.

(** [try { m } finally { cleanup }], for a cleanup that does not throw. *)
Definition tryFinally {A} (m : M A) (cleanup : Plugin → Plugin) : M A :=
  fun p => let (r, p') := m p in (r, cleanup p').

(** What was worked out without the plugin object: an [await] on the vault,
    a pure function that may throw. *)
Definition liftResult {A} (r : Result A) : M A := fun p => (r, p).

Definition modify (f : Plugin → Plugin) : M unit := fun p => (Ok tt, f p).
Definition gets {A} (f : Plugin → A) : M A := fun p => (Ok (f p), p).

(** [for (const x of l) { body x }] *)
Fixpoint forEach {A} (l : list A) (body : A → M unit) : M unit :=
  match l with
  | [] => ret tt
  | x :: l' => body x ;; forEach l' body
  end.

(** [logError] and [debug] write to the console only. *)
Definition logged : M unit := ret tt.

Definition Notice (message : jsstring) : M unit := modify (withNotice message).

(** A string in a condition: the empty string is falsy. *)
Definition truthy (s : jsstring) : bool := negb (bool_decide (s = [])).

(** [x.toFixed(2)] for [x = bytes / (1024 * 1024)]: the division by a power
    of two is exact, and [toFixed] rounds the exact value to the nearest
    hundredth, the larger one on a tie. *)
Definition toFixed2MB (bytes : Z) : jsstring :=
  let hundredths := Z.to_N ((200 * bytes + 1048576) / 2097152) in
  toString10 (hundredths / 100) ++ lit "."
  ++ toString10 ((hundredths / 10) mod 10) ++ toString10 (hundredths mod 10).

(** The [config] argument of [syncFileWithStateTracking]. *)
Record SyncConfig := {
  maxFileSize : Z;
  configBatchSize : Z;
  maxConcurrent : Z
}.

Definition incSynced (s : SyncStatus) : SyncStatus :=
  {| synced := synced s + 1; total := total s;
     issyncing := issyncing s; error := error s |}.

(** [record.knowledgeBases = record.knowledgeBases.filter(kb => kb !== kbName)]
    on the record object that [fileMapping] holds under [filePath]. *)
Definition dropKnowledgeBase (filePath kbName : jsstring) : Plugin → Plugin :=
  withSettings (withFileMapping
    (alter (withKnowledgeBases (filter (λ kb, kb ≠ kbName))) filePath)).

(** The test of the catch blocks of the removal and of the deletion:
    [error.message && (error.message.includes('could not find') || ...)]. *)
Definition isNotFoundMessage (message : jsstring) : bool :=
  truthy message
  && (includes (lit "could not find") message
      || includes (lit "404") message || includes (lit "400") message).

Section Methods.

Context (host : Host).

Definition dateNow : M Z :=
  fun p => (Ok (clock host (ticks p)), withTick p).

(** [saveSettings]: [saveData(this.settings)]; the refresh of the status
    bar and the restart of the timer leave the plugin object as it is. *)
Definition saveSettings : M unit := modify (fun p => withSaved (settings p) p).

(** [makeApiRequest]; no caller passes [allowNotFound]. *)
Definition makeApiRequest {A} (c : Call) (reply : list Call → Reply A) : M A :=
  fun p =>
    if negb (truthy (openwebuiUrl (settings p)))
       || negb (truthy (apiToken (settings p)))
    then (Throw (lit "OpenWebUI URL and API token must be configured"), p)
    else
      match reply (calls p) with
      | Rejected message => (Throw message, withCall c p)
      | Response status text json =>
          if (400 <=? status)%N
          then (Throw (lit "API request failed: " ++ toString10 status
                       ++ lit " " ++ text), withCall c p)
          else (Ok json, withCall c p)
      end.

(** [this.kbCache.set(name, { id, timestamp: Date.now() })] *)
Definition cacheSet (name id : jsstring) : M unit :=
  let* now := dateNow in
  modify (withKbCache (insert name {| cachedId := id; timestamp := now |})).

Definition findKnowledgeBaseByName (name : jsstring) : M (option jsstring) :=
  let* cached := gets (fun p => kbCache p !! name) in
  let* hit :=
    match cached with
    | Some entry =>
        let* now := dateNow in
        ret (if now - timestamp entry <? KB_CACHE_TTL
             then Some (cachedId entry) else None)
    | None => ret None
    end in
  match hit with
  | Some id => ret (Some id)
  | None =>
      tryCatch
        (let* knowledgeBases :=
           makeApiRequest ListKnowledgeBases (listReply (remote host)) in
         match knowledgeBases with
         | Some kbs =>
             forEach kbs (fun kb => cacheSet (kb_name kb) (kb_id kb)) ;;
             ret (kb_id <$>
                  List.find (fun kb => bool_decide (kb_name kb = name)) kbs)
         | None => ret None
         end)
        (fun _ => logged ;; ret None)
  end.

(** The second half of [getOrCreateKnowledgeBase]: the create request. *)
Definition createKnowledgeBase (name : jsstring) : M jsstring :=
  tryCatch
    (let* newId :=
       makeApiRequest (CreateKnowledgeBase name)
         (fun sent => createReply (remote host) sent name) in
     cacheSet name newId ;;
     ret newId)
    (fun e => logged ;; throw e).

Definition getOrCreateKnowledgeBase (name : jsstring) : M jsstring :=
  let* existingId := findKnowledgeBaseByName name in
  match existingId with
  | Some id => if truthy id then ret id else createKnowledgeBase name
  | None => createKnowledgeBase name
  end.

Definition addFileToKnowledgeBase (kbId fileId : jsstring) : M unit :=
  tryCatch
    (makeApiRequest (AddFile kbId fileId)
       (fun sent => addReply (remote host) sent kbId fileId))
    (fun e => logged ;; throw e).

(** [removeFileFromKnowledgeBase(kbName, record)]: every caller passes the
    record object stored in [fileMapping] under [filePath]; [fileId] is its
    (never reassigned) [fileId]. *)
Definition removeFileFromKnowledgeBase (kbName filePath fileId : jsstring)
  : M unit :=
  tryCatch
    (let* kbId := findKnowledgeBaseByName kbName in
     match kbId with
     | Some id =>
         if truthy id then
           makeApiRequest (RemoveFile id fileId)
             (fun sent => removeReply (remote host) sent id fileId) ;;
           modify (dropKnowledgeBase filePath kbName)
         else ret tt
     | None => ret tt
     end)
    (fun e =>
       if isNotFoundMessage e
       then modify (dropKnowledgeBase filePath kbName)
       else logged ;; throw e).

Definition deleteFileFromOpenWebUI (fileId : jsstring) : M unit :=
  tryCatch
    (makeApiRequest (DeleteFile fileId)
       (fun sent => deleteReply (remote host) sent fileId))
    (fun e => if isNotFoundMessage e then ret tt else logged).

(** [removeFileFromAllKnowledgeBases(record)], for the record stored under
    [filePath]; the loop runs over a copy of its [knowledgeBases]. *)
Definition removeFileFromAllKnowledgeBases (filePath : jsstring)
    (record : OpenWebUIFileRecord) : M unit :=
  forEach (knowledgeBases record) (fun kbName =>
    tryCatch (removeFileFromKnowledgeBase kbName filePath (fileId record))
      (fun _ => logged)) ;;
  tryCatch (deleteFileFromOpenWebUI (fileId record)) (fun _ => logged).

(** [uploadFile], over [fetch]: [response.ok] is a status from 200 to 299. *)
Definition uploadFile (filename content : jsstring) : M jsstring :=
  fun p =>
    let p' := withCall (UploadFile filename content) p in
    match uploadReply (remote host) (calls p) filename content with
    | Rejected message => (Throw message, p')
    | Response status text id =>
        if ((200 <=? status) && (status <=? 299))%N then (Ok id, p')
        else if (status =? 400)%N && includes (lit "Duplicate content") text
        then (Throw (lit "Duplicate content detected for " ++ filename
                     ++ lit ". The file content already exists in OpenWebUI."),
              p')
        else (Throw (lit "Upload failed: " ++ toString10 status
                     ++ lit " " ++ text), p')
    end.

(** [processObsidianLinks(rawContent, this.app.vault.getName())] *)
Definition processLinks (rawContent : jsstring) : Result jsstring :=
  match processObsidianLinks rawContent (vaultName host) with
  | Some content => Ok content
  | None => Throw (lit "URI malformed")
  end.

(** [await this.app.vault.read(file)] followed by the link rewriting. *)
Definition readAndProcess (file : TFile) : Result jsstring :=
  match vaultRead file with
  | Ok rawContent => processLinks rawContent
  | Throw e => Throw e
  end.

(** The branch [if (timeChanged) { ... }]: read, check the size, rewrite the
    links, hash.  None of it touches the plugin object. *)
Definition readAndHash (file : TFile) (config : option SyncConfig)
  : Result (jsstring * jsstring) :=
  match vaultRead file with
  | Ok rawContent =>
      let size := Z.of_nat (length rawContent) in
      let tooLarge :=
        match config with
        | Some c => (0 <? maxFileSize c) && (maxFileSize c <? size)
        | None => false
        end in
      if tooLarge then
        Throw (lit "File too large (" ++ toFixed2MB size ++ lit "MB > "
               ++ toFixed2MB (from_option maxFileSize 0 config)
               ++ lit "MB limit on current connection)")
      else
        match processLinks rawContent with
        | Ok content => Ok (content, generateContentHash content)
        | Throw e => Throw e
        end
  | Throw e => Throw e
  end.

(** The loop over [targetKBs]; [newRecord] is threaded through it, its
    [knowledgeBases] growing with every collection the file was added to. *)
Fixpoint addToKnowledgeBases (targetKBs : list jsstring)
    (newRecord : OpenWebUIFileRecord) : M OpenWebUIFileRecord :=
  match targetKBs with
  | [] => ret newRecord
  | kbName :: rest =>
      let* newRecord' :=
        tryCatch
          (let* kbId := getOrCreateKnowledgeBase kbName in
           addFileToKnowledgeBase kbId (fileId newRecord) ;;
           modify (withSyncStatus incSynced) ;;
           ret (if arrIncludes kbName (knowledgeBases newRecord)
                then newRecord
                else withKnowledgeBases (fun l => l ++ [kbName]) newRecord))
          (fun _ => logged ;; ret newRecord) in
      addToKnowledgeBases rest newRecord'
  end.

(** What the first part of [syncFileWithStateTracking] works out, up to
    the flags [contentChanged] and [kbsChanged]. *)
Record Changes := {
  c_filePath : jsstring;
  c_lastModified : Z;
  c_previousRecord : option OpenWebUIFileRecord;
  c_content : jsstring;
  c_contentHash : jsstring;
  c_contentChanged : bool;
  c_currentKBs : list jsstring;    (* sorted *)
  c_previousKBs : list jsstring    (* sorted *)
}.

Definition c_kbsChanged (c : Changes) : bool :=
  negb (bool_decide (c_currentKBs c = c_previousKBs c)).

Definition kbsToRemoveFrom (c : Changes) : list jsstring :=
  filter (λ kb, kb ∉ c_currentKBs c) (c_previousKBs c).

Definition kbsToAddTo (c : Changes) : list jsstring :=
  filter (λ kb, kb ∉ c_previousKBs c) (c_currentKBs c).

Definition kbsToUpdate (c : Changes) : list jsstring :=
  if c_contentChanged c
  then filter (λ kb, kb ∈ c_previousKBs c) (c_currentKBs c)
  else [].

Definition targetKBs (c : Changes) : list jsstring :=
  if c_contentChanged c then c_currentKBs c
  else kbsToAddTo c ++ kbsToUpdate c.

(** The first part of [syncFileWithStateTracking]: the modification time,
    the previous record, the content and its hash (read only when the time
    changed), the two flags.  [JSON.stringify(currentKBs.sort()) !==
    JSON.stringify(previousKBs.sort())] sorts both arrays in place, and
    [previousKBs] is the array stored in [syncState]; two arrays of strings
    have the same JSON text exactly when they are equal. *)
Definition detectChanges (file : TFile) (currentKBs : list jsstring)
    (config : option SyncConfig) : M Changes :=
  let filePath := normalizePath host (path file) in
  let* modified :=
    if mtime file =? 0 then dateNow else ret (mtime file) in
  let* previousRecord := gets (fun p => fileMapping (settings p) !! filePath) in
  let timeChanged :=
    match previousRecord with
    | Some r => negb (lastModified r =? modified)
    | None => true
    end in
  let* read :=
    if timeChanged then liftResult (readAndHash file config)
    else ret ([], from_option contentHash [] previousRecord) in
  let* stored := gets (fun p => syncState (settings p) !! filePath) in
  let contentChanged :=
    timeChanged &&
    match previousRecord with
    | Some r => negb (bool_decide (contentHash r = snd read))
    | None => true
    end in
  modify (withSettings (withSyncState (alter jsSort filePath))) ;;
  ret {| c_filePath := filePath; c_lastModified := modified;
         c_previousRecord := previousRecord;
         c_content := fst read; c_contentHash := snd read;
         c_contentChanged := contentChanged;
         c_currentKBs := jsSort currentKBs;
         c_previousKBs := jsSort (default [] stored) |}.

(** [if (contentChanged && previousRecord) { ... }] and the loop over
    [kbsToRemoveFrom].  When the content has not changed there is a
    previous record (see [detectChanges_record]). *)
Definition removeOutdated (c : Changes) : M unit :=
  match c_previousRecord c with
  | Some r =>
      if c_contentChanged c
      then removeFileFromAllKnowledgeBases (c_filePath c) r
      else
        forEach (kbsToRemoveFrom c) (fun kbName =>
          tryCatch
            (removeFileFromKnowledgeBase kbName (c_filePath c) (fileId r) ;;
             modify (withSyncStatus incSynced))
            (fun _ => logged))
  | None => ret tt
  end.

(** "Upload new/updated file if needed": the new record, or the previous
    one, which is the object stored under the path of the document. *)
Definition uploadIfNeeded (file : TFile) (c : Changes)
  : M (option OpenWebUIFileRecord) :=
  if c_contentChanged c || negb (bool_decide (kbsToAddTo c = []))
     || negb (bool_decide (kbsToUpdate c = []))
  then
    tryCatch
      (let* content :=
         if truthy (c_content c) then ret (c_content c)
         else liftResult (readAndProcess file) in
       let stableFilename :=
         generateStableFilename (name file) (c_contentHash c) in
       let* uploadedId := uploadFile stableFilename content in
       ret (Some {| fileId := uploadedId;
                    uploadedFilename := stableFilename;
                    contentHash := c_contentHash c;
                    lastModified := c_lastModified c;
                    knowledgeBases := [] |}))
      (fun e => logged ;; throw e)
  else gets (fun p => fileMapping (settings p) !! c_filePath c).

(** "Update state": the two assignments and [saveSettings]. *)
Definition updateState (c : Changes) (newRecord : option OpenWebUIFileRecord)
  : M unit :=
  modify (withSettings (fun s =>
    withFileMapping
      (match newRecord with
       | Some r => insert (c_filePath c) r
       | None => id
       end)
      (withSyncState (insert (c_filePath c) (c_currentKBs c)) s))) ;;
  saveSettings.

(** What [syncFileWithStateTracking] does once a change was detected. *)
Definition applyChanges (file : TFile) (c : Changes) : M unit :=
  removeOutdated c ;;
  let* newRecord := uploadIfNeeded file c in
  let* newRecord :=
    match newRecord with
    | Some r =>
        let* r' := addToKnowledgeBases (targetKBs c) r in ret (Some r')
    | None => ret None
    end in
  updateState c newRecord.

Definition syncFileWithStateTracking (file : TFile)
    (currentKBs : list jsstring) (config : option SyncConfig) : M unit :=
  let* c := detectChanges file currentKBs config in
  if negb (c_contentChanged c) && negb (c_kbsChanged c) then ret tt
  else applyChanges file c.

(** *** The pass *)

(** The two [delete] statements that end the tracking of a document. *)
Definition untrack (filePath : jsstring) : Plugin → Plugin :=
  withSettings (fun s =>
    withSyncState (delete filePath) (withFileMapping (delete filePath) s)).

Definition cleanupDeletedFiles : M unit :=
  let currentFiles :=
    map (fun f => normalizePath host (path f)) (markdownFiles host) in
  let* trackedFiles :=
    gets (fun p => map fst (map_to_list (fileMapping (settings p)))) in
  forEach trackedFiles (fun filePath =>
    if bool_decide (normalizePath host filePath ∈ currentFiles) then ret tt
    else
      let* record := gets (fun p => fileMapping (settings p) !! filePath) in
      match record with
      | Some r => removeFileFromAllKnowledgeBases filePath r
      | None => ret tt
      end ;;
      modify (untrack filePath)) ;;
  saveSettings.

(** [currentlyTaggedFiles] is the [Map] of the pass, as its list of entries
    in insertion order. *)
Definition handleUntaggedFiles
    (currentlyTaggedFiles : list (jsstring * list jsstring)) : M unit :=
  let* entries := gets (fun p => map_to_list (fileMapping (settings p))) in
  forEach entries (fun entry =>
    let filePath := fst entry in
    if bool_decide (filePath ∈ map fst currentlyTaggedFiles) then ret tt
    else
      tryCatch
        (removeFileFromAllKnowledgeBases filePath (snd entry) ;;
         modify (untrack filePath) ;;
         modify (withSyncStatus incSynced))
        (fun _ => logged)) ;;
  saveSettings.

(** [findFilesWithKBTags]: one item per tag occurrence. *)
Fixpoint findFilesWithKBTags (files : list TFile)
  : M (list (TFile * jsstring)) :=
  match files with
  | [] => ret []
  | file :: rest =>
      let* content := liftResult (vaultRead file) in
      let* results := findFilesWithKBTags rest in
      ret (map (pair file) (declaredKnowledgeBases content) ++ results)
  end.

(** [fileGroups.get(filePath).push(kb)], the entry being created first when
    the map has none for [filePath]. *)
Fixpoint groupPush (filePath kb : jsstring)
    (fileGroups : list (jsstring * list jsstring))
  : list (jsstring * list jsstring) :=
  match fileGroups with
  | [] => [(filePath, [kb])]
  | (p, kbs) :: rest =>
      if bool_decide (p = filePath) then (p, kbs ++ [kb]) :: rest
      else (p, kbs) :: groupPush filePath kb rest
  end.

Definition groupByFile (filesToSync : list (TFile * jsstring))
  : list (jsstring * list jsstring) :=
  fold_left (fun groups item => groupPush (path (fst item)) (snd item) groups)
    filesToSync [].

Definition getMobileAdjustedConfig (isCellular : bool) : M SyncConfig :=
  gets (fun p =>
    let m := mobile (settings p) in
    {| maxFileSize := if isCellular then cellularFileLimit m
                      else 5 * 1024 * 1024;
       configBatchSize := if isCellular then Z.min (batchSize m) 3
                          else batchSize m;
       maxConcurrent := if isCellular then 1 else maxConcurrentUploads m |}).

(** [this.app.vault.getAbstractFileByPath(filePath)] *)
Definition getAbstractFileByPath (filePath : jsstring) : option TFile :=
  List.find (fun f => bool_decide (path f = filePath)) (markdownFiles host).

Definition showCount (n : Z) : jsstring := toString10 (Z.to_N n).

(** [shouldAllowSync]: [None] allows the pass, [Some reason] blocks it. *)
Definition shouldAllowSync : M (option jsstring) :=
  match connectionType host with
  | wifi | unknown => ret None
  | cellular =>
      let* behavior := gets (fun p => networkBehavior (mobile (settings p))) in
      match behavior with
      | always => ret None
      | wifi_preferred =>
          let* now := dateNow in
          let* last := gets lastCellularWarning in
          (if CELLULAR_WARNING_INTERVAL <? now - last then
             Notice (lit "Syncing over cellular data (change in mobile settings if needed)") ;;
             let* now' := dateNow in
             modify (withLastCellularWarning now')
           else ret tt) ;;
          ret None
      | wifi_only => ret (Some (lit "WiFi-only mode enabled in mobile settings"))
      end
  end.

(** [shouldSkipAutoSync]; [batteryLevel < settings.lowBatteryThreshold]
    compares the double of [getBatteryLevel()] with the threshold. *)
Definition shouldSkipAutoSync : M bool :=
  let* m := gets (fun p => mobile (settings p)) in
  if isMobileDevice host && batteryOptimization m
     && negb (Qle_bool (inject_Z (lowBatteryThreshold m)) (batteryLevel host))
  then ret true
  else if isMobileDevice host && negb (enableBackgroundSync m)
          && documentHidden host
  then ret true
  else ret false.

Definition forceReleaseSyncLock : M unit :=
  let* busy := gets syncMutex in
  if busy then
    modify (withSyncMutex false) ;;
    modify (withSyncStatus (fun s =>
      {| synced := synced s; total := total s;
         issyncing := false; error := error s |}))
  else ret tt.

(** [testConnection]: the list request, for its status only. *)
Definition testConnection : M bool :=
  tryCatch
    (makeApiRequest ListKnowledgeBases (listReply (remote host)) ;;
     modify (withSyncStatus (fun s =>
       {| synced := synced s; total := total s;
          issyncing := issyncing s; error := false |})) ;;
     ret true)
    (fun _ =>
       logged ;;
       modify (withSyncStatus (fun s =>
         {| synced := synced s; total := total s;
            issyncing := issyncing s; error := true |})) ;;
       ret false).

End Methods.

(** ** Suspension

    The methods above are the [async] methods of the plugin run from their
    call to their end without anything else touching the plugin object in
    between: what [await method()] amounts to when nothing else is under
    way.  A pass over a WiFi connection starts the reconciliations of a
    batch together ([Promise.all]); each of them runs until its next
    [await], and there another one may go on.  For this the methods are
    embedded a second time, with their [await]s. *)

(** What a started method is at: it has returned or thrown, or it waits at
    an [await].  [Await next effect]: resumed on the plugin object [q], the
    method leaves the object [effect q] behind at its next stop, and is
    then at [next q]. *)
Inductive Task (A : Type) : Type :=
| Done (r : Result A)
| Await (next : Plugin → Task A) (effect : Plugin → Plugin).
Arguments Done {A}.
Arguments Await {A}.

(** A call of an [async] method: it runs on the plugin object at once, up to
    its first stop. *)
Definition AsyncCall (A : Type) : Type := Plugin → Task A * Plugin.

Definition retA {A} (a : A) : AsyncCall A := fun p => (Done (Ok a), p).
Definition throwA {A} (message : jsstring) : AsyncCall A :=
  fun p => (Done (Throw message), p).

(** Code without [await]. *)
Definition liftA {A} (m : M A) : AsyncCall A :=
  fun p => let (r, p') := m p in (Done r, p').

(** The rest [k] of a method, behind what [t] is still to do. *)
Fixpoint thenTask {A B} (t : Task A) (k : A → AsyncCall B) (p : Plugin)
  : Task B * Plugin :=
  match t with
  | Done (Ok a) => k a p
  | Done (Throw e) => (Done (Throw e), p)
  | Await next effect =>
      (Await (fun q => fst (thenTask (next q) k (effect q)))
             (fun q => snd (thenTask (next q) k (effect q))), p)
  end.

Definition bindA {A B} (m : AsyncCall A) (k : A → AsyncCall B) : AsyncCall B :=
  fun p => let (t, p') := m p in thenTask t k p'.

Fixpoint catchTask {A} (t : Task A) (handler : jsstring → AsyncCall A)
    (p : Plugin) : Task A * Plugin :=
  match t with
  | Done (Ok a) => (Done (Ok a), p)
  | Done (Throw e) => handler e p
  | Await next effect =>
      (Await (fun q => fst (catchTask (next q) handler (effect q)))
             (fun q => snd (catchTask (next q) handler (effect q))), p)
  end.

(** [try { m } catch (error) { handler error }] *)
Definition tryCatchA {A} (m : AsyncCall A) (handler : jsstring → AsyncCall A)
  : AsyncCall A :=
  fun p => let (t, p') := m p in catchTask t handler p'.

Declare Scope async_scope.
Delimit Scope async_scope with async.
Notation "'let*' x := m 'in' k" := (bindA m (fun x => k))
  (at level 10, x name, m at level 99, k at level 200) : async_scope.
Notation "m ;; k" := (bindA m (fun _ => k))
  (at level 100, k at level 200, right associativity) : async_scope.

(** The stop of an [await] on a promise of the host (a request, a read of
    the vault, a write of the settings): the method goes on when the host
    has settled the promise. *)
Definition suspend : AsyncCall unit :=
  fun p => (Await (fun _ => Done (Ok tt)) id, p).

(** [await m()] for an [async] method [m]: the caller goes on one turn of
    the job queue after [m] has returned or thrown. *)
Fixpoint settle {A} (t : Task A) : Task A :=
  match t with
  | Done r => Await (fun _ => Done r) id
  | Await next effect => Await (fun q => settle (next q)) effect
  end.

Definition await {A} (m : AsyncCall A) : AsyncCall A :=
  fun p => let (t, p') := m p in (settle t, p').

(** [for (const x of l) { body x }] *)
Fixpoint forEachA {A} (l : list A) (body : A → AsyncCall unit)
  : AsyncCall unit :=
  match l with
  | [] => retA tt
  | x :: l' => bindA (body x) (fun _ => forEachA l' body)
  end.

(** A started method resumed again and again, with nothing else in between,
    until it ends. *)
Fixpoint runTask {A} (t : Task A) (p : Plugin) : Result A * Plugin :=
  match t with
  | Done r => (r, p)
  | Await next effect => runTask (next p) (effect p)
  end.

Definition run {A} (m : AsyncCall A) : M A :=
  fun p => let (t, p') := m p in runTask t p'.

(** *** [Promise.all(batch.map(async entry => ...))]

    [map] calls the callbacks one after the other, each running up to its
    first stop.  Then the host resumes the waiting ones in the order of its
    choice: [schedule] lists the numbers of the callbacks it resumes, one
    stop at a time (a number that names no waiting callback is passed
    over); what is still waiting at the end of the list is resumed in the
    order of the batch.  Every stop is a place where another callback may
    go on: the order in which the job queue serves callbacks that are
    ready at the same time is one of these schedules. *)
Fixpoint startAll {A} (ms : list (AsyncCall A)) (p : Plugin)
  : list (Task A) * Plugin :=
  match ms with
  | [] => ([], p)
  | m :: ms' =>
      let (t, p1) := m p in
      let (ts, p2) := startAll ms' p1 in
      (t :: ts, p2)
  end.

Definition resumeTask {A} (i : nat) (ts : list (Task A)) (p : Plugin)
  : list (Task A) * Plugin :=
  match ts !! i with
  | Some (Await next effect) => (<[i := next p]> ts, effect p)
  | _ => (ts, p)
  end.

Fixpoint interleave {A} (schedule : list nat) (ts : list (Task A))
    (p : Plugin) : list (Task A) * Plugin :=
  match schedule with
  | [] => (ts, p)
  | i :: schedule' =>
      let (ts', p') := resumeTask i ts p in interleave schedule' ts' p'
  end.

Fixpoint finishAll {A} (ts : list (Task A)) (p : Plugin)
  : list (Result A) * Plugin :=
  match ts with
  | [] => ([], p)
  | t :: ts' =>
      let (r, p1) := runTask t p in
      let (rs, p2) := finishAll ts' p1 in
      (r :: rs, p2)
  end.

(** The promise of [Promise.all] is rejected when one of the promises is.
    (The callbacks of the pass catch every error: see
    [reconcileEntry_settles].) *)
Fixpoint firstThrow {A} (rs : list (Result A)) : Result unit :=
  match rs with
  | [] => Ok tt
  | Ok _ :: rs' => firstThrow rs'
  | Throw e :: _ => Throw e
  end.

Definition promiseAll {A} (schedule : list nat) (ms : list (AsyncCall A))
  : M unit :=
  fun p =>
    let (ts, p1) := startAll ms p in
    let (ts', p2) := interleave schedule ts p1 in
    let (rs, p3) := finishAll ts' p2 in
    (firstThrow rs, p3).

Module Async.

Section Methods.

Context (host : Host).

Local Open Scope async_scope.

(** [saveSettings]: [await this.saveData(this.settings)]. *)
Definition saveSettings : AsyncCall unit :=
  liftA saveSettings ;; suspend.

(** [makeApiRequest]: [await requestUrl(...)].  The reply is that of the
    service to a request sent after the requests sent before it. *)
Definition makeApiRequest {A} (c : Call) (reply : list Call → Reply A)
  : AsyncCall A :=
  fun p =>
    if negb (truthy (openwebuiUrl (settings p)))
       || negb (truthy (apiToken (settings p)))
    then (Done (Throw (lit "OpenWebUI URL and API token must be configured")),
          p)
    else
      let response := reply (calls p) in
      (Await
         (fun _ =>
            Done match response with
                 | Rejected message => Throw message
                 | Response status text json =>
                     if (400 <=? status)%N
                     then Throw (lit "API request failed: "
                                 ++ toString10 status ++ lit " " ++ text)
                     else Ok json
                 end)
         id,
       withCall c p).

Definition findKnowledgeBaseByName (name : jsstring)
  : AsyncCall (option jsstring) :=
  let* cached := liftA (gets (fun p => kbCache p !! name)) in
  let* hit :=
    liftA
      match cached with
      | Some entry =>
          (let* now := dateNow host in
           ret (if now - timestamp entry <? KB_CACHE_TTL
                then Some (cachedId entry) else None))%method
      | None => ret None
      end in
  match hit with
  | Some id => retA (Some id)
  | None =>
      tryCatchA
        (let* knowledgeBases :=
           await (makeApiRequest ListKnowledgeBases (listReply (remote host))) in
         match knowledgeBases with
         | Some kbs =>
             liftA (forEach kbs
                      (fun kb => cacheSet host (kb_name kb) (kb_id kb))) ;;
             retA (kb_id <$>
                   List.find (fun kb => bool_decide (kb_name kb = name)) kbs)
         | None => retA None
         end)
        (fun _ => liftA logged ;; retA None)
  end.

Definition createKnowledgeBase (name : jsstring) : AsyncCall jsstring :=
  tryCatchA
    (let* newId :=
       await (makeApiRequest (CreateKnowledgeBase name)
                (fun sent => createReply (remote host) sent name)) in
     liftA (cacheSet host name newId) ;;
     retA newId)
    (fun e => liftA logged ;; throwA e).

Definition getOrCreateKnowledgeBase (name : jsstring) : AsyncCall jsstring :=
  let* existingId := await (findKnowledgeBaseByName name) in
  match existingId with
  | Some id => if truthy id then retA id else createKnowledgeBase name
  | None => createKnowledgeBase name
  end.

Definition addFileToKnowledgeBase (kbId fileId : jsstring) : AsyncCall unit :=
  tryCatchA
    (await (makeApiRequest (AddFile kbId fileId)
              (fun sent => addReply (remote host) sent kbId fileId)))
    (fun e => liftA logged ;; throwA e).

Definition removeFileFromKnowledgeBase (kbName filePath fileId : jsstring)
  : AsyncCall unit :=
  tryCatchA
    (let* kbId := await (findKnowledgeBaseByName kbName) in
     match kbId with
     | Some id =>
         if truthy id then
           await (makeApiRequest (RemoveFile id fileId)
                    (fun sent => removeReply (remote host) sent id fileId)) ;;
           liftA (modify (dropKnowledgeBase filePath kbName))
         else retA tt
     | None => retA tt
     end)
    (fun e =>
       if isNotFoundMessage e
       then liftA (modify (dropKnowledgeBase filePath kbName))
       else liftA logged ;; throwA e).

Definition deleteFileFromOpenWebUI (fileId : jsstring) : AsyncCall unit :=
  tryCatchA
    (await (makeApiRequest (DeleteFile fileId)
              (fun sent => deleteReply (remote host) sent fileId)))
    (fun e => if isNotFoundMessage e then retA tt else liftA logged).

Definition removeFileFromAllKnowledgeBases (filePath : jsstring)
    (record : OpenWebUIFileRecord) : AsyncCall unit :=
  forEachA (knowledgeBases record) (fun kbName =>
    tryCatchA
      (await (removeFileFromKnowledgeBase kbName filePath (fileId record)))
      (fun _ => liftA logged)) ;;
  tryCatchA (await (deleteFileFromOpenWebUI (fileId record)))
    (fun _ => liftA logged).

(** [uploadFile]: [await fetch(...)], then [await response.text()] or
    [await response.json()]. *)
Definition uploadFile (filename content : jsstring) : AsyncCall jsstring :=
  fun p =>
    let response := uploadReply (remote host) (calls p) filename content in
    (Await
       (fun _ =>
          match response with
          | Rejected message => Done (Throw message)
          | Response status text uploadedId =>
              Await
                (fun _ =>
                   Done
                     (if ((200 <=? status) && (status <=? 299))%N
                      then Ok uploadedId
                      else if (status =? 400)%N
                              && includes (lit "Duplicate content") text
                      then Throw (lit "Duplicate content detected for "
                                  ++ filename
                                  ++ lit ". The file content already exists in OpenWebUI.")
                      else Throw (lit "Upload failed: " ++ toString10 status
                                  ++ lit " " ++ text)))
                id
          end)
       id,
     withCall (UploadFile filename content) p).

Fixpoint addToKnowledgeBases (targetKBs : list jsstring)
    (newRecord : OpenWebUIFileRecord) : AsyncCall OpenWebUIFileRecord :=
  match targetKBs with
  | [] => retA newRecord
  | kbName :: rest =>
      let* newRecord' :=
        tryCatchA
          (let* kbId := await (getOrCreateKnowledgeBase kbName) in
           await (addFileToKnowledgeBase kbId (fileId newRecord)) ;;
           liftA (modify (withSyncStatus incSynced)) ;;
           retA (if arrIncludes kbName (knowledgeBases newRecord)
                 then newRecord
                 else withKnowledgeBases (fun l => l ++ [kbName]) newRecord))
          (fun _ => liftA logged ;; retA newRecord) in
      addToKnowledgeBases rest newRecord'
  end.

(** The first part of [syncFileWithStateTracking], with its
    [await this.app.vault.read(file)]. *)
Definition detectChanges (file : TFile) (currentKBs : list jsstring)
    (config : option SyncConfig) : AsyncCall Changes :=
  let filePath := normalizePath host (path file) in
  let* modified :=
    liftA (if mtime file =? 0 then dateNow host else ret (mtime file)) in
  let* previousRecord :=
    liftA (gets (fun p => fileMapping (settings p) !! filePath)) in
  let timeChanged :=
    match previousRecord with
    | Some r => negb (lastModified r =? modified)
    | None => true
    end in
  let* read :=
    if timeChanged
    then suspend ;; liftA (liftResult (readAndHash host file config))
    else retA ([], from_option contentHash [] previousRecord) in
  let* stored := liftA (gets (fun p => syncState (settings p) !! filePath)) in
  let contentChanged :=
    timeChanged &&
    match previousRecord with
    | Some r => negb (bool_decide (contentHash r = snd read))
    | None => true
    end in
  liftA (modify (withSettings (withSyncState (alter jsSort filePath)))) ;;
  retA {| c_filePath := filePath; c_lastModified := modified;
          c_previousRecord := previousRecord;
          c_content := fst read; c_contentHash := snd read;
          c_contentChanged := contentChanged;
          c_currentKBs := jsSort currentKBs;
          c_previousKBs := jsSort (default [] stored) |}.

Definition removeOutdated (c : Changes) : AsyncCall unit :=
  match c_previousRecord c with
  | Some r =>
      if c_contentChanged c
      then await (removeFileFromAllKnowledgeBases (c_filePath c) r)
      else
        forEachA (kbsToRemoveFrom c) (fun kbName =>
          tryCatchA
            (await (removeFileFromKnowledgeBase kbName (c_filePath c)
                      (fileId r)) ;;
             liftA (modify (withSyncStatus incSynced)))
            (fun _ => liftA logged))
  | None => retA tt
  end.

Definition uploadIfNeeded (file : TFile) (c : Changes)
  : AsyncCall (option OpenWebUIFileRecord) :=
  if c_contentChanged c || negb (bool_decide (kbsToAddTo c = []))
     || negb (bool_decide (kbsToUpdate c = []))
  then
    tryCatchA
      (let* content :=
         if truthy (c_content c) then retA (c_content c)
         else suspend ;; liftA (liftResult (readAndProcess host file)) in
       let stableFilename :=
         generateStableFilename (name file) (c_contentHash c) in
       let* uploadedId := await (uploadFile stableFilename content) in
       retA (Some {| fileId := uploadedId;
                     uploadedFilename := stableFilename;
                     contentHash := c_contentHash c;
                     lastModified := c_lastModified c;
                     knowledgeBases := [] |}))
      (fun e => liftA logged ;; throwA e)
  else liftA (gets (fun p => fileMapping (settings p) !! c_filePath c)).

Definition updateState (c : Changes) (newRecord : option OpenWebUIFileRecord)
  : AsyncCall unit :=
  liftA (modify (withSettings (fun s =>
    withFileMapping
      (match newRecord with
       | Some r => insert (c_filePath c) r
       | None => id
       end)
      (withSyncState (insert (c_filePath c) (c_currentKBs c)) s)))) ;;
  await saveSettings.

Definition applyChanges (file : TFile) (c : Changes) : AsyncCall unit :=
  removeOutdated c ;;
  let* newRecord := uploadIfNeeded file c in
  let* newRecord :=
    match newRecord with
    | Some r =>
        let* r' := addToKnowledgeBases (targetKBs c) r in retA (Some r')
    | None => retA None
    end in
  updateState c newRecord.

Definition syncFileWithStateTracking (file : TFile)
    (currentKBs : list jsstring) (config : option SyncConfig)
  : AsyncCall unit :=
  let* c := detectChanges file currentKBs config in
  if negb (c_contentChanged c) && negb (c_kbsChanged c) then retA tt
  else applyChanges file c.

End Methods.

End Async.

(** ** The pass *)

(** How a pass ends: it returns or throws, or it never does. *)
Inductive Ending (A : Type) : Type :=
| Ends (r : Result A)
| Hangs.
Arguments Ends {A}.
Arguments Hangs {A}.

(** The pass and the methods around it: [(Hangs, p)] says that the method
    never ends, and that [p] is the plugin object it leaves for good. *)
Definition Pass (A : Type) : Type := Plugin → Ending A * Plugin.

Definition liftP {A} (m : M A) : Pass A :=
  fun p => let (r, p') := m p in (Ends r, p').

Definition retP {A} (a : A) : Pass A := fun p => (Ends (Ok a), p).

Definition hang {A} : Pass A := fun p => (Hangs, p).

Definition bindP {A B} (m : Pass A) (k : A → Pass B) : Pass B :=
  fun p => match m p with
           | (Ends (Ok a), p') => k a p'
           | (Ends (Throw e), p') => (Ends (Throw e), p')
           | (Hangs, p') => (Hangs, p')
           end.

Definition tryCatchP {A} (m : Pass A) (handler : jsstring → Pass A) : Pass A :=
  fun p => match m p with
           | (Ends (Throw e), p') => handler e p'
           | ending => ending
           end.

(** [try { m } finally { cleanup }], for a cleanup that does not throw. *)
Definition tryFinallyP {A} (m : Pass A) (cleanup : Plugin → Plugin) : Pass A :=
  fun p => match m p with
           | (Ends r, p') => (Ends r, cleanup p')
           | (Hangs, p') => (Hangs, p')
           end.

Declare Scope pass_scope.
Delimit Scope pass_scope with pass.
Notation "'let*' x := m 'in' k" := (bindP m (fun x => k))
  (at level 10, x name, m at level 99, k at level 200) : pass_scope.
Notation "m ;; k" := (bindP m (fun _ => k))
  (at level 100, k at level 200, right associativity) : pass_scope.

(** [arr.slice(start, end)]: an index below zero counts from the end of the
    array. *)
Definition slice {A} (start stop : Z) (l : list A) : list A :=
  let len := Z.of_nat (length l) in
  let from := if start <? 0 then Z.max (len + start) 0 else Z.min start len in
  let to := if stop <? 0 then Z.max (len + stop) 0 else Z.min stop len in
  firstn (Z.to_nat (to - from)) (skipn (Z.to_nat from) l).

Section Pass.

Context (host : Host).

(** The body of the two loops over a batch: the reconciliation of one
    document, with its [try] and [catch]. *)
Definition reconcileEntry (config : SyncConfig)
    (entry : jsstring * list jsstring) : AsyncCall unit :=
  let filePath := fst entry in
  tryCatchA
    (match getAbstractFileByPath host filePath with
     | Some file =>
         await (Async.syncFileWithStateTracking host file (snd entry)
                  (Some config))
     | None => retA tt
     end)
    (fun e =>
       liftA (logged ;;
              Notice (lit "Failed to sync " ++ filePath ++ lit ": " ++ e))).

(** One batch: its documents one after the other when [maxConcurrent] is
    1, together otherwise. *)
Definition processBatch (config : SyncConfig) (i : Z)
    (batch : list (jsstring * list jsstring)) : M unit :=
  if maxConcurrent config =? 1
  then forEach batch (fun entry => run (reconcileEntry config entry))
  else promiseAll (schedule host i) (map (reconcileEntry config) batch).

(** [for (let i = 0; i < fileEntries.length; i += config.batchSize) {...}].
    The pause between two batches does nothing to the plugin object.  The
    loop takes a step for every unit of [fuel], and hangs when there is none
    left and [i] is still below the length: started with the length as
    fuel, it runs out of it exactly when the batch size is not positive
    (see [processBatches_ends] and [processBatches_hangs]), and then every
    batch but the first is empty. *)
Fixpoint processBatches (config : SyncConfig)
    (fileEntries : list (jsstring * list jsstring)) (fuel : nat) (i : Z)
  : Pass unit :=
  if i <? Z.of_nat (length fileEntries) then
    match fuel with
    | O => hang
    | S fuel' =>
        bindP
          (liftP (processBatch config i
                    (slice i (i + configBatchSize config) fileEntries)))
          (fun _ =>
             processBatches config fileEntries fuel'
               (i + configBatchSize config))
    end
  else retP tt.

Local Open Scope pass_scope.

(** [performSyncOperation].  The batch size is the integer that the
    settings hold. *)
Definition performSyncOperation : Pass unit :=
  tryCatchP
    (liftP (cleanupDeletedFiles host) ;;
     let* filesToSync := liftP (findFilesWithKBTags (markdownFiles host)) in
     let fileGroups := groupByFile filesToSync in
     match fileGroups with
     | [] => liftP (Notice (lit "No files found with #kb/ tags"))
     | _ =>
         liftP (modify (withSyncStatus (fun _ =>
           {| synced := 0; total := Z.of_nat (length filesToSync);
              issyncing := true; error := false |}))) ;;
         let isCellular :=
           match connectionType host with cellular => true | _ => false end in
         let* config := liftP (getMobileAdjustedConfig isCellular) in
         processBatches config fileGroups (length fileGroups) 0 ;;
         liftP (handleUntaggedFiles host fileGroups) ;;
         liftP (modify (withSyncStatus (fun s =>
           {| synced := synced s; total := total s;
              issyncing := false; error := false |}))) ;;
         let* status := liftP (gets syncStatus) in
         liftP (Notice (lit "Sync completed: " ++ showCount (synced status)
                        ++ lit "/" ++ showCount (total status)
                        ++ lit " operations"))
     end)
    (fun e =>
       liftP (logged ;;
              modify (withSyncStatus (fun s =>
                {| synced := synced s; total := total s;
                   issyncing := false; error := true |})) ;;
              Notice (lit "Sync failed: " ++ e))%method).

(** [syncToKnowledgeBase], for any pass body: the guard, the checks, and
    [try { await body } finally { this.syncMutex = false }]. *)
Definition syncToKnowledgeBaseWith (body : Pass unit) : Pass unit :=
  let* busy := liftP (gets syncMutex) in
  if busy then liftP (Notice (lit "Sync already in progress, please wait..."))
  else
    let* token := liftP (gets (fun p => apiToken (settings p))) in
    if negb (truthy token)
    then liftP (Notice (lit "Please configure OpenWebUI API token in settings"))
    else
      let* blocked := liftP (shouldAllowSync host) in
      match blocked with
      | Some reason => liftP (Notice (lit "Sync blocked: " ++ reason))
      | None =>
          liftP (modify (withSyncMutex true)) ;;
          tryFinallyP body (withSyncMutex false)
      end.

Definition syncToKnowledgeBase : Pass unit :=
  syncToKnowledgeBaseWith performSyncOperation.

(** The callback that [startAutoSync] hands to [window.setInterval]. *)
Definition autoSyncTimerWith (body : Pass unit) : Pass unit :=
  let* busy := liftP (gets syncMutex) in
  if busy then liftP logged
  else
    let* skip := liftP (shouldSkipAutoSync host) in
    if skip then retP tt else syncToKnowledgeBaseWith body.

Definition autoSyncTimer : Pass unit := autoSyncTimerWith performSyncOperation.

End Pass.

(** ** Vocabulary of the properties *)





(** The URL and the token are set: [makeApiRequest] sends its request. *)
Definition configured (p : Plugin) : Prop :=
  truthy (openwebuiUrl (settings p)) = true
  ∧ truthy (apiToken (settings p)) = true.

(** The message of the error that [makeApiRequest] throws on a reply, when
    it throws. *)
Definition failureOf {A} (reply : Reply A) : option jsstring :=
  match reply with
  | Rejected message => Some message
  | Response status text _ =>
      if (400 <=? status)%N
      then Some (lit "API request failed: " ++ toString10 status
                 ++ lit " " ++ text)
      else None
  end.

(** The cache has nothing usable for [name]: no entry, or one whose age has
    reached the time to live. *)
Definition cacheMiss (host : Host) (name : jsstring) (p : Plugin) : Prop :=
  match kbCache p !! name with
  | Some entry => KB_CACHE_TTL ≤ clock host (ticks p) - timestamp entry
  | None => True
  end.

(** The plugin object once the cache check of a resolution is over:
    [Date.now()] was read if there was an entry to check. *)
Definition afterCacheCheck (name : jsstring) (p : Plugin) : Plugin :=
  match kbCache p !! name with
  | Some _ => withTick p
  | None => p
  end.

(** The plugin object after the loop that caches a list response. *)
Fixpoint cacheAll (host : Host) (kbs : list KnowledgeBase) (p : Plugin)
  : Plugin :=
  match kbs with
  | [] => p
  | kb :: rest =>
      cacheAll host rest
        (withKbCache
           (insert (kb_name kb)
              {| cachedId := kb_id kb; timestamp := clock host (ticks p) |})
           (withTick p))
  end.

(** The plugin object once [file.stat.mtime || Date.now()] was evaluated,
    and the value found. *)
Definition afterClock (host : Host) (file : TFile) (p : Plugin) : Plugin :=
  if mtime file =? 0 then withTick p else p.

Definition modifiedOf (host : Host) (file : TFile) (p : Plugin) : Z :=
  if mtime file =? 0 then clock host (ticks p) else mtime file.

(** [timeChanged] for a previous record. *)
Definition timeChangedOf (host : Host) (file : TFile) (p : Plugin)
    (previousRecord : option OpenWebUIFileRecord) : bool :=
  match previousRecord with
  | Some r => negb (lastModified r =? modifiedOf host file p)
  | None => true
  end.

(** The content and the hash that the first part of a reconciliation works
    with: read and computed when the time changed, the empty content and
    the recorded hash otherwise. *)
Definition readOf (host : Host) (file : TFile) (config : option SyncConfig)
    (p : Plugin) : Result (jsstring * jsstring) :=
  let previousRecord :=
    fileMapping (settings p) !! normalizePath host (path file) in
  if timeChangedOf host file p previousRecord
  then readAndHash host file config
  else Ok ([], from_option contentHash [] previousRecord).

(** The changes that the first part of a reconciliation finds. *)
Definition changesOf (host : Host) (file : TFile) (currentKBs : list jsstring)
    (p : Plugin) (read : jsstring * jsstring) : Changes :=
  let filePath := normalizePath host (path file) in
  let previousRecord := fileMapping (settings p) !! filePath in
  {| c_filePath := filePath;
     c_lastModified := modifiedOf host file p;
     c_previousRecord := previousRecord;
     c_content := fst read; c_contentHash := snd read;
     c_contentChanged :=
       timeChangedOf host file p previousRecord &&
       match previousRecord with
       | Some r => negb (bool_decide (contentHash r = snd read))
       | None => true
       end;
     c_currentKBs := jsSort currentKBs;
     c_previousKBs := jsSort (default [] (syncState (settings p) !! filePath)) |}.

(** The stored membership array of a document, sorted in place. *)
Definition sortStored (filePath : jsstring) : Plugin → Plugin :=
  withSettings (withSyncState (alter jsSort filePath)).

(** The plugin object after "Update state" and [saveSettings]. *)
Definition persisted (c : Changes) (newRecord : option OpenWebUIFileRecord)
    (p : Plugin) : Plugin :=
  let p' :=
    withSettings (fun s =>
      withFileMapping
        (match newRecord with
         | Some r => insert (c_filePath c) r
         | None => id
         end)
        (withSyncState (insert (c_filePath c) (c_currentKBs c)) s)) p in
  withSaved (settings p') p'.

(** The requests of the removal step: list requests, removals of the
    previous upload from a collection and, when the content changed, its
    deletion. *)
Definition removalCall (c : Changes) (call : Call) : Prop :=
  match call, c_previousRecord c with
  | ListKnowledgeBases, _ => True
  | RemoveFile _ id, Some r => id = fileId r
  | DeleteFile id, Some r => c_contentChanged c = true ∧ id = fileId r
  | _, _ => False
  end.

(** The requests of the loop over the target collections, for a document
    uploaded as [newId]: list requests, create requests, and additions of
    that document to a collection. *)
Definition attachCall (newId : jsstring) (call : Call) : Prop :=
  match call with
  | ListKnowledgeBases | CreateKnowledgeBase _ => True
  | AddFile _ id => id = newId
  | _ => False
  end.

(** The requests of the removal loop for a document uploaded as [oldId]:
    list requests and removals of that document from a collection. *)
Definition detachCall (oldId : jsstring) (call : Call) : Prop :=
  match call with
  | ListKnowledgeBases => True
  | RemoveFile _ id => id = oldId
  | _ => False
  end.

Definition isUpload (call : Call) : Prop :=
  match call with
  | UploadFile _ _ => True
  | _ => False
  end.

(** A remote service on which no upload succeeds. *)
Definition uploadsFail (host : Host) : Prop :=
  ∀ sent filename content,
    match uploadReply (remote host) sent filename content with
    | Rejected _ => True
    | Response status _ _ => ¬ (200 ≤ status ≤ 299)%N
    end.

(** ** Vocabulary of the proofs *)

(** A relation between the plugin object before and after a method, however
    the method ends. *)
Definition preserves {A} (R : Plugin → Plugin → Prop) (m : M A) : Prop :=
  ∀ p r p', m p = (r, p') → R p p'.

(** A property of what a method returns, when it returns. *)
Definition returns {A} (P : A → Prop) (m : M A) : Prop :=
  ∀ p a p', m p = (Ok a, p') → P a.

(** A method that never throws. *)
Definition neverThrows {A} (m : M A) : Prop := ∀ p, ∃ a p', m p = (Ok a, p').

(** The record of a document after removals: the same upload, with some of
    its collections struck out. *)
Definition shrinks (a b : OpenWebUIFileRecord) : Prop :=
  fileId b = fileId a ∧ uploadedFilename b = uploadedFilename a
  ∧ contentHash b = contentHash a ∧ lastModified b = lastModified a
  ∧ sublist (knowledgeBases b) (knowledgeBases a).

Definition shrinksOpt (o o' : option OpenWebUIFileRecord) : Prop :=
  match o, o' with
  | Some a, Some b => shrinks a b
  | None, None => True
  | _, _ => False
  end.

(** [Frame Q p p']: from [p] to [p'] nothing was saved, shown or locked, the
    settings are the same but for the order of the stored membership arrays
    and for collections struck out of the records, and the requests sent in
    between all satisfy [Q]. *)
Record Frame (Q : Call → Prop) (p p' : Plugin) : Prop := {
  frame_url : openwebuiUrl (settings p') = openwebuiUrl (settings p);
  frame_token : apiToken (settings p') = apiToken (settings p);
  frame_mobile : mobile (settings p') = mobile (settings p);
  frame_syncState : ∀ k,
    jsSort <$> (syncState (settings p') !! k)
    = jsSort <$> (syncState (settings p) !! k);
  frame_fileMapping : ∀ k,
    shrinksOpt (fileMapping (settings p) !! k) (fileMapping (settings p') !! k);
  frame_saved : saved p' = saved p;
  frame_syncMutex : syncMutex p' = syncMutex p;
  frame_notices : notices p' = notices p;
  frame_calls : ∃ new, calls p' = calls p ++ new ∧ Forall Q new;
  frame_ticks : (ticks p ≤ ticks p')%nat
}.

(** An array in the order [sort] leaves it in. *)
Inductive Sorted : list jsstring → Prop :=
| Sorted_nil : Sorted []
| Sorted_one x : Sorted [x]
| Sorted_cons x y l : strLeb x y = true → Sorted (y :: l) → Sorted (x :: y :: l).

(** ** Vocabulary of the further properties *)

(** A digit of [toString(16)]. *)
Definition isHexDigit (c : N) : bool := isDigit c || inRange 97 102 c.

(** [Isolated filePath p p']: from [p] to [p'] the settings of the
    connection and of the device are the same, and so is what the plugin
    holds for every document other than the one at [filePath]; no Notice
    was shown and the guard was not touched. *)
Record Isolated (filePath : jsstring) (p p' : Plugin) : Prop := {
  iso_url : openwebuiUrl (settings p') = openwebuiUrl (settings p);
  iso_token : apiToken (settings p') = apiToken (settings p);
  iso_mobile : mobile (settings p') = mobile (settings p);
  iso_syncState : ∀ k, k ≠ filePath →
    syncState (settings p') !! k = syncState (settings p) !! k;
  iso_fileMapping : ∀ k, k ≠ filePath →
    fileMapping (settings p') !! k = fileMapping (settings p) !! k;
  iso_syncMutex : syncMutex p' = syncMutex p;
  iso_notices : notices p' = notices p;
  iso_lastCellularWarning : lastCellularWarning p' = lastCellularWarning p
}.

(** The requests that take the upload [oldId] out of the service: list
    requests, removals of that upload from a collection, its deletion. *)
Definition retireCall (oldId : jsstring) (call : Call) : Prop :=
  match call with
  | ListKnowledgeBases => True
  | RemoveFile _ id | DeleteFile id => id = oldId
  | _ => False
  end.

(** [Sent Q p p']: the requests sent from [p] to [p'] all satisfy [Q]. *)
Definition Sent (Q : Call → Prop) (p p' : Plugin) : Prop :=
  ∃ new, calls p' = calls p ++ new ∧ Forall Q new.

(** [Dropped D p p']: from [p] to [p'] the documents at the paths in [D]
    have left [fileMapping] and [syncState], and the entries of the other
    documents are the same. *)
Definition Dropped (D : list jsstring) (p p' : Plugin) : Prop :=
  ∀ k,
    (k ∈ D → fileMapping (settings p') !! k = None
             ∧ syncState (settings p') !! k = None)
    ∧ (k ∉ D → fileMapping (settings p') !! k = fileMapping (settings p) !! k
               ∧ syncState (settings p') !! k = syncState (settings p) !! k).

(** A request that removes or deletes, or a list request. *)
Definition isRemoval (call : Call) : Prop :=
  match call with
  | ListKnowledgeBases | RemoveFile _ _ | DeleteFile _ => True
  | _ => False
  end.

(** The names that the items of a scan declare for one path, in the order
    of the items. *)
Definition namesFor (filePath : jsstring) (items : list (TFile * jsstring))
  : list jsstring :=
  map snd (filter (λ item, path item.1 = filePath) items).

(** The names of the first group with the path [filePath]. *)
Definition groupOf (filePath : jsstring)
    (fileGroups : list (jsstring * list jsstring)) : list jsstring :=
  default []
    (snd <$> List.find (λ g, bool_decide (g.1 = filePath)) fileGroups).

(** The three messages that tell how a pass ended. *)
Definition isPassReport (message : jsstring) : Prop :=
  message = lit "No files found with #kb/ tags"
  ∨ (∃ counts, message = lit "Sync completed: " ++ counts)
  ∨ (∃ reason, message = lit "Sync failed: " ++ reason).

(** ** Vocabulary of the pass *)

(** [TaskInv I Q t]: when [I] holds of the plugin object each time the
    started method [t] is resumed, it holds again at its next stop, and what
    the method ends with satisfies [Q].  This is what can be said of a
    method whatever goes on at its stops, as long as that keeps [I]. *)
Fixpoint TaskInv {A} (I : Plugin → Prop) (Q : Result A → Prop) (t : Task A)
  : Prop :=
  match t with
  | Done r => Q r
  | Await next effect => ∀ q, I q → I (effect q) ∧ TaskInv I Q (next q)
  end.

Definition AsyncInv {A} (I : Plugin → Prop) (Q : Result A → Prop)
    (m : AsyncCall A) : Prop :=
  ∀ p, I p → I (m p).2 ∧ TaskInv I Q (m p).1.

(** A method that returns. *)
Definition isOk {A} (r : Result A) : Prop := ∃ a, r = Ok a.

(** [I] is not lost from [p] to [p']. *)
Definition Kept (I : Plugin → Prop) (p p' : Plugin) : Prop := I p → I p'.

(** What a scan of readable files finds: an item for every tag of every
    file, in the order of the files. *)
Definition contentOf (file : TFile) : jsstring :=
  match vaultRead file with
  | Ok content => content
  | Throw _ => []
  end.

Definition scanned (files : list TFile) : list (TFile * jsstring) :=
  flat_map (λ file, map (pair file) (declaredKnowledgeBases (contentOf file)))
    files.

Definition readable (file : TFile) : Prop := ∃ content, vaultRead file = Ok content.

(** The limits that [getMobileAdjustedConfig] works out on the connection
    of the host. *)
Definition configOf (host : Host) (m : MobileSettings) : SyncConfig :=
  let isCellular :=
    match connectionType host with cellular => true | _ => false end in
  {| maxFileSize := if isCellular then cellularFileLimit m
                    else 5 * 1024 * 1024;
     configBatchSize := if isCellular then Z.min (batchSize m) 3
                        else batchSize m;
     maxConcurrent := if isCellular then 1 else maxConcurrentUploads m |}.



(** The removals and the additions among requests, each with its
    collection id and its document id. *)
Definition removalsOf (sent : list Call) : list (jsstring * jsstring) :=
  omap (λ c, match c with
             | RemoveFile kbId documentId => Some (kbId, documentId)
             | _ => None
             end) sent.

Definition additionsOf (sent : list Call) : list (jsstring * jsstring) :=
  omap (λ c, match c with
             | AddFile kbId documentId => Some (kbId, documentId)
             | _ => None
             end) sent.

(** A service that, from the requests [sent0] on, does what it is asked:
    the collection named [name] has the id [idFor name], every list
    request is answered with collections under their ids, those named in
    [known] among them, every create request with the id of the new
    collection, and every add and remove request is accepted. *)
Record Obliging (host : Host) (idFor : jsstring → jsstring)
    (known : list jsstring) (sent0 : list Call) : Prop := {
  obliging_id : ∀ name, truthy (idFor name) = true;
  obliging_list : ∀ new, ∃ status text kbs,
    listReply (remote host) (sent0 ++ new) = Response status text (Some kbs)
    ∧ (status < 400)%N
    ∧ Forall (λ kb, kb_id kb = idFor (kb_name kb)) kbs
    ∧ Forall (λ name, ∃ kb, kb ∈ kbs ∧ kb_name kb = name) known;
  obliging_create : ∀ new name, ∃ status text,
    createReply (remote host) (sent0 ++ new) name
    = Response status text (idFor name)
    ∧ (status < 400)%N;
  obliging_add : ∀ new kbId documentId,
    failureOf (addReply (remote host) (sent0 ++ new) kbId documentId) = None;
  obliging_remove : ∀ new kbId documentId,
    failureOf (removeReply (remote host) (sent0 ++ new) kbId documentId)
    = None
}.

(** The cache holds every collection under its id. *)
Definition coherent (idFor : jsstring → jsstring) (p : Plugin) : Prop :=
  map_Forall (λ name entry, cachedId entry = idFor name) (kbCache p).

(** A configured plugin with a coherent cache, some requests after
    [sent0]. *)
Definition ready (idFor : jsstring → jsstring) (sent0 : list Call)
    (q : Plugin) : Prop :=
  configured q ∧ coherent idFor q ∧ ∃ new, calls q = sent0 ++ new.

(** [newRecord.knowledgeBases] after the loop over the target
    collections, every addition being accepted. *)
Definition pushNew (l : list jsstring) (kbName : jsstring) : list jsstring :=
  if arrIncludes kbName l then l else l ++ [kbName].

(** ** Concrete situations *)

Definition defaultMobile : MobileSettings :=
  {| networkBehavior := wifi_preferred; cellularFileLimit := 1024 * 1024;
     maxConcurrentUploads := 2; batchSize := 5;
     enableBackgroundSync := false; batteryOptimization := true;
     lowBatteryThreshold := 15 |}.

Definition emptySettings : Settings :=
  {| openwebuiUrl := lit "http://localhost:3000"; apiToken := lit "secret";
     syncState := ∅; fileMapping := ∅; mobile := defaultMobile |}.

Definition pluginWith (s : Settings) : Plugin :=
  {| settings := s; saved := s;
     syncStatus := {| synced := 0; total := 0;
                      issyncing := false; error := false |};
     syncMutex := false; kbCache := ∅; lastCellularWarning := 0;
     notices := []; calls := []; ticks := 0 |}.

(** A freshly loaded, configured plugin that tracks nothing. *)
Definition freshPlugin : Plugin := pluginWith emptySettings.

(** The same plugin in the middle of a pass. *)
Definition busyPlugin : Plugin :=
  withSyncStatus (fun _ => {| synced := 3; total := 7;
                              issyncing := true; error := false |})
    (withSyncMutex true freshPlugin).

(** A desktop host around a remote service and a vault; the clock advances
    by one millisecond per reading. *)
Definition hostOf (r : Remote) (files : list TFile) : Host :=
  {| remote := r; clock n := 1700000000000 + Z.of_nat n;
     vaultName := lit "Vault"; normalizePath p := p;
     markdownFiles := files; connectionType := wifi;
     isMobileDevice := false; batteryLevel := inject_Z 100;
     documentHidden := false; schedule _ := [] |}.


(** The names of the collections created so far. *)
Definition createdNames (sent : list Call) : list jsstring :=
  omap (fun c => match c with
                 | CreateKnowledgeBase n => Some n
                 | _ => None
                 end) sent.

Definition uploadCount (sent : list Call) : nat :=
  length (omap (fun c => match c with
                         | UploadFile n _ => Some n
                         | _ => None
                         end) sent).

(** A service that does what it is asked: a collection "kb-<name>" per
    create request, a document "file-<n>" per upload. *)
Definition obligingRemote : Remote :=
  {| listReply sent :=
       Response 200 []
         (Some (map (fun n => {| kb_id := lit "kb-" ++ n; kb_name := n |})
                  (createdNames sent)));
     createReply sent n := Response 200 [] (lit "kb-" ++ n);
     addReply _ _ _ := Response 200 [] tt;
     removeReply _ _ _ := Response 200 [] tt;
     deleteReply _ _ := Response 200 [] tt;
     uploadReply sent _ _ :=
       Response 200 [] (lit "file-" ++ toString10 (N.of_nat (uploadCount sent))) |}.

(** The same service answering every add and remove request with 404. *)
Definition notFoundRemote : Remote :=
  {| listReply := listReply obligingRemote;
     createReply := createReply obligingRemote;
     addReply _ _ _ := Response 404 (lit "Not Found") tt;
     removeReply _ _ _ := Response 404 (lit "Not Found") tt;
     deleteReply := deleteReply obligingRemote;
     uploadReply := uploadReply obligingRemote |}.

(** A service on which the collection "Docs" appears between the list
    request and the create request of the plugin: the list is empty at
    first, the create request is refused, and every later list has the
    collection. *)
Definition racingRemote : Remote :=
  {| listReply sent :=
       Response 200 []
         (Some (match sent with
                | [] => []
                | _ => [{| kb_id := lit "kb-1"; kb_name := lit "Docs" |}]
                end));
     createReply _ _ :=
       Response 400 (lit "Knowledge base already exists") (lit "");
     addReply _ _ _ := Response 200 [] tt;
     removeReply _ _ _ := Response 200 [] tt;
     deleteReply _ _ := Response 200 [] tt;
     uploadReply _ _ _ := Response 200 [] (lit "file-0") |}.

(** A service without any collection. *)
Definition emptyRemote : Remote :=
  {| listReply _ := Response 200 [] (Some []);
     createReply := createReply obligingRemote;
     addReply := addReply obligingRemote;
     removeReply := removeReply obligingRemote;
     deleteReply := deleteReply obligingRemote;
     uploadReply := uploadReply obligingRemote |}.

(** A service with the collections "Docs" and "Notes" whose uploads fail. *)
Definition uploadDownRemote : Remote :=
  {| listReply _ :=
       Response 200 []
         (Some [{| kb_id := lit "kb-1"; kb_name := lit "Docs" |};
                {| kb_id := lit "kb-2"; kb_name := lit "Notes" |}]);
     createReply := createReply obligingRemote;
     addReply := addReply obligingRemote;
     removeReply := removeReply obligingRemote;
     deleteReply := deleteReply obligingRemote;
     uploadReply _ _ _ := Response 500 (lit "Internal Server Error") (lit "") |}.

(** A note that declares the collection "Docs". *)
Definition noteFile : TFile :=
  {| path := lit "Note.md"; name := lit "Note.md"; mtime := 1699999990000;
     vaultRead := Ok (lit "Body of the note #kb/docs") |}.

(** A plugin that tracks the note as uploaded earlier with another content
    and attached to "Docs". *)
Definition trackedPlugin : Plugin :=
  pluginWith
    {| openwebuiUrl := lit "http://localhost:3000"; apiToken := lit "secret";
       syncState := {[ lit "Note.md" := [lit "Docs"] ]};
       fileMapping :=
         {[ lit "Note.md" :=
              {| fileId := lit "file-0";
                 uploadedFilename := lit "Note_1a2b3c4d.md";
                 contentHash := lit "1a2b3c4d";
                 lastModified := 1699999000000;
                 knowledgeBases := [lit "Docs"] |} ]};
       mobile := defaultMobile |}.

(** A plan that declares the collections "A" and "B", and the same file
    after an edit that kept its modification time and declares "A" and
    "C". *)
Definition planFile : TFile :=
  {| path := lit "Plan.md"; name := lit "Plan.md"; mtime := 1699999990000;
     vaultRead := Ok (lit "The plan #kb/a #kb/b") |}.

Definition planFileRetagged : TFile :=
  {| path := lit "Plan.md"; name := lit "Plan.md"; mtime := 1699999990000;
     vaultRead := Ok (lit "The plan #kb/a #kb/c") |}.

(** A plugin that tracks the plan as uploaded and attached to "A" and
    "B": what a first pass over [planFile] leaves in the settings. *)
Definition plannedPlugin : Plugin :=
  pluginWith
    {| openwebuiUrl := lit "http://localhost:3000"; apiToken := lit "secret";
       syncState := {[ lit "Plan.md" := [lit "A"; lit "B"] ]};
       fileMapping :=
         {[ lit "Plan.md" :=
              {| fileId := lit "file-0";
                 uploadedFilename := lit "Plan_5f8010f1.md";
                 contentHash := lit "5f8010f1";
                 lastModified := 1699999990000;
                 knowledgeBases := [lit "A"; lit "B"] |} ]};
       mobile := defaultMobile |}.

(** * Properties *)

(** ** Strings *)

Lemma startsWith_app (p s : jsstring) : startsWith p (p ++ s) = true.
Proof.
  induction p as [|a p IH]; simpl; [done|].
  by rewrite N.eqb_refl, IH.
Qed.

Lemma startsWith_inv (p s : jsstring) :
  startsWith p s = true → ∃ r, s = p ++ r.
Proof.
  revert s. induction p as [|a p IH]; intros s H; [by exists s|].
  destruct s as [|b s]; [done|]. cbn [startsWith] in H.
  apply andb_prop in H as [Hab H]. apply N.eqb_eq in Hab as ->.
  destruct (IH s H) as [r ->]. by exists r.
Qed.

Lemma includes_app (p a b : jsstring) : includes p (a ++ p ++ b) = true.
Proof.
  induction a as [|c a IH]; simpl.
  - destruct (p ++ b) eqn:E; simpl; rewrite <- E, startsWith_app; done.
  - rewrite IH. apply orb_true_r.
Qed.


Lemma span_app (P : N → bool) (t r : jsstring) :
  Forall (λ c, P c = true) t →
  match r with [] => True | c :: _ => P c = false end →
  span P (t ++ r) = (t, r).
Proof.
  intros Ht Hr. induction Ht as [|c t Pc _ IH]; simpl.
  - destruct r as [|c r]; simpl; [done|]. by rewrite Hr.
  - by rewrite Pc, IH.
Qed.

(** ** The stable upload name *)

Lemma split_no_separator (sep : N) (b : jsstring) :
  Forall (λ c, c ≠ sep) b → split sep b = [b].
Proof.
  induction 1 as [|c b Hc _ IH]; simpl; [done|].
  apply N.eqb_neq in Hc. by rewrite Hc, IH.
Qed.

Lemma split_app_separator (sep : N) (a b : jsstring) :
  ∃ w ws, split sep (a ++ sep :: b) = (w :: ws) ++ split sep b.
Proof.
  induction a as [|c a (w & ws & IH)]; simpl.
  - rewrite N.eqb_refl. by exists [], [].
  - rewrite IH. destruct (c =? sep)%N.
    + by exists [], (w :: ws).
    + by exists (c :: w), ws.
Qed.

Lemma split_last_segment (sep : N) (a b : jsstring) :
  Forall (λ c, c ≠ sep) b → pop (split sep (a ++ sep :: b)) = b.
Proof.
  intros Hb. destruct (split_app_separator sep a b) as (w & ws & ->).
  rewrite (split_no_separator sep b Hb). unfold pop.
  by rewrite List.last_last.
Qed.

Lemma stripExtension_app (base ext : jsstring) :
  ext ≠ [] → Forall (λ c, c ≠ 46 ∧ c ≠ 47)%N ext →
  stripExtension (base ++ 46%N :: ext) = base.
Proof.
  intros Hne Hext.
  assert (Hall : forallb (λ d, negb ((d =? 47) || (d =? 46))%N) ext = true).
  { apply forallb_forall. intros d Hd.
    rewrite Forall_forall in Hext. destruct (Hext d) as [H1 H2].
    { by apply list_elem_of_In. }
    apply N.eqb_neq in H1, H2. by rewrite H1, H2. }
  induction base as [|c base IH]; simpl.
  - rewrite Hall. rewrite bool_decide_eq_false_2; done.
  - rewrite IH.
    destruct (c =? 46)%N eqn:Ec; [|done]. simpl.
    rewrite forallb_app. simpl. rewrite andb_false_r.
    by rewrite andb_false_r.
Qed.

(** For a name with a proper final extension the upload name is the cleaned
    base name, the first eight code units of the hash and that extension. *)
Lemma generateStableFilename_extension (base ext hash : jsstring) :
  ext ≠ [] → Forall (λ c, c ≠ 46 ∧ c ≠ 47)%N ext →
  generateStableFilename (base ++ lit "." ++ ext) hash
  = sanitize base ++ lit "_" ++ firstn 8 hash ++ lit "." ++ ext.
Proof.
  intros Hne Hext. unfold generateStableFilename.
  change (lit ".") with [46%N]. simpl app.
  rewrite stripExtension_app by done.
  rewrite split_last_segment.
  - destruct ext; done.
  - eapply Forall_impl; [exact Hext|]. by intros c [H _].
Qed.

(** C9.  For a name with a final extension, as every name of a file of the
    vault is: the base name is the name without that extension, the
    extension is what follows the last dot, and the upload name is the
    cleaned base name, an underscore, the first eight code units of the
    hash, a dot and the extension.  The name depends on the hash through
    its first eight code units only, so that the same content under the
    same name gets the same upload name.  When nothing follows the last
    dot the extension is 'md'. *)
Theorem generateStableFilename_formula (base ext hash : jsstring) :
  ext ≠ [] → Forall (λ c, c ≠ 46 ∧ c ≠ 47)%N ext →
  let originalName := base ++ lit "." ++ ext in
  stripExtension originalName = base
  ∧ pop (split 46 originalName) = ext
  ∧ generateStableFilename originalName hash
    = map (λ c, if isTagChar c then c else 95%N) base
      ++ lit "_" ++ firstn 8 hash ++ lit "." ++ ext
  ∧ (∀ hash',
       firstn 8 hash' = firstn 8 hash →
       generateStableFilename originalName hash'
       = generateStableFilename originalName hash)
  ∧ generateStableFilename (base ++ lit ".") hash
    = sanitize (stripExtension (base ++ lit "."))
      ++ lit "_" ++ firstn 8 hash ++ lit ".md".
Proof.
  intros Hne Hext originalName. subst originalName.
  change (lit ".") with [46%N]. simpl app.
  pose proof (stripExtension_app base ext Hne Hext) as Hstrip.
  assert (Hpop : pop (split 46 (base ++ 46%N :: ext)) = ext).
  { apply split_last_segment. eapply Forall_impl; [exact Hext|].
    by intros c [H _]. }
  split; [exact Hstrip|]. split; [exact Hpop|]. split; [|split].
  - unfold generateStableFilename. rewrite Hstrip, Hpop. by destruct ext.
  - intros hash' Hsame. unfold generateStableFilename, substring0.
    by rewrite Hsame.
  - unfold generateStableFilename.
    by rewrite (split_last_segment 46 base []).
Qed.


(** ** The link rewriting *)

Lemma replaceFrom_no_match re callback (s : jsstring) :
  (∀ t, is_Some (re t) → includes (lit "[[") t = true) →
  includes (lit "[[") s = false →
  replaceFrom re callback 0 s = Some s.
Proof.
  intros Hre. induction s as [|c s IH]; [done|].
  intros Hs. cbn [replaceFrom].
  destruct (re (c :: s)) as [m|] eqn:E.
  - rewrite Hre in Hs; [done|]. by rewrite E.
  - cbn [includes] in Hs. apply orb_false_elim in Hs as [_ Hs].
    by rewrite (IH Hs).
Qed.

Lemma matchPipedLink_starts (t : jsstring) :
  is_Some (matchPipedLink t) → includes (lit "[[") t = true.
Proof.
  unfold matchPipedLink. intros H.
  destruct (startsWith (lit "[[") t) eqn:E.
  - destruct t; simpl in *; by rewrite E.
  - by destruct H.
Qed.

Lemma matchLink_starts (t : jsstring) :
  is_Some (matchLink t) → includes (lit "[[") t = true.
Proof.
  unfold matchLink. intros H.
  destruct (startsWith (lit "[[") t) eqn:E.
  - destruct t; simpl in *; by rewrite E.
  - by destruct H.
Qed.

Lemma matchEmbed_starts (t : jsstring) :
  is_Some (matchEmbed t) → includes (lit "[[") t = true.
Proof.
  unfold matchEmbed. intros H.
  destruct t as [|c t]; [by destruct H|].
  destruct (matchLink t) eqn:E.
  - cbn [includes]. rewrite (matchLink_starts t); [apply orb_true_r|].
    by rewrite E.
  - destruct H as [m H]. by destruct (c =? 33)%N.
Qed.

(** A name without surrogate code units is accepted by
    [encodeURIComponent]. *)
Lemma encodeURIComponent_no_surrogate (s : jsstring) :
  Forall (λ c, isHighSurrogate c = false ∧ isLowSurrogate c = false) s →
  is_Some (encodeURIComponent s).
Proof.
  unfold encodeURIComponent.
  induction 1 as [|c s [Hh Hl] _ [r IH]]; simpl; [by eexists|].
  rewrite Hh, Hl, IH. destruct (isUnreserved c); by eexists.
Qed.

(** C10, amended: on a text without "[[" the link rewriting returns the
    text unchanged, for every vault name that [encodeURIComponent] accepts
    (a name without unpaired surrogate). *)
Theorem processObsidianLinks_link_free (content vaultName : jsstring) :
  includes (lit "[[") content = false →
  is_Some (encodeURIComponent vaultName) →
  processObsidianLinks content vaultName = Some content.
Proof.
  intros Hfree [encoded Henc]. unfold processObsidianLinks, replaceAll.
  rewrite Henc. cbn [mbind option_bind].
  rewrite (replaceFrom_no_match _ _ content matchPipedLink_starts Hfree).
  cbn [mbind option_bind].
  rewrite (replaceFrom_no_match _ _ content matchLink_starts Hfree).
  cbn [mbind option_bind].
  exact (replaceFrom_no_match _ _ content matchEmbed_starts Hfree).
Qed.

Lemma processObsidianLinks_link_free_witness :
  processObsidianLinks (lit "plain text, [one] bracket") (lit "My Vault")
  = Some (lit "plain text, [one] bracket").
Proof.
  apply processObsidianLinks_link_free.
  - vm_compute. reflexivity.
  - vm_compute. eexists. reflexivity.
Defined.

(** C10 as stated fails: a vault name with an unpaired surrogate makes
    [encodeURIComponent] throw before the text is looked at. *)
Lemma processObsidianLinks_link_free_counterexample :
  includes (lit "[[") (lit "plain text") = false
  ∧ processObsidianLinks (lit "plain text") [55296%N] = None.
Proof. split; vm_compute; reflexivity. Qed.

(** ** The declared memberships *)







Lemma inRange_spec (lo hi c : N) :
  inRange lo hi c = true ↔ (lo ≤ c ∧ c ≤ hi)%N.
Proof.
  unfold inRange. rewrite andb_true_iff, !N.leb_le. done.
Qed.











(** ** Methods: how they compose *)

Local Open Scope method_scope.

Section Preserves.

Context (R : Plugin → Plugin → Prop) `{!PreOrder R}.

Lemma preserves_ret {A} (a : A) : preserves R (ret a).
Proof. intros p r p' [= <- <-]. reflexivity. Qed.

Lemma preserves_throw {A} (e : jsstring) : preserves R (@throw A e).
Proof. intros p r p' [= <- <-]. reflexivity. Qed.

Lemma preserves_gets {A} (f : Plugin → A) : preserves R (gets f).
Proof. intros p r p' [= <- <-]. reflexivity. Qed.

Lemma preserves_liftResult {A} (r : Result A) : preserves R (liftResult r).
Proof. intros p r' p' [= <- <-]. reflexivity. Qed.

Lemma preserves_modify (f : Plugin → Plugin) :
  (∀ p, R p (f p)) → preserves R (modify f).
Proof. intros Hf p r p' [= <- <-]. apply Hf. Qed.

Lemma preserves_bind {A B} (m : M A) (k : A → M B) :
  preserves R m → (∀ a, preserves R (k a)) → preserves R (bind m k).
Proof.
  intros Hm Hk p r p'. unfold bind.
  destruct (m p) as [[a|e] p1] eqn:E.
  - intros H. etransitivity; [exact (Hm _ _ _ E)|exact (Hk _ _ _ _ H)].
  - intros [= <- <-]. exact (Hm _ _ _ E).
Qed.

Lemma preserves_tryCatch {A} (m : M A) (handler : jsstring → M A) :
  preserves R m → (∀ e, preserves R (handler e)) →
  preserves R (tryCatch m handler).
Proof.
  intros Hm Hh p r p'. unfold tryCatch.
  destruct (m p) as [[a|e] p1] eqn:E.
  - intros [= <- <-]. exact (Hm _ _ _ E).
  - intros H. etransitivity; [exact (Hm _ _ _ E)|exact (Hh _ _ _ _ H)].
Qed.

Lemma preserves_forEach {A} (l : list A) (body : A → M unit) :
  (∀ x, preserves R (body x)) → preserves R (forEach l body).
Proof.
  intros Hb. induction l as [|x l IH]; cbn [forEach].
  - apply preserves_ret.
  - apply preserves_bind; [apply Hb|]. intros _. exact IH.
Qed.

End Preserves.

Lemma returns_ret {A} (P : A → Prop) (a : A) : P a → returns P (ret a).
Proof. by intros Ha p b p' [= <- <-]. Qed.

Lemma returns_bind {A B} (P : B → Prop) (m : M A) (k : A → M B) :
  (∀ a, returns P (k a)) → returns P (bind m k).
Proof.
  intros Hk p b p'. unfold bind.
  destruct (m p) as [[a|e] p1]; [apply Hk|done].
Qed.

Lemma returns_tryCatch {A} (P : A → Prop) (m : M A) handler :
  returns P m → (∀ e, returns P (handler e)) → returns P (tryCatch m handler).
Proof.
  intros Hm Hh p a p'. unfold tryCatch.
  destruct (m p) as [[b|e] p1] eqn:E.
  - intros [= <- <-]. exact (Hm _ _ _ E).
  - apply Hh.
Qed.

Lemma neverThrows_ret {A} (a : A) : neverThrows (ret a).
Proof. intros p. by exists a, p. Qed.

Lemma neverThrows_gets {A} (f : Plugin → A) : neverThrows (gets f).
Proof. intros p. by exists (f p), p. Qed.

Lemma neverThrows_modify (f : Plugin → Plugin) : neverThrows (modify f).
Proof. intros p. by exists tt, (f p). Qed.

Lemma neverThrows_bind {A B} (m : M A) (k : A → M B) :
  neverThrows m → (∀ a, neverThrows (k a)) → neverThrows (bind m k).
Proof.
  intros Hm Hk p. unfold bind. destruct (Hm p) as (a & p1 & ->). apply Hk.
Qed.

Lemma neverThrows_tryCatch {A} (m : M A) handler :
  (∀ e, neverThrows (handler e)) → neverThrows (tryCatch m handler).
Proof.
  intros Hh p. unfold tryCatch. destruct (m p) as [[a|e] p1].
  - by exists a, p1.
  - apply Hh.
Qed.

Lemma neverThrows_forEach {A} (l : list A) (body : A → M unit) :
  (∀ x, neverThrows (body x)) → neverThrows (forEach l body).
Proof.
  intros Hb. induction l as [|x l IH]; cbn [forEach].
  - apply neverThrows_ret.
  - apply neverThrows_bind; [apply Hb|]. intros _. exact IH.
Qed.

(** ** What the requests leave alone *)

Lemma shrinks_refl (a : OpenWebUIFileRecord) : shrinks a a.
Proof. by repeat split. Qed.

Lemma shrinks_trans (a b c : OpenWebUIFileRecord) :
  shrinks a b → shrinks b c → shrinks a c.
Proof.
  intros (?&?&?&?&?) (?&?&?&?&?). repeat split; try congruence.
  by etransitivity.
Qed.

Lemma shrinksOpt_refl (o : option OpenWebUIFileRecord) : shrinksOpt o o.
Proof. destruct o; [apply shrinks_refl|done]. Qed.

Lemma shrinksOpt_trans (a b c : option OpenWebUIFileRecord) :
  shrinksOpt a b → shrinksOpt b c → shrinksOpt a c.
Proof.
  destruct a, b, c; simpl; try done. apply shrinks_trans.
Qed.

Lemma Frame_preorder (Q : Call → Prop) : PreOrder (Frame Q).
Proof.
  split.
  - intros p. split; try done.
    + intros k. apply shrinksOpt_refl.
    + exists []. by rewrite app_nil_r.
  - intros p1 p2 p3 H12 H23.
    split; try (etransitivity; [apply H23|apply H12]).
    + intros k. eapply shrinksOpt_trans; [apply H12|apply H23].
    + destruct (frame_calls _ _ _ H12) as (n1 & E1 & H1).
      destruct (frame_calls _ _ _ H23) as (n2 & E2 & H2).
      exists (n1 ++ n2). rewrite E2, E1, app_assoc. split; [done|].
      by apply Forall_app.
    + pose proof (frame_ticks _ _ _ H12). pose proof (frame_ticks _ _ _ H23).
      lia.
Qed.

#[global] Existing Instance Frame_preorder.

Lemma Frame_weaken (Q Q' : Call → Prop) (p p' : Plugin) :
  (∀ c, Q c → Q' c) → Frame Q p p' → Frame Q' p p'.
Proof.
  intros HQ []. split; try done.
  destruct frame_calls0 as (new & -> & H). exists new. split; [done|].
  eapply Forall_impl; eauto.
Qed.

Lemma preserves_weaken {A} (Q Q' : Call → Prop) (m : M A) :
  (∀ c, Q c → Q' c) → preserves (Frame Q) m → preserves (Frame Q') m.
Proof. intros HQ Hm p r p' H. eapply Frame_weaken; eauto. Qed.

Lemma Frame_withTick Q p : Frame Q p (withTick p).
Proof.
  split; try done.
  - intros k. apply shrinksOpt_refl.
  - exists []. by rewrite app_nil_r.
  - simpl. lia.
Qed.

Lemma Frame_withKbCache Q f p : Frame Q p (withKbCache f p).
Proof.
  split; try done.
  - intros k. apply shrinksOpt_refl.
  - exists []. by rewrite app_nil_r.
Qed.

Lemma Frame_withSyncStatus Q f p : Frame Q p (withSyncStatus f p).
Proof.
  split; try done.
  - intros k. apply shrinksOpt_refl.
  - exists []. by rewrite app_nil_r.
Qed.

Lemma Frame_withCall (Q : Call → Prop) c p : Q c → Frame Q p (withCall c p).
Proof.
  intros Hc. split; try done.
  - intros k. apply shrinksOpt_refl.
  - exists [c]. split; [done|]. by constructor.
Qed.

Lemma Frame_dropKnowledgeBase Q filePath kbName p :
  Frame Q p (dropKnowledgeBase filePath kbName p).
Proof.
  split; try done.
  - intros k. unfold dropKnowledgeBase. simpl.
    destruct (decide (k = filePath)) as [->|Hk].
    + rewrite lookup_alter_eq.
      destruct (fileMapping (settings p) !! filePath) as [r|]; simpl; [|done].
      repeat split. apply sublist_filter.
    + rewrite lookup_alter_ne by done. apply shrinksOpt_refl.
  - exists []. by rewrite app_nil_r.
Qed.

Section MethodFrames.

Context (host : Host) (Q : Call → Prop).

Lemma dateNow_frame : preserves (Frame Q) (dateNow host).
Proof. intros p r p' [= <- <-]. apply Frame_withTick. Qed.

Lemma makeApiRequest_frame {A} c (reply : list Call → Reply A) :
  Q c → preserves (Frame Q) (makeApiRequest c reply).
Proof.
  intros Hc p r p'. unfold makeApiRequest.
  destruct (_ || _).
  - intros [= <- <-]. reflexivity.
  - destruct (reply (calls p)) as [e|status text json].
    + intros [= <- <-]. by apply Frame_withCall.
    + destruct (400 <=? status)%N; intros [= <- <-]; by apply Frame_withCall.
Qed.

Lemma cacheSet_frame name id : preserves (Frame Q) (cacheSet host name id).
Proof.
  apply preserves_bind; [apply _|apply dateNow_frame|].
  intros now. apply preserves_modify. apply Frame_withKbCache.
Qed.

Lemma findKnowledgeBaseByName_frame name :
  Q ListKnowledgeBases →
  preserves (Frame Q) (findKnowledgeBaseByName host name).
Proof.
  intros HQ. unfold findKnowledgeBaseByName.
  apply preserves_bind; [apply _|apply preserves_gets; apply _|].
  intros cached. apply preserves_bind; [apply _| |].
  - destruct cached; [|apply preserves_ret; apply _].
    apply preserves_bind; [apply _|apply dateNow_frame|].
    intros now. apply preserves_ret; apply _.
  - intros [id|]; [apply preserves_ret; apply _|].
    apply preserves_tryCatch; [apply _| |].
    + apply preserves_bind; [apply _|by apply makeApiRequest_frame|].
      intros [kbs|]; [|apply preserves_ret; apply _].
      apply preserves_bind; [apply _| |intros; apply preserves_ret; apply _].
      apply preserves_forEach; [apply _|]. intros kb. apply cacheSet_frame.
    + intros e. apply preserves_bind; [apply _|apply preserves_ret; apply _|].
      intros; apply preserves_ret; apply _.
Qed.

End MethodFrames.

Ltac frame_step :=
  lazymatch goal with
  | |- preserves _ (bind _ _) =>
      apply preserves_bind; [apply _| |intros ?]
  | |- preserves _ (tryCatch _ _) =>
      apply preserves_tryCatch; [apply _| |intros ?]
  | |- preserves _ (forEach _ _) =>
      apply preserves_forEach; [apply _|intros ?]
  | |- preserves _ (ret _) => apply preserves_ret; apply _
  | |- preserves _ (throw _) => apply preserves_throw; apply _
  | |- preserves _ (gets _) => apply preserves_gets; apply _
  | |- preserves _ logged => apply preserves_ret; apply _
  | |- preserves _ (liftResult _) => apply preserves_liftResult; apply _
  | |- preserves _ (if ?b then _ else _) => destruct b
  | |- preserves _ (match ?o with _ => _ end) => destruct o
  end.

Section MoreMethodFrames.

Context (host : Host) (Q : Call → Prop).

Lemma createKnowledgeBase_frame name :
  Q (CreateKnowledgeBase name) →
  preserves (Frame Q) (createKnowledgeBase host name).
Proof.
  intros HQ. unfold createKnowledgeBase. repeat frame_step.
  - by apply makeApiRequest_frame.
  - apply cacheSet_frame.
Qed.

Lemma getOrCreateKnowledgeBase_frame name :
  Q ListKnowledgeBases → Q (CreateKnowledgeBase name) →
  preserves (Frame Q) (getOrCreateKnowledgeBase host name).
Proof.
  intros HQ1 HQ2. unfold getOrCreateKnowledgeBase. frame_step.
  - by apply findKnowledgeBaseByName_frame.
  - repeat frame_step; by apply createKnowledgeBase_frame.
Qed.

Lemma addFileToKnowledgeBase_frame kbId fileId :
  Q (AddFile kbId fileId) →
  preserves (Frame Q) (addFileToKnowledgeBase host kbId fileId).
Proof.
  intros HQ. unfold addFileToKnowledgeBase. repeat frame_step.
  by apply makeApiRequest_frame.
Qed.

Lemma removeFileFromKnowledgeBase_frame kbName filePath fileId :
  Q ListKnowledgeBases → (∀ kbId, Q (RemoveFile kbId fileId)) →
  preserves (Frame Q) (removeFileFromKnowledgeBase host kbName filePath fileId).
Proof.
  intros HQ1 HQ2. unfold removeFileFromKnowledgeBase. frame_step.
  - frame_step; [by apply findKnowledgeBaseByName_frame|].
    repeat frame_step.
    + by apply makeApiRequest_frame.
    + apply preserves_modify. apply Frame_dropKnowledgeBase.
  - repeat frame_step. apply preserves_modify. apply Frame_dropKnowledgeBase.
Qed.

Lemma deleteFileFromOpenWebUI_frame fileId :
  Q (DeleteFile fileId) →
  preserves (Frame Q) (deleteFileFromOpenWebUI host fileId).
Proof.
  intros HQ. unfold deleteFileFromOpenWebUI. repeat frame_step.
  by apply makeApiRequest_frame.
Qed.

Lemma removeFileFromAllKnowledgeBases_frame filePath record :
  Q ListKnowledgeBases → (∀ kbId, Q (RemoveFile kbId (fileId record))) →
  Q (DeleteFile (fileId record)) →
  preserves (Frame Q) (removeFileFromAllKnowledgeBases host filePath record).
Proof.
  intros HQ1 HQ2 HQ3. unfold removeFileFromAllKnowledgeBases.
  repeat frame_step.
  - by apply removeFileFromKnowledgeBase_frame.
  - by apply deleteFileFromOpenWebUI_frame.
Qed.

Lemma uploadFile_frame filename content :
  Q (UploadFile filename content) →
  preserves (Frame Q) (uploadFile host filename content).
Proof.
  intros HQ p r p'. unfold uploadFile.
  destruct (uploadReply _ _ _ _) as [e|status text id].
  - intros [= <- <-]. by apply Frame_withCall.
  - repeat (destruct (_ && _)); intros [= <- <-]; by apply Frame_withCall.
Qed.

(** The loop over the target collections always returns, with the record
    it was given but for the collections added to it. *)
Lemma addToKnowledgeBases_returns targetKBs newRecord p :
  Q ListKnowledgeBases → (∀ name, Q (CreateKnowledgeBase name)) →
  (∀ kbId, Q (AddFile kbId (fileId newRecord))) →
  ∃ r p', addToKnowledgeBases host targetKBs newRecord p = (Ok r, p')
          ∧ Frame Q p p'
          ∧ fileId r = fileId newRecord
          ∧ uploadedFilename r = uploadedFilename newRecord
          ∧ contentHash r = contentHash newRecord
          ∧ lastModified r = lastModified newRecord.
Proof.
  intros HQ1 HQ2. revert newRecord p.
  induction targetKBs as [|kbName rest IH]; intros newRecord p HQ3;
    cbn [addToKnowledgeBases].
  - exists newRecord, p. split; [done|]. split; [reflexivity|done].
  - unfold bind at 1.
    match goal with |- context [tryCatch ?m ?h p] =>
      assert (Hbody : preserves (Frame Q) (tryCatch m h)
                      ∧ neverThrows (tryCatch m h)
                      ∧ returns (λ r, fileId r = fileId newRecord
                          ∧ uploadedFilename r = uploadedFilename newRecord
                          ∧ contentHash r = contentHash newRecord
                          ∧ lastModified r = lastModified newRecord)
                          (tryCatch m h));
      [|destruct Hbody as (Hfr & Htot & Hret);
        destruct (Htot p) as (r1 & p1 & E); rewrite E]
    end.
    { split; [|split].
      - repeat frame_step.
        + by apply getOrCreateKnowledgeBase_frame.
        + by apply addFileToKnowledgeBase_frame.
        + apply preserves_modify. apply Frame_withSyncStatus.
      - apply neverThrows_tryCatch. intros e.
        apply neverThrows_bind; [apply neverThrows_ret|intros; apply neverThrows_ret].
      - apply returns_tryCatch.
        + repeat (apply returns_bind; intros ?). apply returns_ret.
          by destruct (arrIncludes _ _).
        + intros e. apply returns_bind. intros _. by apply returns_ret. }
    destruct (Hret _ _ _ E) as (Hid & Hname & Hhash & Hmod).
    destruct (IH r1 p1) as (r & p' & Hrun & Hfr' & ? & ? & ? & ?).
    { intros kbId. rewrite Hid. apply HQ3. }
    exists r, p'. rewrite Hrun. split; [done|].
    split; [by etransitivity; [exact (Hfr _ _ _ E)|]|].
    repeat split; congruence.
Qed.

End MoreMethodFrames.

(** ** Requests *)

Lemma makeApiRequest_failure {A} c (reply : list Call → Reply A) p e :
  configured p → failureOf (reply (calls p)) = Some e →
  makeApiRequest c reply p = (Throw e, withCall c p).
Proof.
  intros [Hurl Htoken] Hfail. unfold makeApiRequest.
  rewrite Hurl, Htoken. cbn [negb orb].
  destruct (reply (calls p)) as [m|status text json]; cbn [failureOf] in Hfail.
  - congruence.
  - destruct (400 <=? status)%N; congruence.
Qed.

Lemma makeApiRequest_success {A} c (reply : list Call → Reply A) p
    status text json :
  configured p → reply (calls p) = Response status text json →
  (status < 400)%N →
  makeApiRequest c reply p = (Ok json, withCall c p).
Proof.
  intros [Hurl Htoken] Hreply Hstatus. unfold makeApiRequest.
  rewrite Hurl, Htoken, Hreply. cbn [negb orb].
  by destruct (N.leb_spec 400 status); [lia|].
Qed.

Lemma configured_frame (Q : Call → Prop) p p' :
  Frame Q p p' → configured p → configured p'.
Proof.
  intros Hfr [Hurl Htoken]. unfold configured.
  by rewrite (frame_url _ _ _ Hfr), (frame_token _ _ _ Hfr).
Qed.

Lemma dateNow_neverThrows host : neverThrows (dateNow host).
Proof. intros p. by eexists _, _. Qed.

Lemma findKnowledgeBaseByName_neverThrows host name :
  neverThrows (findKnowledgeBaseByName host name).
Proof.
  unfold findKnowledgeBaseByName.
  apply neverThrows_bind; [apply neverThrows_gets|]. intros cached.
  apply neverThrows_bind.
  - destruct cached; [|apply neverThrows_ret].
    apply neverThrows_bind; [apply dateNow_neverThrows|].
    intros now. apply neverThrows_ret.
  - intros [id|]; [apply neverThrows_ret|].
    apply neverThrows_tryCatch. intros e.
    apply neverThrows_bind; [apply neverThrows_ret|].
    intros _. apply neverThrows_ret.
Qed.

(** ** C5: resolve or create *)

(** C5, amended: when the name is not resolved and the create request
    fails, for whatever reason, [getOrCreateKnowledgeBase] throws that
    failure; the create request is the last one it sends. *)
Theorem getOrCreateKnowledgeBase_create_failure (host : Host)
    (name : jsstring) (p p1 : Plugin) (existing : option jsstring)
    (e : jsstring) :
  configured p →
  findKnowledgeBaseByName host name p = (Ok existing, p1) →
  from_option truthy false existing = false →
  failureOf (createReply (remote host) (calls p1) name) = Some e →
  getOrCreateKnowledgeBase host name p
  = (Throw e, withCall (CreateKnowledgeBase name) p1).
Proof.
  intros Hconf Hfind Hmiss Hfail.
  assert (Hconf1 : configured p1).
  { eapply (configured_frame (λ _, True)); [|exact Hconf].
    eapply findKnowledgeBaseByName_frame; [done|exact Hfind]. }
  assert (Hcreate : createKnowledgeBase host name p1
                    = (Throw e, withCall (CreateKnowledgeBase name) p1)).
  { unfold createKnowledgeBase, tryCatch. unfold bind at 1.
    rewrite (makeApiRequest_failure _ _ p1 e Hconf1 Hfail). done. }
  unfold getOrCreateKnowledgeBase, bind. rewrite Hfind.
  destruct existing as [id|]; simpl in Hmiss; [rewrite Hmiss|]; exact Hcreate.
Qed.

Lemma getOrCreateKnowledgeBase_create_failure_witness :
  getOrCreateKnowledgeBase (hostOf racingRemote []) (lit "Docs") freshPlugin
  = (Throw (lit "API request failed: 400 Knowledge base already exists"),
     withCall (CreateKnowledgeBase (lit "Docs"))
       (withCall ListKnowledgeBases freshPlugin)).
Proof.
  apply (getOrCreateKnowledgeBase_create_failure _ _ _ _ None).
  - split; reflexivity.
  - vm_compute. reflexivity.
  - reflexivity.
  - vm_compute. reflexivity.
Defined.

(** C5 as stated fails: the collection exists by the time of the create
    request, the request is refused, and the refusal is thrown although a
    second look at the list would find the collection. *)
Lemma getOrCreateKnowledgeBase_create_failure_counterexample :
  let run :=
    getOrCreateKnowledgeBase (hostOf racingRemote []) (lit "Docs") freshPlugin
  in
  run.1 = Throw (lit "API request failed: 400 Knowledge base already exists")
  ∧ calls run.2 = [ListKnowledgeBases; CreateKnowledgeBase (lit "Docs")]
  ∧ (findKnowledgeBaseByName (hostOf racingRemote []) (lit "Docs") run.2).1
    = Ok (Some (lit "kb-1")).
Proof. vm_compute. repeat split. Qed.

(** ** C7: not found on attach and on detach *)

Lemma isNotFoundMessage_404 (text : jsstring) :
  isNotFoundMessage
    (lit "API request failed: " ++ toString10 404 ++ lit " " ++ text) = true.
Proof.
  unfold isNotFoundMessage. apply andb_true_intro. split; [done|].
  change (toString10 404) with (lit "404").
  rewrite (includes_app (lit "404")). by rewrite orb_true_r.
Qed.

(** ** C6: the cache of collection ids *)

Section Cache.

Context (host : Host).

Lemma forEach_cacheSet (kbs : list KnowledgeBase) (p : Plugin) :
  forEach kbs (fun kb => cacheSet host (kb_name kb) (kb_id kb)) p
  = (Ok tt, cacheAll host kbs p).
Proof.
  revert p. induction kbs as [|kb kbs IH]; intros p; [done|].
  cbn [forEach cacheAll]. unfold bind at 1. unfold cacheSet at 1.
  unfold bind at 1, dateNow, modify. apply IH.
Qed.

Lemma cacheAll_ticks kbs p :
  ticks (cacheAll host kbs p) = (ticks p + length kbs)%nat.
Proof.
  revert p. induction kbs as [|kb kbs IH]; intros p; cbn [cacheAll length].
  - lia.
  - rewrite IH. simpl. lia.
Qed.

Lemma cacheAll_calls kbs p : calls (cacheAll host kbs p) = calls p.
Proof.
  revert p. induction kbs as [|kb kbs IH]; intros p; cbn [cacheAll]; [done|].
  by rewrite IH.
Qed.

Lemma cacheAll_lookup_other kbs p (n : jsstring) :
  n ∉ map kb_name kbs →
  kbCache (cacheAll host kbs p) !! n = kbCache p !! n.
Proof.
  revert p. induction kbs as [|kb kbs IH]; intros p Hn; cbn [cacheAll]; [done|].
  cbn [map] in Hn. apply not_elem_of_cons in Hn as [Hne Hn].
  rewrite IH by done. simpl. by rewrite lookup_insert_ne.
Qed.

(** After the loop every collection of the response has a cache entry under
    its name, stamped during the loop and holding the id of a collection of
    that name in the response. *)
Lemma cacheAll_lookup kbs p :
  ∀ kb : KnowledgeBase, kb ∈ kbs →
  ∃ entry i kb',
    kbCache (cacheAll host kbs p) !! kb_name kb = Some entry
    ∧ (ticks p ≤ i < ticks p + length kbs)%nat
    ∧ timestamp entry = clock host i
    ∧ kb' ∈ kbs ∧ kb_name kb' = kb_name kb ∧ cachedId entry = kb_id kb'.
Proof.
  revert p. induction kbs as [|kb0 kbs IH]; intros p kb Hin.
  - by apply elem_of_nil in Hin.
  - cbn [cacheAll].
    set (p1 := withKbCache _ (withTick p)).
    destruct (decide (kb_name kb ∈ map kb_name kbs)) as [Hlater|Hlast].
    + apply list_elem_of_fmap in Hlater as (kb1 & Hname & Hin1).
      destruct (IH p1 kb1 Hin1) as (entry & i & kb' & Hl & Hi & Ht & Hk & Hn & Hc).
      exists entry, i, kb'. rewrite Hname.
      split; [done|]. subst p1. simpl in Hi. simpl.
      split; [lia|]. split; [done|].
      split; [by apply list_elem_of_further|]. split; [congruence|done].
    + rewrite (cacheAll_lookup_other kbs p1 _ Hlast).
      apply elem_of_cons in Hin as [->|Hin].
      * subst p1. simpl. rewrite lookup_insert_eq.
        eexists _, (ticks p), kb0. split; [done|]. simpl.
        split; [lia|]. split; [done|]. split; [apply list_elem_of_here|done].
      * exfalso. apply Hlast. by apply list_elem_of_fmap_2.
Qed.

End Cache.

(** C6, amended.  A resolution that finds no usable cache entry for the
    name (none, or one as old as the time to live: both count the same)
    sends one list request; a successful response is cached whole, one
    entry per collection name it has.  If the name is among them, a second
    resolution within the time to live is answered from the cache and sends
    nothing: one list request in all. *)
Theorem findKnowledgeBaseByName_cache (host : Host) (name : jsstring)
    (p : Plugin) (status : N) (text : jsstring) (kbs : list KnowledgeBase) :
  configured p → cacheMiss host name p →
  listReply (remote host) (calls p) = Response status text (Some kbs) →
  (status < 400)%N →
  let p1 :=
    cacheAll host kbs (withCall ListKnowledgeBases (afterCacheCheck name p)) in
  findKnowledgeBaseByName host name p
  = (Ok (kb_id <$> List.find (fun kb => bool_decide (kb_name kb = name)) kbs),
     p1)
  ∧ calls p1 = calls p ++ [ListKnowledgeBases]
  ∧ (∀ kb, kb ∈ kbs →
       ∃ entry i kb',
         kbCache p1 !! kb_name kb = Some entry
         ∧ (ticks p ≤ i < ticks p1)%nat ∧ timestamp entry = clock host i
         ∧ kb' ∈ kbs ∧ kb_name kb' = kb_name kb ∧ cachedId entry = kb_id kb')
  ∧ (name ∈ map kb_name kbs →
     (∀ i j, (ticks p ≤ i ≤ j)%nat → (j ≤ ticks p1)%nat →
             clock host j - clock host i < KB_CACHE_TTL) →
     ∃ id, findKnowledgeBaseByName host name p1 = (Ok (Some id), withTick p1)
           ∧ calls (withTick p1) = calls p ++ [ListKnowledgeBases]).
Proof.
  intros Hconf Hmiss Hreply Hstatus.
  set (p0 := afterCacheCheck name p). intros p1.
  assert (Hcalls0 : calls p0 = calls p).
  { unfold p0, afterCacheCheck. by destruct (kbCache p !! name). }
  assert (Hticks0 : (ticks p ≤ ticks p0 ≤ S (ticks p))%nat).
  { unfold p0, afterCacheCheck. destruct (kbCache p !! name); simpl; lia. }
  assert (Hconf0 : configured p0).
  { unfold p0, afterCacheCheck. by destruct (kbCache p !! name). }
  assert (Hcalls1 : calls p1 = calls p ++ [ListKnowledgeBases]).
  { unfold p1. rewrite cacheAll_calls. simpl. by rewrite Hcalls0. }
  assert (Hticks1 : ticks p1 = (ticks p0 + length kbs)%nat).
  { unfold p1. by rewrite cacheAll_ticks. }
  assert (Hentries : ∀ kb, kb ∈ kbs →
            ∃ entry i kb',
              kbCache p1 !! kb_name kb = Some entry
              ∧ (ticks p ≤ i < ticks p1)%nat ∧ timestamp entry = clock host i
              ∧ kb' ∈ kbs ∧ kb_name kb' = kb_name kb
              ∧ cachedId entry = kb_id kb').
  { intros kb Hin.
    destruct (cacheAll_lookup host kbs
                (withCall ListKnowledgeBases p0) kb Hin)
      as (entry & i & kb' & Hl & Hi & Ht & Hk & Hn & Hc).
    exists entry, i, kb'. simpl in Hi. split; [exact Hl|].
    split; [lia|done]. }
  split; [|split; [exact Hcalls1|split; [exact Hentries|]]].
  - unfold findKnowledgeBaseByName. unfold bind at 1, gets.
    unfold cacheMiss in Hmiss. unfold bind at 1.
    assert (Hcheck :
      match kbCache p !! name with
      | Some entry =>
          let* now := dateNow host in
          ret (if now - timestamp entry <? KB_CACHE_TTL
               then Some (cachedId entry) else None)
      | None => ret None
      end p = (Ok None, p0)).
    { unfold p0, afterCacheCheck.
      destruct (kbCache p !! name) as [entry|]; [|done].
      unfold bind, dateNow, ret.
      by destruct (Z.ltb_spec (clock host (ticks p) - timestamp entry)
                     KB_CACHE_TTL); [lia|]. }
    rewrite Hcheck. unfold tryCatch. unfold bind at 1.
    rewrite (makeApiRequest_success _ _ p0 status text (Some kbs));
      [|done|by rewrite Hcalls0|done].
    unfold bind. by rewrite forEach_cacheSet.
  - intros Hname Hwindow.
    apply list_elem_of_fmap in Hname as (kb & -> & Hin).
    destruct (Hentries kb Hin) as (entry & i & kb' & Hl & Hi & Ht & _).
    exists (cachedId entry). split; [|exact Hcalls1].
    unfold findKnowledgeBaseByName. unfold bind at 1, gets. rewrite Hl.
    unfold bind, dateNow, ret. rewrite Ht.
    destruct (Z.ltb_spec (clock host (ticks p1) - clock host i) KB_CACHE_TTL)
      as [_|Hold]; [done|].
    specialize (Hwindow i (ticks p1)). lia.
Qed.

Lemma findKnowledgeBaseByName_cache_witness :
  let host := hostOf uploadDownRemote [] in
  let p1 := (findKnowledgeBaseByName host (lit "Notes") freshPlugin).2 in
  ∃ id, findKnowledgeBaseByName host (lit "Notes") p1
        = (Ok (Some id), withTick p1)
        ∧ calls (withTick p1) = calls freshPlugin ++ [ListKnowledgeBases].
Proof.
  intros host p1.
  destruct (findKnowledgeBaseByName_cache host (lit "Notes") freshPlugin
              200 []
              [{| kb_id := lit "kb-1"; kb_name := lit "Docs" |};
               {| kb_id := lit "kb-2"; kb_name := lit "Notes" |}])
    as (Hfirst & _ & _ & Hsecond).
  - split; reflexivity.
  - exact I.
  - reflexivity.
  - reflexivity.
  - unfold p1. rewrite Hfirst. cbn [snd]. apply Hsecond.
    + vm_compute. apply list_elem_of_further, list_elem_of_here.
    + intros i j Hij Hj. rewrite cacheAll_ticks in Hj.
      cbn in Hij, Hj. cbn [host hostOf clock]. unfold KB_CACHE_TTL.
      change (ticks (afterCacheCheck (lit "Notes") freshPlugin))
        with 0%nat in Hj.
      lia.
Defined.

(** C6 as stated fails: a name that the list response does not have is
    not cached, and the second resolution, a moment later, sends a second
    list request. *)
Lemma findKnowledgeBaseByName_cache_counterexample :
  let host := hostOf emptyRemote [] in
  let first := findKnowledgeBaseByName host (lit "Ghost") freshPlugin in
  let second := findKnowledgeBaseByName host (lit "Ghost") first.2 in
  first.1 = Ok None ∧ second.1 = Ok None
  ∧ calls second.2 = [ListKnowledgeBases; ListKnowledgeBases]
  ∧ clock host (ticks second.2) - clock host 0 < KB_CACHE_TTL.
Proof. vm_compute. repeat split. Qed.

(** ** Sorting the membership arrays *)

Lemma strLeb_total (a b : jsstring) : strLeb a b = false → strLeb b a = true.
Proof.
  revert b. induction a as [|x a IH]; intros [|y b]; cbn [strLeb]; try done.
  intros H. apply orb_false_elim in H as [Hlt H].
  apply N.ltb_ge in Hlt.
  destruct (N.ltb_spec y x) as [|Hle]; [done|]. cbn [orb].
  assert (x = y) as -> by lia. rewrite N.eqb_refl in *. cbn [andb] in *.
  by apply IH.
Qed.

Lemma strLeb_trans (a b c : jsstring) :
  strLeb a b = true → strLeb b c = true → strLeb a c = true.
Proof.
  revert b c. induction a as [|x a IH]; intros [|y b] [|z c];
    cbn [strLeb]; try done.
  intros H1 H2.
  apply orb_true_iff in H1 as [H1|H1]; apply orb_true_iff in H2 as [H2|H2];
    rewrite ?andb_true_iff, ?N.ltb_lt, ?N.eqb_eq in *.
  - apply orb_true_iff. left. apply N.ltb_lt. lia.
  - destruct H2 as [-> _]. apply orb_true_iff. left. by apply N.ltb_lt.
  - destruct H1 as [-> _]. apply orb_true_iff. left. by apply N.ltb_lt.
  - destruct H1 as [-> H1], H2 as [-> H2]. apply orb_true_iff. right.
    rewrite N.eqb_refl. cbn [andb]. by eapply IH.
Qed.

Lemma sortInsert_sorted x l : Sorted l → Sorted (sortInsert x l).
Proof.
  induction 1 as [|y|y z l Hyz Hs IH]; cbn [sortInsert].
  - constructor.
  - destruct (strLeb x y) eqn:E.
    + by repeat constructor.
    + constructor; [by apply strLeb_total|constructor].
  - destruct (strLeb x y) eqn:E.
    + by repeat constructor.
    + cbn [sortInsert] in IH. destruct (strLeb x z) eqn:E2.
      * constructor; [by apply strLeb_total|]. by constructor.
      * by constructor.
Qed.

Lemma jsSort_sorted l : Sorted (jsSort l).
Proof.
  induction l as [|x l IH]; cbn; [constructor|]. by apply sortInsert_sorted.
Qed.

Lemma jsSort_of_sorted l : Sorted l → jsSort l = l.
Proof.
  induction 1 as [|y|y z l Hyz Hs IH]; [done..|].
  change (jsSort (y :: z :: l)) with (sortInsert y (jsSort (z :: l))).
  rewrite IH. cbn [sortInsert]. by rewrite Hyz.
Qed.

Lemma jsSort_idempotent l : jsSort (jsSort l) = jsSort l.
Proof. apply jsSort_of_sorted, jsSort_sorted. Qed.

Lemma sortInsert_elem x y l : y ∈ sortInsert x l ↔ y = x ∨ y ∈ l.
Proof.
  induction l as [|z l IH]; cbn [sortInsert].
  - rewrite list_elem_of_singleton, elem_of_nil. tauto.
  - destruct (strLeb x z); [by rewrite elem_of_cons|].
    rewrite !elem_of_cons, IH. tauto.
Qed.

(** Sorting keeps the names. *)
Lemma jsSort_elem y l : y ∈ jsSort l ↔ y ∈ l.
Proof.
  induction l as [|x l IH]; [done|].
  change (jsSort (x :: l)) with (sortInsert x (jsSort l)).
  rewrite sortInsert_elem, IH, elem_of_cons. done.
Qed.

(** ** The first part of a reconciliation *)

Section Detect.

Context (host : Host).

Lemma detectChanges_eq file currentKBs config p :
  detectChanges host file currentKBs config p
  = match readOf host file config p with
    | Ok read =>
        (Ok (changesOf host file currentKBs p read),
         sortStored (normalizePath host (path file)) (afterClock host file p))
    | Throw e => (Throw e, afterClock host file p)
    end.
Proof.
  unfold detectChanges, readOf, changesOf, timeChangedOf, modifiedOf,
    afterClock, sortStored.
  unfold bind at 1.
  destruct (mtime file =? 0) eqn:Em.
  - unfold dateNow. unfold bind at 1, gets. cbn [settings withTick].
    destruct (fileMapping (settings p) !! normalizePath host (path file))
      as [r|]; cbn [from_option].
    + destruct (negb (lastModified r =? clock host (ticks p))).
      * unfold bind at 1, liftResult.
        by destruct (readAndHash host file config) as [read|e].
      * done.
    + unfold bind at 1, liftResult.
      by destruct (readAndHash host file config) as [read|e].
  - unfold ret at 1. unfold bind at 1, gets.
    destruct (fileMapping (settings p) !! normalizePath host (path file))
      as [r|]; cbn [from_option].
    + destruct (negb (lastModified r =? mtime file)).
      * unfold bind at 1, liftResult.
        by destruct (readAndHash host file config) as [read|e].
      * done.
    + unfold bind at 1, liftResult.
      by destruct (readAndHash host file config) as [read|e].
Qed.


End Detect.

(** ** C1: a document without changes *)

Lemma filter_none {A} (P : A → Prop) `{∀ x, Decision (P x)} (l : list A) :
  (∀ x, x ∈ l → ¬ P x) → filter P l = [].
Proof.
  intros Hl. destruct (filter P l) as [|x l'] eqn:E; [done|].
  assert (Hx : x ∈ filter P l) by (rewrite E; apply list_elem_of_here).
  apply list_elem_of_filter in Hx as [HP Hx]. by destruct (Hl x Hx).
Qed.

Section Unchanged.

Context (host : Host).

Lemma calls_detected (filePath : jsstring) file p :
  calls (sortStored filePath (afterClock host file p)) = calls p.
Proof. unfold afterClock. by destruct (mtime file =? 0). Qed.

Lemma fileMapping_detected (filePath : jsstring) file p :
  fileMapping (settings (sortStored filePath (afterClock host file p)))
  = fileMapping (settings p).
Proof. unfold afterClock. by destruct (mtime file =? 0). Qed.

Lemma syncState_detected (filePath : jsstring) file p :
  syncState (settings (sortStored filePath (afterClock host file p)))
  = alter jsSort filePath (syncState (settings p)).
Proof. unfold afterClock. by destruct (mtime file =? 0). Qed.

Lemma syncStatus_detected (filePath : jsstring) file p :
  syncStatus (sortStored filePath (afterClock host file p)) = syncStatus p.
Proof. unfold afterClock. by destruct (mtime file =? 0). Qed.

Lemma saved_detected (filePath : jsstring) file p :
  saved (sortStored filePath (afterClock host file p)) = saved p.
Proof. unfold afterClock. by destruct (mtime file =? 0). Qed.








End Unchanged.

(** ** The second part of a reconciliation, step by step *)

Section Apply.

Context (host : Host).

Lemma updateState_eq c newRecord p :
  updateState c newRecord p = (Ok tt, persisted c newRecord p).
Proof. reflexivity. Qed.

Lemma removeOutdated_neverThrows c : neverThrows (removeOutdated host c).
Proof.
  unfold removeOutdated. destruct (c_previousRecord c) as [r|];
    [|apply neverThrows_ret].
  destruct (c_contentChanged c).
  - unfold removeFileFromAllKnowledgeBases. apply neverThrows_bind.
    + apply neverThrows_forEach. intros kbName.
      apply neverThrows_tryCatch. intros e. apply neverThrows_ret.
    + intros _. apply neverThrows_tryCatch. intros e. apply neverThrows_ret.
  - apply neverThrows_forEach. intros kbName.
    apply neverThrows_tryCatch. intros e. apply neverThrows_ret.
Qed.

Lemma removeOutdated_frame c :
  preserves (Frame (removalCall c)) (removeOutdated host c).
Proof.
  unfold removeOutdated.
  destruct (c_previousRecord c) as [r|] eqn:Hrec; [|repeat frame_step].
  destruct (c_contentChanged c) eqn:Hcc.
  - apply removeFileFromAllKnowledgeBases_frame;
      unfold removalCall; rewrite ?Hrec; done.
  - repeat frame_step.
    + apply removeFileFromKnowledgeBase_frame;
        unfold removalCall; rewrite ?Hrec; done.
    + apply preserves_modify. apply Frame_withSyncStatus.
Qed.

(** How a run of the second part goes: the removals, which always return;
    then the upload step throws, or there is nothing to upload and the
    stored record is kept, or there is a new record, the loop over the
    target collections returns, and the state is written down. *)
Lemma applyChanges_run file c q r p :
  applyChanges host file c q = (r, p) →
  ∃ q1, removeOutdated host c q = (Ok tt, q1) ∧
    ((∃ e, uploadIfNeeded host file c q1 = (Throw e, p) ∧ r = Throw e)
     ∨ (∃ q2, uploadIfNeeded host file c q1 = (Ok None, q2)
              ∧ r = Ok tt ∧ p = persisted c None q2)
     ∨ (∃ r0 q2 r' q3,
          uploadIfNeeded host file c q1 = (Ok (Some r0), q2)
          ∧ addToKnowledgeBases host (targetKBs c) r0 q2 = (Ok r', q3)
          ∧ r = Ok tt ∧ p = persisted c (Some r') q3)).
Proof.
  unfold applyChanges. unfold bind at 1.
  destruct (removeOutdated_neverThrows c q) as ([] & q1 & ->).
  intros H. exists q1. split; [done|].
  unfold bind at 1 in H.
  destruct (uploadIfNeeded host file c q1) as [[[r0|]|e] q2].
  - right; right. unfold bind at 1 in H. unfold bind at 1 in H.
    destruct (addToKnowledgeBases_returns host (λ _, True)
                (targetKBs c) r0 q2) as (r' & q3 & Hrun & _); [done..|].
    rewrite Hrun in H. unfold ret at 1 in H.
    rewrite updateState_eq in H. injection H as <- <-.
    by exists r0, q2, r', q3.
  - right; left. unfold bind at 1, ret at 1 in H.
    rewrite updateState_eq in H. injection H as <- <-. by exists q2.
  - left. injection H as <- <-. by exists e.
Qed.

(** The upload step with a previous record and nothing to upload. *)
Lemma uploadIfNeeded_kept file c q :
  c_contentChanged c = false → kbsToAddTo c = [] →
  uploadIfNeeded host file c q
  = (Ok (fileMapping (settings q) !! c_filePath c), q).
Proof.
  intros Hcc Hadd. unfold uploadIfNeeded, kbsToUpdate. rewrite Hcc, Hadd.
  by rewrite !bool_decide_eq_true_2.
Qed.

(** The upload step when something is to be uploaded: it throws, or it has
    sent one request, the upload, and returns the record of the new
    document, without any collection yet. *)
Lemma uploadIfNeeded_upload file c q :
  c_contentChanged c = true ∨ kbsToAddTo c ≠ [] →
  let stableFilename := generateStableFilename (name file) (c_contentHash c) in
  (∃ e q', uploadIfNeeded host file c q = (Throw e, q')
           ∧ Frame (λ call, ∃ content, call = UploadFile stableFilename content)
               q q')
  ∨ (∃ content status text uploadedId,
       uploadReply (remote host) (calls q) stableFilename content
       = Response status text uploadedId
       ∧ (200 ≤ status ≤ 299)%N
       ∧ uploadIfNeeded host file c q
         = (Ok (Some {| fileId := uploadedId;
                        uploadedFilename := stableFilename;
                        contentHash := c_contentHash c;
                        lastModified := c_lastModified c;
                        knowledgeBases := [] |}),
            withCall (UploadFile stableFilename content) q)).
Proof.
  intros Hneeded stableFilename.
  destruct (uploadIfNeeded host file c q) as [res q'] eqn:E.
  unfold uploadIfNeeded in E.
  assert (c_contentChanged c || negb (bool_decide (kbsToAddTo c = []))
          || negb (bool_decide (kbsToUpdate c = [])) = true) as Hcond.
  { destruct Hneeded as [->|Hadd]; [done|].
    rewrite (bool_decide_eq_false_2 _ Hadd). cbn. by rewrite orb_true_r. }
  rewrite Hcond in E. clear Hcond.
  unfold tryCatch in E. unfold bind at 1 in E.
  destruct (if truthy (c_content c) then ret (c_content c)
            else liftResult (readAndProcess host file)) as [res0 q0] eqn:Ec.
  assert (q0 = q) as ->.
  { destruct (truthy (c_content c)); by injection Ec as _ <-. }
  destruct res0 as [content|e].
  - fold stableFilename in E. unfold bind at 1, uploadFile in E.
    destruct (uploadReply (remote host) (calls q) stableFilename content)
      as [e|status text uploadedId] eqn:Er.
    + left. injection E as <- <-. eexists _, _. split; [done|].
      apply Frame_withCall. by eexists.
    + destruct ((200 <=? status) && (status <=? 299))%N eqn:Eok.
      * right. exists content, status, text, uploadedId.
        apply andb_prop in Eok as [H1 H2].
        apply N.leb_le in H1, H2. injection E as <- <-.
        split; [done|]. split; [lia|done].
      * left.
        match type of E with context [if ?b then _ else _] => destruct b end;
          unfold bind, logged, ret, throw in E; injection E as <- <-;
          eexists _, _; (split; [done|]); apply Frame_withCall; by eexists.
  - left. unfold bind, logged, ret, throw in E. injection E as <- <-.
    eexists _, _. split; [done|]. reflexivity.
Qed.

End Apply.

Lemma settings_withSyncState_id (s : Settings) :
  withSyncState (λ _, syncState s) s = s.
Proof. by destruct s. Qed.

Section UnchangedDocument.

Context (host : Host).




End UnchangedDocument.

Section SecondRun.

Context (host : Host).







End SecondRun.

(** ** C3: a failed upload *)

Section UploadFailure.

Context (host : Host).

Lemma Frame_detected (Q : Call → Prop) (filePath : jsstring) file p :
  Frame Q p (sortStored filePath (afterClock host file p)).
Proof.
  split; try (unfold afterClock; by destruct (mtime file =? 0)).
  - intros k. rewrite syncState_detected.
    destruct (decide (k = filePath)) as [->|Hk].
    + rewrite lookup_alter_eq. destruct (_ !! _); cbn; [|done].
      by rewrite jsSort_idempotent.
    + by rewrite lookup_alter_ne.
  - intros k. rewrite fileMapping_detected. apply shrinksOpt_refl.
  - exists []. by rewrite calls_detected, app_nil_r.
  - unfold afterClock. destruct (mtime file =? 0); simpl; lia.
Qed.

Lemma Frame_afterClock (Q : Call → Prop) file p :
  Frame Q p (afterClock host file p).
Proof.
  unfold afterClock. destruct (mtime file =? 0); [apply Frame_withTick|].
  reflexivity.
Qed.

Lemma uploadIfNeeded_frame (Q : Call → Prop) file c :
  (∀ filename content, Q (UploadFile filename content)) →
  preserves (Frame Q) (uploadIfNeeded host file c).
Proof.
  intros HQ. unfold uploadIfNeeded. repeat frame_step.
  by apply uploadFile_frame.
Qed.

(** A reconciliation that throws has saved nothing; on the way it has at
    most sorted stored arrays and struck collections out of records. *)
Lemma syncFile_throw_frame file declared config p e p' :
  syncFileWithStateTracking host file declared config p = (Throw e, p') →
  Frame (λ _, True) p p'.
Proof.
  unfold syncFileWithStateTracking. unfold bind at 1.
  rewrite detectChanges_eq.
  destruct (readOf host file config p) as [read|e0].
  - destruct (_ && _); [done|]. intros Hrun.
    apply applyChanges_run in Hrun
      as (q1 & Hrem & [(e1 & Hup & _)|[(? & _ & [=] & _)
                                      |(? & ? & ? & ? & _ & _ & [=] & _)]]).
    etransitivity; [apply Frame_detected|].
    etransitivity.
    + eapply Frame_weaken; [|exact (removeOutdated_frame host _ _ _ _ Hrem)].
      done.
    + by eapply (uploadIfNeeded_frame (λ _, True)).
  - intros [= <- <-]. apply Frame_afterClock.
Qed.

(** Where no upload succeeds, a reconciliation that returns has not tried
    one. *)
Lemma syncFile_ok_no_upload file declared config p p' :
  uploadsFail host →
  syncFileWithStateTracking host file declared config p = (Ok tt, p') →
  ∃ new, calls p' = calls p ++ new ∧ Forall (λ call, ¬ isUpload call) new.
Proof.
  intros Hfail. unfold syncFileWithStateTracking. unfold bind at 1.
  rewrite detectChanges_eq.
  destruct (readOf host file config p) as [read|e0]; [|done].
  set (filePath := normalizePath host (path file)).
  set (c := changesOf host file declared p read).
  set (q0 := sortStored filePath (afterClock host file p)).
  assert (Hq0 : calls q0 = calls p) by apply calls_detected.
  destruct (_ && _).
  { intros [= <-]. exists []. by rewrite Hq0, app_nil_r. }
  intros Hrun. apply applyChanges_run in Hrun as (q1 & Hrem & Hrun).
  destruct (frame_calls _ _ _ (removeOutdated_frame host c _ _ _ Hrem))
    as (new1 & Hcalls1 & Hnew1).
  assert (Hnew1' : Forall (λ call, ¬ isUpload call) new1).
  { eapply Forall_impl; [exact Hnew1|]. intros call Hc.
    unfold removalCall in Hc. cbv beta. intros Hu.
    by destruct call, (c_previousRecord c). }
  assert (Hkept : ∀ nr q2,
            uploadIfNeeded host file c q1 = (Ok nr, q2) → q2 = q1).
  { intros nr q2 Hup.
    assert (Hno : ∀ Hneeded : c_contentChanged c = true ∨ kbsToAddTo c ≠ [],
              False).
    { intros Hneeded.
      destruct (uploadIfNeeded_upload host file c q1 Hneeded)
        as [(e & q' & Hthrow & _)
           |(content & status & text & id & Hreply & Hstatus & _)];
        [congruence|].
      specialize (Hfail (calls q1)
                    (generateStableFilename (name file) (c_contentHash c))
                    content).
      rewrite Hreply in Hfail. done. }
    destruct (c_contentChanged c) eqn:Hcc; [by destruct Hno; left|].
    destruct (decide (kbsToAddTo c = [])) as [Hnone|Hsome];
      [|by destruct Hno; right].
    rewrite (uploadIfNeeded_kept host file c q1 Hcc Hnone) in Hup.
    by injection Hup as _ <-. }
  destruct Hrun as [(e & _ & [=])|[(q2 & Hup & _ & ->)
                                  |(r0 & q2 & r' & q3 & Hup & Hadd & _ & ->)]].
  - rewrite (Hkept _ _ Hup). exists new1. cbn. by rewrite Hcalls1, Hq0.
  - rewrite (Hkept _ _ Hup) in Hadd.
    destruct (addToKnowledgeBases_returns host (λ call, ¬ isUpload call)
                (targetKBs c) r0 q1) as (r'' & q3' & Hadd' & Hfr & _);
      [by intros []|by intros ? []|by intros ? []|].
    rewrite Hadd in Hadd'. injection Hadd' as <- <-.
    destruct (frame_calls _ _ _ Hfr) as (new2 & Hcalls2 & Hnew2).
    exists (new1 ++ new2). cbn. rewrite Hcalls2, Hcalls1, Hq0, app_assoc.
    split; [done|]. by apply Forall_app.
Qed.

End UploadFailure.

(** C3, amended.  A reconciliation that is aborted, by a failed upload or
    otherwise, saves nothing and keeps the record of the document with its
    remote document id, its fingerprint and its modification time; its
    memberships can only have lost the collections from which the document
    was detached before the upload was tried, and the stored array of
    declared names keeps its names.  Where no upload succeeds, every
    reconciliation that gets to the upload is aborted: one that returns has
    sent no upload request. *)
Theorem upload_failure_aborts (host : Host) (file : TFile)
    (declared : list jsstring) (config : option SyncConfig) (p : Plugin) :
  let filePath := normalizePath host (path file) in
  (∀ e p' record,
     syncFileWithStateTracking host file declared config p = (Throw e, p') →
     fileMapping (settings p) !! filePath = Some record →
     ∃ record',
       fileMapping (settings p') !! filePath = Some record'
       ∧ fileId record' = fileId record
       ∧ contentHash record' = contentHash record
       ∧ lastModified record' = lastModified record
       ∧ uploadedFilename record' = uploadedFilename record
       ∧ sublist (knowledgeBases record') (knowledgeBases record)
       ∧ jsSort <$> (syncState (settings p') !! filePath)
         = jsSort <$> (syncState (settings p) !! filePath)
       ∧ saved p' = saved p)
  ∧ (uploadsFail host →
     ∀ p',
       syncFileWithStateTracking host file declared config p = (Ok tt, p') →
       ∃ new, calls p' = calls p ++ new
              ∧ Forall (λ call, ¬ isUpload call) new).
Proof.
  intros filePath. split.
  - intros e p' record Hrun Hrec.
    pose proof (syncFile_throw_frame host file declared config p e p' Hrun)
      as Hfr.
    pose proof (frame_fileMapping _ _ _ Hfr filePath) as Hshr.
    rewrite Hrec in Hshr.
    destruct (fileMapping (settings p') !! filePath) as [record'|]; [|done].
    destruct Hshr as (Hid & Hname & Hhash & Hmod & Hkbs).
    exists record'. repeat split; try done.
    + apply (frame_syncState _ _ _ Hfr).
    + apply (frame_saved _ _ _ Hfr).
  - intros Hfail p'. by apply syncFile_ok_no_upload.
Qed.

Lemma upload_failure_aborts_witness :
  let host := hostOf uploadDownRemote [noteFile] in
  let run :=
    syncFileWithStateTracking host noteFile [lit "Docs"] None trackedPlugin in
  ∃ record',
    fileMapping (settings run.2) !! lit "Note.md" = Some record'
    ∧ fileId record' = lit "file-0"
    ∧ contentHash record' = lit "1a2b3c4d".
Proof.
  intros host run.
  destruct (proj1 (upload_failure_aborts host noteFile [lit "Docs"] None
                     trackedPlugin)
              (lit "Upload failed: 500 Internal Server Error") run.2
              {| fileId := lit "file-0";
                 uploadedFilename := lit "Note_1a2b3c4d.md";
                 contentHash := lit "1a2b3c4d";
                 lastModified := 1699999000000;
                 knowledgeBases := [lit "Docs"] |})
    as (record' & Hrec & Hid & Hhash & _).
  - vm_compute. reflexivity.
  - vm_compute. reflexivity.
  - exists record'. by repeat split.
Defined.

(** C3 as stated fails: the content of the note has changed, the old
    upload is detached from "Docs" and deleted, the upload of the new
    content fails, and the record has lost its membership; so has the
    record that the pass saves at its end. *)
Lemma upload_failure_aborts_counterexample :
  let host := hostOf uploadDownRemote [noteFile] in
  let run :=
    syncFileWithStateTracking host noteFile [lit "Docs"] None trackedPlugin in
  let pass := syncToKnowledgeBase host trackedPlugin in
  knowledgeBases <$> (fileMapping (settings trackedPlugin) !! lit "Note.md")
  = Some [lit "Docs"]
  ∧ run.1 = Throw (lit "Upload failed: 500 Internal Server Error")
  ∧ knowledgeBases <$> (fileMapping (settings run.2) !! lit "Note.md")
    = Some []
  ∧ knowledgeBases <$> (fileMapping (saved pass.2) !! lit "Note.md")
    = Some [].
Proof. vm_compute. repeat split. Qed.

(** ** C2: a membership change without a content change *)

Section MembershipChange.

Context (host : Host).

Lemma readOf_same_fingerprint file config p record :
  fileMapping (settings p) !! normalizePath host (path file) = Some record →
  lastModified record = modifiedOf host file p
  ∨ (∃ content,
       readAndHash host file config = Ok (content, contentHash record)) →
  ∃ read, readOf host file config p = Ok read
          ∧ snd read = contentHash record.
Proof.
  intros Hrec Hsame. unfold readOf. rewrite Hrec. cbn [timeChangedOf].
  destruct (Z.eqb_spec (lastModified record) (modifiedOf host file p))
    as [Heq|Hne]; cbn [negb]; [by eexists|].
  destruct Hsame as [?|[content ->]]; [done|]. by eexists.
Qed.

Lemma contentChanged_readOf file config currentKBs p record read :
  fileMapping (settings p) !! normalizePath host (path file) = Some record →
  readOf host file config p = Ok read → snd read = contentHash record →
  c_contentChanged (changesOf host file currentKBs p read) = false.
Proof.
  intros Hrec Hread Hsnd. unfold changesOf. cbn. rewrite Hrec, Hsnd.
  rewrite bool_decide_eq_true_2 by done. apply andb_false_r.
Qed.

Lemma kbsToAddTo_none c :
  (∀ kb, kb ∈ c_currentKBs c → kb ∈ c_previousKBs c) → kbsToAddTo c = [].
Proof.
  intros Hall. apply filter_none. intros kb Hkb Hnot. by apply Hnot, Hall.
Qed.

Lemma kbsToAddTo_some c kb :
  kb ∈ c_currentKBs c → kb ∉ c_previousKBs c → kbsToAddTo c ≠ [].
Proof.
  intros Hin Hnot Hnil.
  assert (Hkb : kb ∈ kbsToAddTo c) by by apply list_elem_of_filter.
  rewrite Hnil in Hkb. by apply not_elem_of_nil in Hkb.
Qed.

Lemma removalCall_detach c record new :
  c_previousRecord c = Some record → c_contentChanged c = false →
  Forall (removalCall c) new → Forall (detachCall (fileId record)) new.
Proof.
  intros Hrec Hcc Hnew. eapply Forall_impl; [exact Hnew|].
  intros call. unfold removalCall.
  rewrite Hrec, Hcc. destruct call; cbn; try done. by intros [? _].
Qed.

End MembershipChange.


(** * Further properties *)

Local Open Scope N_scope.

(** ** The link rewriting, link by link *)

(** The code units that [encodeURIComponent] can put out for a string of
    code units: unreserved ones, '%' and hexadecimal digits; none of them is
    a bracket. *)
Lemma hexDigit_bracket (d : N) : d < 16 → hexDigit d ≠ 91 ∧ hexDigit d ≠ 93.
Proof. unfold hexDigit. destruct (N.ltb_spec d 10); lia. Qed.

Lemma pct_bracket (b : N) :
  b < 256 → Forall (λ c, c ≠ 91 ∧ c ≠ 93) (pct b).
Proof.
  intros Hb. unfold pct.
  assert (b / 16 < 16) by (apply N.Div0.div_lt_upper_bound; lia).
  assert (b mod 16 < 16) by (apply N.mod_lt; lia).
  repeat constructor; try lia; by apply hexDigit_bracket.
Qed.

Lemma utf8_octets (cp : N) : cp < 1114112 → Forall (λ b, b < 256) (utf8 cp).
Proof.
  intros Hcp. unfold utf8.
  destruct (N.ltb_spec cp 128); [repeat constructor; lia|].
  destruct (N.ltb_spec cp 2048).
  { assert (cp / 64 < 32) by (apply N.Div0.div_lt_upper_bound; lia).
    assert (cp mod 64 < 64) by (apply N.mod_lt; lia).
    repeat constructor; lia. }
  destruct (N.ltb_spec cp 65536).
  { assert (cp / 4096 < 16) by (apply N.Div0.div_lt_upper_bound; lia).
    assert ((cp / 64) mod 64 < 64) by (apply N.mod_lt; lia).
    assert (cp mod 64 < 64) by (apply N.mod_lt; lia).
    repeat constructor; lia. }
  assert (cp / 262144 < 5) by (apply N.Div0.div_lt_upper_bound; lia).
  assert ((cp / 4096) mod 64 < 64) by (apply N.mod_lt; lia).
  assert ((cp / 64) mod 64 < 64) by (apply N.mod_lt; lia).
  assert (cp mod 64 < 64) by (apply N.mod_lt; lia).
  repeat constructor; lia.
Qed.

Lemma escapeCodePoint_bracket (cp : N) :
  cp < 1114112 → Forall (λ c, c ≠ 91 ∧ c ≠ 93) (escapeCodePoint cp).
Proof.
  intros Hcp. unfold escapeCodePoint.
  pose proof (utf8_octets cp Hcp) as Hoct.
  induction Hoct as [|b l Hb _ IH]; cbn [map concat]; [constructor|].
  apply Forall_app. split; [by apply pct_bracket|exact IH].
Qed.

Lemma isUnreserved_bracket (c : N) :
  isUnreserved c = true → c ≠ 91 ∧ c ≠ 93.
Proof.
  intros Hc. split; intros ->; vm_compute in Hc; discriminate.
Qed.

Lemma encodeFrom_bracket (s : jsstring) :
  Forall (λ c, c < 65536) s →
  ∀ hi r,
    match hi with Some h => isHighSurrogate h = true | None => True end →
    encodeFrom hi s = Some r → Forall (λ c, c ≠ 91 ∧ c ≠ 93) r.
Proof.
  induction 1 as [|c s Hc _ IH]; intros hi r Hhi; cbn [encodeFrom].
  - destruct hi; [done|]. by intros [= <-].
  - destruct hi as [h|].
    + destruct (isLowSurrogate c) eqn:Elow; [|done].
      destruct (encodeFrom None s) as [r'|] eqn:Er; [|done].
      cbn. intros [= <-]. apply Forall_app. split; [|exact (IH None r' I Er)].
      apply escapeCodePoint_bracket.
      apply inRange_spec in Hhi, Elow. lia.
    + destruct (isUnreserved c) eqn:Eun.
      { destruct (encodeFrom None s) as [r'|] eqn:Er; [|done].
        cbn. intros [= <-]. constructor; [|exact (IH None r' I Er)].
        by apply isUnreserved_bracket. }
      destruct (isLowSurrogate c); [done|].
      destruct (isHighSurrogate c) eqn:Ehigh; [exact (IH (Some c) r Ehigh)|].
      destruct (encodeFrom None s) as [r'|] eqn:Er; [|done].
      cbn. intros [= <-]. apply Forall_app. split; [|exact (IH None r' I Er)].
      apply escapeCodePoint_bracket. lia.
Qed.

Lemma encodeURIComponent_bracket (s r : jsstring) :
  Forall (λ c, c < 65536) s → encodeURIComponent s = Some r →
  Forall (λ c, c ≠ 91) r.
Proof.
  intros Hs Hr.
  eapply Forall_impl; [exact (encodeFrom_bracket s Hs None r I Hr)|].
  by intros c [? _].
Qed.

(** The segments of a split are made of code units of the string. *)
Lemma split_Forall (P : N → Prop) (sep : N) (s : jsstring) :
  Forall P s → Forall (Forall P) (split sep s).
Proof.
  induction 1 as [|c s Hc _ IH]; cbn [split]; [by repeat constructor|].
  destruct (c =? sep); [by repeat constructor|].
  destruct (split sep s) as [|w ws]; [by repeat constructor|].
  inversion IH; subst. by repeat constructor.
Qed.

Lemma pop_Forall (P : N → Prop) (parts : list jsstring) :
  Forall (Forall P) parts → Forall P (pop parts).
Proof.
  unfold pop. induction 1 as [|w ws Hw Hws IH]; [constructor|].
  destruct ws; [exact Hw|exact IH].
Qed.

Lemma linkDisplayText_Forall (P : N → Prop) (filePath : jsstring) :
  Forall P filePath → Forall P (linkDisplayText filePath).
Proof.
  intros H. unfold linkDisplayText, orElse.
  pose proof (pop_Forall P _ (split_Forall P 47 _ H)) as Hpop.
  by destruct (pop (split 47 filePath)).
Qed.

(** A text without '[' has no "[[", and neither has one with a single
    '['. *)
Lemma includes_open_none (a : jsstring) :
  Forall (λ c, c ≠ 91) a → includes (lit "[[") a = false.
Proof.
  induction 1 as [|c a Hc _ IH]; [done|].
  cbn [includes]. rewrite IH, orb_false_r.
  change (lit "[[") with [91; 91]. cbn [startsWith].
  apply N.eqb_neq in Hc. rewrite N.eqb_sym in Hc. by rewrite Hc.
Qed.

Lemma includes_open_single (a b : jsstring) :
  Forall (λ c, c ≠ 91) a → Forall (λ c, c ≠ 91) b →
  includes (lit "[[") (a ++ 91 :: b) = false.
Proof.
  intros Ha Hb. induction Ha as [|c a Hc _ IH]; cbn [app includes].
  - rewrite (includes_open_none b Hb), orb_false_r.
    change (lit "[[") with [91; 91]. cbn [startsWith].
    destruct Hb as [|d b Hd _]; [done|].
    apply N.eqb_neq in Hd. rewrite N.eqb_sym in Hd.
    by rewrite Hd, andb_false_r.
  - rewrite IH, orb_false_r.
    change (lit "[[") with [91; 91]. cbn [startsWith].
    apply N.eqb_neq in Hc. rewrite N.eqb_sym in Hc. by rewrite Hc.
Qed.

(** *** One pass of [replace] *)

Lemma replaceFrom_skip re callback (k : nat) (s : jsstring) :
  replaceFrom re callback k s = replaceFrom re callback 0 (drop k s).
Proof.
  revert k. induction s as [|c s IH]; intros [|k]; try done.
  cbn [replaceFrom drop]. apply IH.
Qed.

(** A stretch in which the expression does not match is copied. *)
Lemma replaceFrom_prefix re callback (pre s : jsstring) :
  (∀ a b, pre = a ++ b → b ≠ [] → re (b ++ s) = None) →
  replaceFrom re callback 0 (pre ++ s)
  = app pre <$> replaceFrom re callback 0 s.
Proof.
  induction pre as [|c pre IH]; intros Hpre.
  - cbn [app]. by destruct (replaceFrom re callback 0 s).
  - assert (Hhead : re (c :: pre ++ s) = None)
      by by apply (Hpre [] (c :: pre)).
    cbn [app replaceFrom]. rewrite Hhead, IH.
    + by destruct (replaceFrom re callback 0 s).
    + intros a b -> Hb. by apply (Hpre (c :: a) b).
Qed.

(** A match at the head is replaced, and the pass goes on behind it. *)
Lemma replaceFrom_head re callback (s : jsstring) len groups r :
  s ≠ [] → re s = Some (len, groups) → callback groups = Some r →
  replaceFrom re callback 0 s
  = app r <$> replaceFrom re callback 0 (drop (len - 1) (tail s)).
Proof.
  destruct s as [|c s]; [done|]. intros _ Hre Hcb.
  cbn [replaceFrom tail]. rewrite Hre. cbn. rewrite Hcb. cbn.
  by rewrite replaceFrom_skip.
Qed.

(** The three expressions start with "[[" or "![[": they do not match in a
    stretch without '['. *)
Lemma matchPipedLink_open (s : jsstring) :
  is_Some (matchPipedLink s) → ∃ r, s = 91 :: 91 :: r.
Proof.
  unfold matchPipedLink. intros H.
  destruct (startsWith (lit "[[") s) eqn:E; [|by destruct H].
  apply startsWith_inv in E as [r ->]. by exists r.
Qed.

Lemma matchLink_open (s : jsstring) :
  is_Some (matchLink s) → ∃ r, s = 91 :: 91 :: r.
Proof.
  unfold matchLink. intros H.
  destruct (startsWith (lit "[[") s) eqn:E; [|by destruct H].
  apply startsWith_inv in E as [r ->]. by exists r.
Qed.

Lemma no_match_in_prefix (re : jsstring → option Match) (pre s : jsstring) :
  (∀ t, is_Some (re t) → ∃ r, t = 91 :: 91 :: r) →
  Forall (λ c, c ≠ 91) pre →
  ∀ a b, pre = a ++ b → b ≠ [] → re (b ++ s) = None.
Proof.
  intros Hre Hpre a b -> Hb.
  destruct (re (b ++ s)) eqn:E; [|done].
  destruct (Hre (b ++ s)) as [r Hr]; [by rewrite E|].
  apply Forall_app in Hpre as [_ Hb'].
  destruct b as [|c b]; [done|]. inversion Hb'; subst.
  cbn in Hr. congruence.
Qed.

(** The text behind the bracket that opens a link. *)
Lemma tail_no_open (t post : jsstring) :
  Forall (λ c, c ≠ 91) t → Forall (λ c, c ≠ 91) post →
  Forall (λ c, c ≠ 91) (t ++ lit "]]" ++ post).
Proof.
  intros Ht Hpost. apply Forall_app. split; [done|].
  apply Forall_app. split; [|done]. by repeat constructor.
Qed.

(** *** The three passes over a text with one link *)

Ltac literal_free := apply (bool_decide_unpack _); vm_compute; exact I.

Lemma matchPipedLink_no_bar (target post : jsstring) :
  target ≠ [] → Forall (λ c, c ≠ 93 ∧ c ≠ 124) target →
  matchPipedLink (lit "[[" ++ target ++ lit "]]" ++ post) = None.
Proof.
  intros Hne Ht. unfold matchPipedLink. rewrite startsWith_app.
  change (lit "[[") with [91; 91]. change (lit "]]") with [93; 93].
  cbn [app skipn]. rewrite drop_0.
  rewrite (span_app notBracketPipe target (93 :: 93 :: post)); [|..|done].
  - by destruct target.
  - eapply Forall_impl; [exact Ht|]. intros c [H1 H2]. unfold notBracketPipe.
    apply N.eqb_neq in H1, H2. by rewrite H1, H2.
Qed.

Lemma matchLink_link (target post : jsstring) :
  target ≠ [] → Forall (λ c, c ≠ 93) target →
  matchLink (lit "[[" ++ target ++ lit "]]" ++ post)
  = Some ((2 + length target + 2)%nat, [target]).
Proof.
  intros Hne Ht. unfold matchLink. rewrite startsWith_app.
  change (lit "[[") with [91; 91]. change (lit "]]") with [93; 93].
  cbn [app skipn]. rewrite drop_0.
  rewrite (span_app notBracket target (93 :: 93 :: post)); [|..|done].
  - by destruct target.
  - eapply Forall_impl; [exact Ht|]. intros c H. unfold notBracket.
    apply N.eqb_neq in H. by rewrite H.
Qed.

Lemma matchPipedLink_link (target display post : jsstring) :
  target ≠ [] → Forall (λ c, c ≠ 93 ∧ c ≠ 124) target →
  display ≠ [] → Forall (λ c, c ≠ 93) display →
  matchPipedLink (lit "[[" ++ target ++ lit "|" ++ display ++ lit "]]" ++ post)
  = Some ((2 + length target + 1 + length display + 2)%nat,
          [target; display]).
Proof.
  intros Hne Ht Hned Hd. unfold matchPipedLink. rewrite startsWith_app.
  change (lit "[[") with [91; 91]. change (lit "]]") with [93; 93].
  change (lit "|") with [124].
  cbn [app skipn]. rewrite drop_0.
  rewrite (span_app notBracketPipe target (124 :: display ++ 93 :: 93 :: post));
    [|..|done].
  - rewrite (span_app notBracket display (93 :: 93 :: post)); [|..|done].
    + by destruct target, display.
    + eapply Forall_impl; [exact Hd|]. intros c H. unfold notBracket.
      apply N.eqb_neq in H. by rewrite H.
  - eapply Forall_impl; [exact Ht|]. intros c [H1 H2]. unfold notBracketPipe.
    apply N.eqb_neq in H1, H2. by rewrite H1, H2.
Qed.

(** A pass over a text that has "[[" nowhere. *)
Lemma replaceAll_single_open re callback (a b : jsstring) :
  (∀ t, is_Some (re t) → includes (lit "[[") t = true) →
  Forall (λ c, c ≠ 91) a → Forall (λ c, c ≠ 91) b →
  replaceAll re callback (a ++ 91 :: b) = Some (a ++ 91 :: b).
Proof.
  intros Hre Ha Hb. apply replaceFrom_no_match; [exact Hre|].
  by apply includes_open_single.
Qed.

Lemma replaceFrom_step re callback (c : N) (s : jsstring) :
  re (c :: s) = None →
  replaceFrom re callback 0 (c :: s)
  = cons c <$> replaceFrom re callback 0 s.
Proof. intros H. cbn [replaceFrom]. by rewrite H. Qed.

(** The pass of the expression for piped links over a text whose only link
    has no bar. *)
Lemma pipedPass_link callback (pre target post : jsstring) :
  Forall (λ c, c ≠ 91) pre → Forall (λ c, c ≠ 91) post →
  target ≠ [] → Forall (λ c, c ≠ 91 ∧ c ≠ 93 ∧ c ≠ 124) target →
  replaceAll matchPipedLink callback
    (pre ++ lit "[[" ++ target ++ lit "]]" ++ post)
  = Some (pre ++ lit "[[" ++ target ++ lit "]]" ++ post).
Proof.
  intros Hpre Hpost Hne Ht. unfold replaceAll.
  rewrite replaceFrom_prefix
    by (apply no_match_in_prefix; [apply matchPipedLink_open|done]).
  assert (Hhead : matchPipedLink (lit "[[" ++ target ++ lit "]]" ++ post)
                  = None).
  { apply matchPipedLink_no_bar; [done|].
    eapply Forall_impl; [exact Ht|]. by intros c (_ & ? & ?). }
  assert (Ht' : Forall (λ c, c ≠ 91) target).
  { eapply Forall_impl; [exact Ht|]. by intros c (? & _). }
  change (lit "[[") with [91; 91] in *. cbn [app] in *.
  rewrite (replaceFrom_step _ _ _ _ Hhead).
  rewrite (replaceFrom_no_match matchPipedLink callback
             (91 :: target ++ lit "]]" ++ post) matchPipedLink_starts).
  - done.
  - apply (includes_open_single [] (target ++ lit "]]" ++ post));
      [constructor|by apply tail_no_open].
Qed.

(** The pass of an expression over a text whose only "[[" starts a match
    of that expression. *)
Lemma replaceAll_one_match re callback (pre x post r : jsstring) groups :
  (∀ t, is_Some (re t) → ∃ u, t = 91 :: 91 :: u) →
  (∀ t, is_Some (re t) → includes (lit "[[") t = true) →
  Forall (λ c, c ≠ 91) pre → Forall (λ c, c ≠ 91) post →
  x ≠ [] → re (x ++ post) = Some (length x, groups) →
  callback groups = Some r →
  replaceAll re callback (pre ++ x ++ post) = Some (pre ++ r ++ post).
Proof.
  intros Hopen Hstarts Hpre Hpost Hx Hre Hcb. unfold replaceAll.
  rewrite replaceFrom_prefix by by apply no_match_in_prefix.
  rewrite (replaceFrom_head re callback (x ++ post) (length x) groups r);
    [|by destruct x|done..].
  assert (drop (length x - 1) (tail (x ++ post)) = post) as ->.
  { destruct x as [|c x]; [done|]. cbn [app tail length].
    rewrite Nat.sub_succ, Nat.sub_0_r. by rewrite drop_app_length. }
  rewrite (replaceFrom_no_match re callback post Hstarts)
    by by apply includes_open_none.
  done.
Qed.

(** What the callbacks put in the place of a link has one '[', its
    first code unit. *)
Lemma link_text_single_open (display vaultName encodedVault filePath
    encodedFile post : jsstring) :
  Forall (λ c, c ≠ 91) display → Forall (λ c, c ≠ 91) post →
  Forall (λ c, c < 65536) vaultName → Forall (λ c, c < 65536) filePath →
  encodeURIComponent vaultName = Some encodedVault →
  encodeURIComponent filePath = Some encodedFile →
  Forall (λ c, c ≠ 91)
    (display ++ lit "](" ++ obsidianUri encodedVault encodedFile
     ++ lit ")" ++ post).
Proof.
  intros Hd Hpost Hv Hf Hev Hef. unfold obsidianUri.
  repeat (apply Forall_app; split); try done; try literal_free.
  - exact (encodeURIComponent_bracket _ _ Hv Hev).
  - exact (encodeURIComponent_bracket _ _ Hf Hef).
Qed.

Lemma finalPath_codeUnits (filePath : jsstring) :
  Forall (λ c, c < 65536) filePath → Forall (λ c, c < 65536) (finalPath filePath).
Proof.
  intros H. unfold finalPath. destruct (includes _ _); [done|].
  apply Forall_app. split; [done|]. literal_free.
Qed.

Lemma wiki_link_passes (pre target post vaultName encodedVault encodedFile
    : jsstring) :
  Forall (λ c, c ≠ 91) pre → Forall (λ c, c ≠ 91) post →
  target ≠ [] → Forall (λ c, c ≠ 91 ∧ c ≠ 93 ∧ c ≠ 124) target →
  Forall (λ c, c < 65536) vaultName → Forall (λ c, c < 65536) target →
  encodeURIComponent vaultName = Some encodedVault →
  encodeURIComponent (finalPath target) = Some encodedFile →
  (c1 ← replaceAll matchPipedLink (pipedLinkCallback encodedVault)
          (pre ++ lit "[[" ++ target ++ lit "]]" ++ post);
   c2 ← replaceAll matchLink (linkCallback encodedVault) c1;
   replaceAll matchEmbed (embedCallback encodedVault) c2)
  = Some (pre ++ lit "[" ++ linkDisplayText target ++ lit "]("
          ++ obsidianUri encodedVault encodedFile ++ lit ")" ++ post).
Proof.
  intros Hpre Hpost Hne Ht Hv Hcu Hev Hef.
  assert (Ht91 : Forall (λ c, c ≠ 91) target).
  { eapply Forall_impl; [exact Ht|]. by intros c (? & _). }
  assert (Ht93 : Forall (λ c, c ≠ 93) target).
  { eapply Forall_impl; [exact Ht|]. by intros c (_ & ? & _). }
  rewrite pipedPass_link by done. cbn [mbind option_bind].
  pose (x := lit "[[" ++ target ++ lit "]]").
  pose (r := lit "[" ++ linkDisplayText target ++ lit "]("
             ++ obsidianUri encodedVault encodedFile ++ lit ")").
  assert (Hlen : length x = (2 + length target + 2)%nat).
  { unfold x. rewrite !length_app.
    change (length (lit "[[")) with 2%nat.
    change (length (lit "]]")) with 2%nat.
    try change (length (lit "|")) with 1%nat. lia. }
  assert (Hpass : replaceAll matchLink (linkCallback encodedVault)
                    (pre ++ x ++ post) = Some (pre ++ r ++ post)).
  { apply (replaceAll_one_match matchLink _ pre x post r [target]);
      try done.
    - apply matchLink_open.
    - apply matchLink_starts.
    - rewrite Hlen. unfold x. rewrite <- !app_assoc.
      by apply matchLink_link.
    - unfold linkCallback. rewrite Hef. done. }
  unfold x in Hpass. rewrite <- !app_assoc in Hpass. rewrite Hpass.
  cbn [mbind option_bind]. unfold r. rewrite <- !app_assoc.
  change (lit "[") with [91]. cbn [app].
  apply replaceAll_single_open; [apply matchEmbed_starts|done|].
  apply (link_text_single_open _ vaultName _ (finalPath target)); try done.
  - by apply linkDisplayText_Forall.
  - by apply finalPath_codeUnits.
Qed.

Lemma piped_link_passes (pre target display post vaultName encodedVault
    encodedFile : jsstring) :
  Forall (λ c, c ≠ 91) pre → Forall (λ c, c ≠ 91) post →
  target ≠ [] → Forall (λ c, c ≠ 93 ∧ c ≠ 124) target →
  display ≠ [] → Forall (λ c, c ≠ 91 ∧ c ≠ 93) display →
  Forall (λ c, c < 65536) vaultName → Forall (λ c, c < 65536) target →
  encodeURIComponent vaultName = Some encodedVault →
  encodeURIComponent (finalPath target) = Some encodedFile →
  (c1 ← replaceAll matchPipedLink (pipedLinkCallback encodedVault)
          (pre ++ lit "[[" ++ target ++ lit "|" ++ display ++ lit "]]" ++ post);
   c2 ← replaceAll matchLink (linkCallback encodedVault) c1;
   replaceAll matchEmbed (embedCallback encodedVault) c2)
  = Some (pre ++ lit "[" ++ display ++ lit "]("
          ++ obsidianUri encodedVault encodedFile ++ lit ")" ++ post).
Proof.
  intros Hpre Hpost Hne Ht Hned Hd Hv Hcu Hev Hef.
  assert (Hd91 : Forall (λ c, c ≠ 91) display).
  { eapply Forall_impl; [exact Hd|]. by intros c (? & _). }
  assert (Hd93 : Forall (λ c, c ≠ 93) display).
  { eapply Forall_impl; [exact Hd|]. by intros c (_ & ?). }
  pose (x := lit "[[" ++ target ++ lit "|" ++ display ++ lit "]]").
  pose (r := lit "[" ++ display ++ lit "]("
             ++ obsidianUri encodedVault encodedFile ++ lit ")").
  assert (Hlen : length x
                 = (2 + length target + 1 + length display + 2)%nat).
  { unfold x. rewrite !length_app.
    change (length (lit "[[")) with 2%nat.
    change (length (lit "]]")) with 2%nat.
    try change (length (lit "|")) with 1%nat. lia. }
  assert (Hpass : replaceAll matchPipedLink (pipedLinkCallback encodedVault)
                    (pre ++ x ++ post) = Some (pre ++ r ++ post)).
  { apply (replaceAll_one_match matchPipedLink _ pre x post r
             [target; display]); try done.
    - apply matchPipedLink_open.
    - apply matchPipedLink_starts.
    - rewrite Hlen. unfold x. rewrite <- !app_assoc.
      by apply matchPipedLink_link.
    - unfold pipedLinkCallback. rewrite Hef. done. }
  unfold x in Hpass. rewrite <- !app_assoc in Hpass. rewrite Hpass.
  cbn [mbind option_bind]. unfold r. rewrite <- !app_assoc.
  change (lit "[") with [91]. cbn [app].
  assert (Hrest : Forall (λ c, c ≠ 91)
                    (display ++ lit "](" ++ obsidianUri encodedVault encodedFile
                     ++ lit ")" ++ post)).
  { apply (link_text_single_open _ vaultName _ (finalPath target));
      try done.
    by apply finalPath_codeUnits. }
  rewrite (replaceAll_single_open matchLink _ pre _ matchLink_starts Hpre Hrest).
  cbn [mbind option_bind].
  by apply replaceAll_single_open; [apply matchEmbed_starts|..].
Qed.

(** A wiki link [[[target]]] in a text without other brackets becomes a
    markdown link to the Obsidian URI of the target: the text shown is the
    last segment of the target's path, and ".md" is added to a target
    without a dot. *)
Theorem processObsidianLinks_wiki_link (pre target post vaultName
    encodedVault encodedFile : jsstring) :
  Forall (λ c, c ≠ 91) pre → Forall (λ c, c ≠ 91) post →
  target ≠ [] → Forall (λ c, c ≠ 91 ∧ c ≠ 93 ∧ c ≠ 124) target →
  Forall (λ c, c < 65536) vaultName → Forall (λ c, c < 65536) target →
  encodeURIComponent vaultName = Some encodedVault →
  encodeURIComponent (finalPath target) = Some encodedFile →
  processObsidianLinks (pre ++ lit "[[" ++ target ++ lit "]]" ++ post)
    vaultName
  = Some (pre ++ lit "[" ++ linkDisplayText target
          ++ lit "](obsidian://open?vault=" ++ encodedVault
          ++ lit "&file=" ++ encodedFile ++ lit ")" ++ post).
Proof.
  intros Hpre Hpost Hne Ht Hv Hcu Hev Hef.
  unfold processObsidianLinks. rewrite Hev. cbn [mbind option_bind].
  rewrite (wiki_link_passes pre target post vaultName encodedVault
             encodedFile) by done.
  unfold obsidianUri. f_equal. by rewrite <- !app_assoc.
Qed.

Lemma processObsidianLinks_wiki_link_witness :
  processObsidianLinks (lit "See [[Projects/Plan]] for more.") (lit "My Vault")
  = Some (lit "See [Plan](obsidian://open?vault=My%20Vault&file=Projects%2FPlan.md) for more.").
Proof.
  apply (processObsidianLinks_wiki_link (lit "See ") (lit "Projects/Plan")
           (lit " for more.") (lit "My Vault") (lit "My%20Vault")
           (lit "Projects%2FPlan.md")).
  - literal_free.
  - literal_free.
  - done.
  - literal_free.
  - literal_free.
  - literal_free.
  - vm_compute. reflexivity.
  - vm_compute. reflexivity.
Defined.

(** A piped link [[[target|text]]] in a text without other brackets becomes
    a markdown link with that text. *)
Theorem processObsidianLinks_piped_link (pre target display post vaultName
    encodedVault encodedFile : jsstring) :
  Forall (λ c, c ≠ 91) pre → Forall (λ c, c ≠ 91) post →
  target ≠ [] → Forall (λ c, c ≠ 93 ∧ c ≠ 124) target →
  display ≠ [] → Forall (λ c, c ≠ 91 ∧ c ≠ 93) display →
  Forall (λ c, c < 65536) vaultName → Forall (λ c, c < 65536) target →
  encodeURIComponent vaultName = Some encodedVault →
  encodeURIComponent (finalPath target) = Some encodedFile →
  processObsidianLinks
    (pre ++ lit "[[" ++ target ++ lit "|" ++ display ++ lit "]]" ++ post)
    vaultName
  = Some (pre ++ lit "[" ++ display
          ++ lit "](obsidian://open?vault=" ++ encodedVault
          ++ lit "&file=" ++ encodedFile ++ lit ")" ++ post).
Proof.
  intros Hpre Hpost Hne Ht Hned Hd Hv Hcu Hev Hef.
  unfold processObsidianLinks. rewrite Hev. cbn [mbind option_bind].
  rewrite (piped_link_passes pre target display post vaultName encodedVault
             encodedFile) by done.
  unfold obsidianUri. f_equal. by rewrite <- !app_assoc.
Qed.

Lemma processObsidianLinks_piped_link_witness :
  processObsidianLinks (lit "See [[Projects/Plan.md|the plan]].") (lit "V")
  = Some (lit "See [the plan](obsidian://open?vault=V&file=Projects%2FPlan.md).").
Proof.
  apply (processObsidianLinks_piped_link (lit "See ") (lit "Projects/Plan.md")
           (lit "the plan") (lit ".") (lit "V") (lit "V")
           (lit "Projects%2FPlan.md")).
  - literal_free.
  - literal_free.
  - done.
  - literal_free.
  - done.
  - literal_free.
  - literal_free.
  - literal_free.
  - vm_compute. reflexivity.
  - vm_compute. reflexivity.
Defined.

(** An embed [![[target]]] is rewritten by the pass for plain links, which
    runs before the pass for embeds: it becomes '!' followed by the
    markdown link of the target (".md" added to a target without a dot),
    and not the "*Embedded: ...*" text of the callback for embeds. *)
Theorem processObsidianLinks_embed (pre target post vaultName
    encodedVault encodedFile : jsstring) :
  Forall (λ c, c ≠ 91) pre → Forall (λ c, c ≠ 91) post →
  target ≠ [] → Forall (λ c, c ≠ 91 ∧ c ≠ 93 ∧ c ≠ 124) target →
  Forall (λ c, c < 65536) vaultName → Forall (λ c, c < 65536) target →
  encodeURIComponent vaultName = Some encodedVault →
  encodeURIComponent (finalPath target) = Some encodedFile →
  processObsidianLinks (pre ++ lit "![[" ++ target ++ lit "]]" ++ post)
    vaultName
  = Some (pre ++ lit "![" ++ linkDisplayText target
          ++ lit "](obsidian://open?vault=" ++ encodedVault
          ++ lit "&file=" ++ encodedFile ++ lit ")" ++ post).
Proof.
  intros Hpre Hpost Hne Ht Hv Hcu Hev Hef.
  unfold processObsidianLinks. rewrite Hev. cbn [mbind option_bind].
  assert (Hbang : Forall (λ c, c ≠ 91) (pre ++ lit "!")).
  { apply Forall_app. split; [done|]. literal_free. }
  pose proof (wiki_link_passes (pre ++ lit "!") target post vaultName
                encodedVault encodedFile Hbang Hpost Hne Ht Hv Hcu Hev Hef)
    as Hpasses.
  change (lit "![[") with (lit "!" ++ lit "[[").
  change (lit "![") with (lit "!" ++ lit "[").
  rewrite <- !app_assoc in Hpasses. rewrite <- !app_assoc.
  rewrite Hpasses. unfold obsidianUri. f_equal. by rewrite <- !app_assoc.
Qed.

Lemma processObsidianLinks_embed_witness :
  processObsidianLinks (lit "Chart: ![[img/chart]] end") (lit "V")
  = Some (lit "Chart: ![chart](obsidian://open?vault=V&file=img%2Fchart.md) end").
Proof.
  apply (processObsidianLinks_embed (lit "Chart: ") (lit "img/chart")
           (lit " end") (lit "V") (lit "V") (lit "img%2Fchart.md")).
  - literal_free.
  - literal_free.
  - done.
  - literal_free.
  - literal_free.
  - literal_free.
  - vm_compute. reflexivity.
  - vm_compute. reflexivity.
Defined.

Lemma generateStableFilename_formula_witness :
  generateStableFilename (lit "Note.md") (lit "7d24db04")
  = lit "Note_7d24db04.md".
Proof.
  exact (proj1 (proj2 (proj2
           (generateStableFilename_formula (lit "Note") (lit "md")
              (lit "7d24db04") ltac:(done) ltac:(literal_free))))).
Defined.

Lemma generateStableFilename_extension_witness :
  generateStableFilename (lit "My Notes.v2.md") (lit "7d24db04ff")
  = lit "My_Notes_v2_7d24db04.md".
Proof.
  exact (generateStableFilename_extension (lit "My Notes.v2") (lit "md")
           (lit "7d24db04ff") ltac:(done) ltac:(literal_free)).
Defined.

Local Open Scope N_scope.

(** ** The content hash *)

Lemma toInt32_range (z : Z) : (- 2 ^ 31 ≤ toInt32 z < 2 ^ 31)%Z.
Proof.
  unfold toInt32.
  pose proof (Z.mod_pos_bound z (2 ^ 32) ltac:(lia)).
  destruct (Z.ltb_spec (z mod 2 ^ 32) (2 ^ 31)); lia.
Qed.

Lemma hash_range (content : jsstring) (h : Z) :
  (- 2 ^ 31 ≤ h < 2 ^ 31)%Z →
  (- 2 ^ 31 ≤ fold_left hashStep content h < 2 ^ 31)%Z.
Proof.
  revert h. induction content as [|c s IH]; intros h Hh; [done|].
  cbn [fold_left]. apply IH, toInt32_range.
Qed.

Lemma usize_nb_digits (d : Hexadecimal.uint) :
  HexadecimalPos.Unsigned.usize d = N.of_nat (Hexadecimal.nb_digits d).
Proof.
  induction d; cbn [HexadecimalPos.Unsigned.usize Hexadecimal.nb_digits];
    [done|rewrite Nat2N.inj_succ; by f_equal..].
Qed.

(** A numeral that starts with a digit other than 0 is worth at least the
    power of sixteen of its other digits. *)
Lemma of_hex_uint_lower (d : Hexadecimal.uint) :
  match d with
  | Hexadecimal.Nil | Hexadecimal.D0 _ => True
  | _ =>
      16 ^ N.of_nat (Nat.pred (Hexadecimal.nb_digits d)) ≤ Pos.of_hex_uint d
  end.
Proof.
  destruct d; try done;
    cbn [Pos.of_hex_uint Hexadecimal.nb_digits Nat.pred];
    rewrite HexadecimalPos.Unsigned.of_uint_acc_rev, usize_nb_digits; nia.
Qed.

Lemma to_hex_uint_head (p : positive) :
  match Pos.to_hex_uint p with
  | Hexadecimal.Nil | Hexadecimal.D0 _ => False
  | _ => True
  end.
Proof.
  pose proof (HexadecimalPos.Unsigned.to_of (Pos.to_hex_uint p)) as Hnorm.
  rewrite HexadecimalPos.Unsigned.of_to in Hnorm. cbn [N.to_hex_uint] in Hnorm.
  pose proof (HexadecimalPos.Unsigned.to_uint_nonzero p) as Hnz.
  destruct (Pos.to_hex_uint p) as [|d|d|d|d|d|d|d|d|d|d|d|d|d|d|d|d] eqn:E;
    try done.
  unfold Hexadecimal.unorm in Hnorm. cbn [Hexadecimal.nzhead] in Hnorm.
  pose proof (HexadecimalFacts.nb_digits_nzhead d) as Hle.
  destruct (Hexadecimal.nzhead d) eqn:En;
    [by apply Hnz
    |apply (f_equal Hexadecimal.nb_digits) in Hnorm;
     cbn in Hnorm, Hle; lia..].
Qed.

Lemma to_hex_uint_digits (n : N) :
  n < 2 ^ 32 → (1 ≤ Hexadecimal.nb_digits (N.to_hex_uint n) ≤ 8)%nat.
Proof.
  intros Hn. destruct n as [|p]; [cbn; lia|]. cbn [N.to_hex_uint].
  pose proof (to_hex_uint_head p) as Hhead.
  pose proof (of_hex_uint_lower (Pos.to_hex_uint p)) as Hlow.
  rewrite HexadecimalPos.Unsigned.of_to in Hlow.
  destruct (Pos.to_hex_uint p) eqn:E; try done;
    cbn [Hexadecimal.nb_digits Nat.pred] in *;
    (split; [lia|]);
    (assert (N.of_nat (Hexadecimal.nb_digits u) < 8);
     [apply (N.pow_lt_mono_r_iff 16); [lia|];
      change (16 ^ 8) with (2 ^ 32); lia|lia]).
Qed.

Lemma length_lit (s : string) : length (lit s) = String.length s.
Proof.
  unfold lit. rewrite length_map.
  induction s as [|a s IH]; cbn; [done|by rewrite IH].
Qed.

Lemma string_of_uint_digits (d : Hexadecimal.uint) :
  String.length (HexadecimalString.NilEmpty.string_of_uint d) = Hexadecimal.nb_digits d
  ∧ Forall (λ c, isHexDigit c = true)
      (lit (HexadecimalString.NilEmpty.string_of_uint d)).
Proof.
  induction d as [|d [IH1 IH2]|d [IH1 IH2]|d [IH1 IH2]|d [IH1 IH2]
                  |d [IH1 IH2]|d [IH1 IH2]|d [IH1 IH2]|d [IH1 IH2]
                  |d [IH1 IH2]|d [IH1 IH2]|d [IH1 IH2]|d [IH1 IH2]
                  |d [IH1 IH2]|d [IH1 IH2]|d [IH1 IH2]|d [IH1 IH2]];
    cbn [HexadecimalString.NilEmpty.string_of_uint String.length
         Hexadecimal.nb_digits];
    (split; [by rewrite ?IH1|]);
    [constructor|by constructor..].
Qed.

Lemma toString16_digits (n : N) :
  n < 2 ^ 32 →
  (1 ≤ length (toString16 n) ≤ 8)%nat
  ∧ Forall (λ c, isHexDigit c = true) (toString16 n).
Proof.
  intros Hn. unfold toString16.
  pose proof (to_hex_uint_digits n Hn) as Hlen.
  destruct (string_of_uint_digits (N.to_hex_uint n)) as [Hl Hc].
  unfold HexadecimalString.NilZero.string_of_uint.
  destruct (N.to_hex_uint n) eqn:E; [cbn in Hlen; lia|..];
    by rewrite length_lit, Hl.
Qed.

(** The hash is a number below 2^32 written in base sixteen: one to eight
    digits, letters in lower case; [substring(0, 8)] keeps all of it. *)
Theorem generateContentHash_hex (content : jsstring) :
  let hash := generateContentHash content in
  (1 ≤ length hash ≤ 8)%nat
  ∧ Forall (λ c, isHexDigit c = true) hash
  ∧ substring0 8 hash = hash.
Proof.
  intros hash.
  assert (H : (1 ≤ length hash ≤ 8)%nat
              ∧ Forall (λ c, isHexDigit c = true) hash).
  { unfold hash, generateContentHash. destruct content as [|c s].
    - split; [vm_compute; lia|]. vm_compute. by repeat constructor.
    - apply toString16_digits.
      pose proof (hash_range (c :: s) 0 ltac:(lia)). lia. }
  destruct H as [Hlen Hhex]. split; [done|]. split; [done|].
  unfold substring0. apply firstn_all2. lia.
Qed.

Local Open Scope N_scope.

(** ** The order of the declared names *)

Lemma strLeb_antisym (a b : jsstring) :
  strLeb a b = true → strLeb b a = true → a = b.
Proof.
  revert b. induction a as [|x a IH]; intros [|y b]; cbn [strLeb]; try done.
  intros H1 H2.
  apply orb_true_iff in H1 as [H1|H1]; apply orb_true_iff in H2 as [H2|H2];
    rewrite ?andb_true_iff, ?N.ltb_lt, ?N.eqb_eq in *; try lia.
  destruct H1 as [-> H1], H2 as [_ H2]. f_equal. by apply IH.
Qed.

Lemma Sorted_tail x l : Sorted (x :: l) → Sorted l.
Proof. inversion 1; subst; [constructor|done]. Qed.

Lemma Sorted_head x l y : Sorted (x :: l) → y ∈ l → strLeb x y = true.
Proof.
  revert x. induction l as [|z l IH]; intros x Hs Hy.
  - by apply elem_of_nil in Hy.
  - inversion Hs as [| |? ? ? Hxz Hs']; subst.
    apply elem_of_cons in Hy as [->|Hy]; [done|].
    eapply strLeb_trans; [exact Hxz|]. by apply IH.
Qed.

(** A sorted array is determined by its elements and how often each of them
    occurs. *)
Lemma Sorted_unique l l' : Sorted l → Sorted l' → l ≡ₚ l' → l = l'.
Proof.
  revert l'. induction l as [|x l IH]; intros l' Hs Hs' Hp.
  - by apply Permutation_nil_l in Hp.
  - destruct l' as [|y l']; [by apply Permutation_nil_r in Hp|].
    assert (x = y) as <-.
    { assert (Hx : x ∈ y :: l') by (rewrite <- Hp; apply list_elem_of_here).
      assert (Hy : y ∈ x :: l) by (rewrite Hp; apply list_elem_of_here).
      apply elem_of_cons in Hx as [?|Hx]; [done|].
      apply elem_of_cons in Hy as [?|Hy]; [done|].
      apply strLeb_antisym.
      - by apply (Sorted_head x l y).
      - by apply (Sorted_head y l' x). }
    f_equal. apply IH.
    + by eapply Sorted_tail.
    + by eapply Sorted_tail.
    + by apply (Permutation_cons_inv Hp).
Qed.

Lemma sortInsert_Permutation x l : sortInsert x l ≡ₚ x :: l.
Proof.
  induction l as [|y l IH]; cbn [sortInsert]; [done|].
  destruct (strLeb x y); [done|]. rewrite IH. apply Permutation_swap.
Qed.

Lemma jsSort_Permutation l : jsSort l ≡ₚ l.
Proof.
  induction l as [|x l IH]; [done|].
  change (jsSort (x :: l)) with (sortInsert x (jsSort l)).
  by rewrite sortInsert_Permutation, IH.
Qed.

Lemma jsSort_order l l' : l ≡ₚ l' → jsSort l = jsSort l'.
Proof.
  intros Hp. apply Sorted_unique; [apply jsSort_sorted..|].
  by rewrite !jsSort_Permutation.
Qed.

(** The order in which a document declares its collections does not
    matter: the reconciliation does the same for every arrangement of the
    declared names. *)
Theorem syncFileWithStateTracking_order (host : Host) (file : TFile)
    (declared declared' : list jsstring) (config : option SyncConfig)
    (p : Plugin) :
  declared ≡ₚ declared' →
  syncFileWithStateTracking host file declared config p
  = syncFileWithStateTracking host file declared' config p.
Proof.
  intros Hp. unfold syncFileWithStateTracking, detectChanges.
  by rewrite (jsSort_order _ _ Hp).
Qed.

Lemma syncFileWithStateTracking_order_witness :
  syncFileWithStateTracking (hostOf obligingRemote [planFile]) planFile
    [lit "B"; lit "A"] None freshPlugin
  = syncFileWithStateTracking (hostOf obligingRemote [planFile]) planFile
      [lit "A"; lit "B"] None freshPlugin.
Proof.
  apply syncFileWithStateTracking_order. apply Permutation_swap.
Defined.

Local Open Scope Z_scope.
Local Open Scope method_scope.

(** ** What a method can touch *)

(** The methods that talk to the service change the plugin object through
    a few updates only; a relation that these updates respect holds between
    the plugin object before and after each of them. *)
Section Footprint.

Context (host : Host) (R : Plugin → Plugin → Prop) `{!PreOrder R}.
Context (Q : Call → Prop).

Hypothesis R_tick : ∀ p, R p (withTick p).
Hypothesis R_cache : ∀ f p, R p (withKbCache f p).
Hypothesis R_status : ∀ f p, R p (withSyncStatus f p).
Hypothesis R_call : ∀ c p, Q c → R p (withCall c p).

Lemma dateNow_keeps : preserves R (dateNow host).
Proof. intros p r p' [= <- <-]. apply R_tick. Qed.

Lemma makeApiRequest_keeps {A} c (reply : list Call → Reply A) :
  Q c → preserves R (makeApiRequest c reply).
Proof.
  intros Hc p r p'. unfold makeApiRequest.
  destruct (_ || _).
  - intros [= <- <-]. reflexivity.
  - destruct (reply (calls p)) as [e|status text json].
    + intros [= <- <-]. by apply R_call.
    + destruct (400 <=? status)%N; intros [= <- <-]; by apply R_call.
Qed.

Lemma cacheSet_keeps name id : preserves R (cacheSet host name id).
Proof.
  unfold cacheSet. frame_step; [apply dateNow_keeps|].
  apply preserves_modify. apply R_cache.
Qed.

Lemma findKnowledgeBaseByName_keeps name :
  Q ListKnowledgeBases → preserves R (findKnowledgeBaseByName host name).
Proof.
  intros HQ. unfold findKnowledgeBaseByName. repeat frame_step.
  - apply dateNow_keeps.
  - by apply makeApiRequest_keeps.
  - apply cacheSet_keeps.
Qed.

Lemma createKnowledgeBase_keeps name :
  Q (CreateKnowledgeBase name) → preserves R (createKnowledgeBase host name).
Proof.
  intros HQ. unfold createKnowledgeBase. repeat frame_step.
  - by apply makeApiRequest_keeps.
  - apply cacheSet_keeps.
Qed.

Lemma getOrCreateKnowledgeBase_keeps name :
  Q ListKnowledgeBases → Q (CreateKnowledgeBase name) →
  preserves R (getOrCreateKnowledgeBase host name).
Proof.
  intros HQ1 HQ2. unfold getOrCreateKnowledgeBase. frame_step.
  - by apply findKnowledgeBaseByName_keeps.
  - repeat frame_step; by apply createKnowledgeBase_keeps.
Qed.

Lemma addFileToKnowledgeBase_keeps kbId fileId :
  Q (AddFile kbId fileId) →
  preserves R (addFileToKnowledgeBase host kbId fileId).
Proof.
  intros HQ. unfold addFileToKnowledgeBase. repeat frame_step.
  by apply makeApiRequest_keeps.
Qed.

Lemma deleteFileFromOpenWebUI_keeps fileId :
  Q (DeleteFile fileId) → preserves R (deleteFileFromOpenWebUI host fileId).
Proof.
  intros HQ. unfold deleteFileFromOpenWebUI. repeat frame_step.
  by apply makeApiRequest_keeps.
Qed.

Lemma uploadFile_keeps filename content :
  Q (UploadFile filename content) →
  preserves R (uploadFile host filename content).
Proof.
  intros HQ p r p'. unfold uploadFile.
  destruct (uploadReply _ _ _ _) as [e|status text id].
  - intros [= <- <-]. by apply R_call.
  - repeat (destruct (_ && _)); intros [= <- <-]; by apply R_call.
Qed.

Lemma addToKnowledgeBases_keeps targetKBs newRecord :
  Q ListKnowledgeBases → (∀ name, Q (CreateKnowledgeBase name)) →
  (∀ kbId fileId, Q (AddFile kbId fileId)) →
  preserves R (addToKnowledgeBases host targetKBs newRecord).
Proof.
  intros HQ1 HQ2 HQ3. revert newRecord.
  induction targetKBs as [|kbName rest IH]; intros newRecord;
    cbn [addToKnowledgeBases]; [apply preserves_ret; apply _|].
  frame_step; [|apply IH]. repeat frame_step.
  - by apply getOrCreateKnowledgeBase_keeps.
  - by apply addFileToKnowledgeBase_keeps.
  - apply preserves_modify. apply R_status.
Qed.

Context (filePath : jsstring).

Hypothesis R_drop : ∀ kbName p, R p (dropKnowledgeBase filePath kbName p).

Lemma removeFileFromKnowledgeBase_keeps kbName fileId :
  Q ListKnowledgeBases → (∀ kbId, Q (RemoveFile kbId fileId)) →
  preserves R (removeFileFromKnowledgeBase host kbName filePath fileId).
Proof.
  intros HQ1 HQ2. unfold removeFileFromKnowledgeBase. frame_step.
  - frame_step; [by apply findKnowledgeBaseByName_keeps|].
    repeat frame_step.
    + by apply makeApiRequest_keeps.
    + apply preserves_modify. apply R_drop.
  - repeat frame_step. apply preserves_modify. apply R_drop.
Qed.

Lemma removeFileFromAllKnowledgeBases_keeps record :
  Q ListKnowledgeBases → (∀ kbId, Q (RemoveFile kbId (fileId record))) →
  Q (DeleteFile (fileId record)) →
  preserves R (removeFileFromAllKnowledgeBases host filePath record).
Proof.
  intros HQ1 HQ2 HQ3. unfold removeFileFromAllKnowledgeBases.
  repeat frame_step.
  - by apply removeFileFromKnowledgeBase_keeps.
  - by apply deleteFileFromOpenWebUI_keeps.
Qed.

End Footprint.

(** ** One document at a time *)

Lemma Isolated_preorder (filePath : jsstring) : PreOrder (Isolated filePath).
Proof.
  split.
  - intros p. by split.
  - intros p1 p2 p3 [? ? ? Hs1 Hm1 ? ? ?] [? ? ? Hs2 Hm2 ? ? ?].
    split; try congruence; intros k Hk.
    + by rewrite Hs2, Hs1.
    + by rewrite Hm2, Hm1.
Qed.

#[global] Existing Instance Isolated_preorder.

Lemma Isolated_dropKnowledgeBase filePath kbName p :
  Isolated filePath p (dropKnowledgeBase filePath kbName p).
Proof.
  split; try done. intros k Hk. cbn. by rewrite lookup_alter_ne.
Qed.

Lemma Isolated_sortStored filePath p :
  Isolated filePath p (sortStored filePath p).
Proof.
  split; try done. intros k Hk. cbn. by rewrite lookup_alter_ne.
Qed.

Lemma Isolated_persisted c newRecord p :
  Isolated (c_filePath c) p (persisted c newRecord p).
Proof.
  split; try done.
  - intros k Hk. cbn. by rewrite lookup_insert_ne.
  - intros k Hk. cbn. destruct newRecord; [|done].
    by rewrite lookup_insert_ne.
Qed.

Section Isolation.

Context (host : Host).

Lemma removeFileFromAllKnowledgeBases_isolated filePath record :
  preserves (Isolated filePath)
    (removeFileFromAllKnowledgeBases host filePath record).
Proof.
  apply (removeFileFromAllKnowledgeBases_keeps host _ (λ _, True));
    try done.
  apply Isolated_dropKnowledgeBase.
Qed.

Lemma detectChanges_isolated file currentKBs config :
  preserves (Isolated (normalizePath host (path file)))
    (detectChanges host file currentKBs config).
Proof.
  intros p r p'. rewrite detectChanges_eq.
  destruct (readOf host file config p); intros [= <- <-].
  - etransitivity; [|apply Isolated_sortStored].
    unfold afterClock. by destruct (mtime file =? 0).
  - unfold afterClock. by destruct (mtime file =? 0).
Qed.

Lemma removeOutdated_isolated c :
  preserves (Isolated (c_filePath c)) (removeOutdated host c).
Proof.
  unfold removeOutdated. repeat frame_step.
  - apply removeFileFromAllKnowledgeBases_isolated.
  - apply (removeFileFromKnowledgeBase_keeps host _ (λ _, True));
      try done.
    apply Isolated_dropKnowledgeBase.
  - by apply preserves_modify.
Qed.

Lemma uploadIfNeeded_isolated file c :
  preserves (Isolated (c_filePath c)) (uploadIfNeeded host file c).
Proof.
  unfold uploadIfNeeded. repeat frame_step.
  by apply (uploadFile_keeps host _ (λ _, True)).
Qed.

Lemma applyChanges_isolated file c :
  preserves (Isolated (c_filePath c)) (applyChanges host file c).
Proof.
  unfold applyChanges. repeat frame_step.
  - apply removeOutdated_isolated.
  - apply uploadIfNeeded_isolated.
  - by apply (addToKnowledgeBases_keeps host _ (λ _, True)).
  - intros p r p'. rewrite updateState_eq. intros [= <- <-].
    apply Isolated_persisted.
Qed.

End Isolation.

(** The reconciliation of a document leaves what the plugin holds for the
    other documents as it is, in [syncState] and in [fileMapping], whatever
    the service replies and however the reconciliation ends; it does not
    change the URL, the token or the mobile settings, shows no Notice and
    does not touch the guard. *)
Theorem syncFileWithStateTracking_isolated (host : Host) (file : TFile)
    (declared : list jsstring) (config : option SyncConfig) (p : Plugin) :
  let p' := (syncFileWithStateTracking host file declared config p).2 in
  (∀ k, k ≠ normalizePath host (path file) →
     syncState (settings p') !! k = syncState (settings p) !! k
     ∧ fileMapping (settings p') !! k = fileMapping (settings p) !! k)
  ∧ openwebuiUrl (settings p') = openwebuiUrl (settings p)
  ∧ apiToken (settings p') = apiToken (settings p)
  ∧ mobile (settings p') = mobile (settings p)
  ∧ notices p' = notices p
  ∧ syncMutex p' = syncMutex p.
Proof.
  intros p'.
  assert (Hafter : Isolated (normalizePath host (path file)) p
                     (afterClock host file p)).
  { unfold afterClock. by destruct (mtime file =? 0). }
  assert (Hiso : Isolated (normalizePath host (path file)) p p').
  { unfold p', syncFileWithStateTracking. unfold bind at 1.
    rewrite detectChanges_eq.
    destruct (readOf host file config p) as [read|e]; [|exact Hafter].
    set (c := changesOf host file declared p read).
    assert (Hdetected : Isolated (normalizePath host (path file)) p
              (sortStored (normalizePath host (path file))
                 (afterClock host file p))).
    { etransitivity; [exact Hafter|apply Isolated_sortStored]. }
    destruct (_ && _); [exact Hdetected|].
    etransitivity; [exact Hdetected|].
    destruct (applyChanges host file c _) as [r q] eqn:Hrun.
    exact (applyChanges_isolated host file c _ _ _ Hrun). }
  destruct Hiso. repeat split; try done; auto.
Qed.

(** ** Taking an upload out of the service *)

Lemma Sent_refl Q p : Sent Q p p.
Proof. exists []. by rewrite app_nil_r. Qed.

Lemma Sent_trans Q p1 p2 p3 : Sent Q p1 p2 → Sent Q p2 p3 → Sent Q p1 p3.
Proof.
  intros (n1 & E1 & H1) (n2 & E2 & H2). exists (n1 ++ n2).
  rewrite E2, E1, app_assoc. split; [done|]. by apply Forall_app.
Qed.

Lemma Sent_weaken (Q Q' : Call → Prop) p p' :
  (∀ c, Q c → Q' c) → Sent Q p p' → Sent Q' p p'.
Proof.
  intros HQ (new & E & H). exists new. split; [done|].
  eapply Forall_impl; eauto.
Qed.

Lemma Frame_Sent Q p p' : Frame Q p p' → Sent Q p p'.
Proof. apply frame_calls. Qed.

Lemma retireCall_isRemoval oldId call : retireCall oldId call → isRemoval call.
Proof. by destruct call. Qed.

Section Retire.

Context (host : Host).

Lemma removeFileFromAllKnowledgeBases_neverThrows filePath record :
  neverThrows (removeFileFromAllKnowledgeBases host filePath record).
Proof.
  unfold removeFileFromAllKnowledgeBases. apply neverThrows_bind.
  - apply neverThrows_forEach. intros kbName.
    apply neverThrows_tryCatch. intros e. apply neverThrows_ret.
  - intros _. apply neverThrows_tryCatch. intros e. apply neverThrows_ret.
Qed.

Lemma removeFileFromAllKnowledgeBases_syncState filePath record :
  preserves (λ p p', syncState (settings p') = syncState (settings p))
    (removeFileFromAllKnowledgeBases host filePath record).
Proof.
  assert (PreOrder (λ p p' : Plugin,
            syncState (settings p') = syncState (settings p))).
  { split; [done|]. intros p1 p2 p3 H12 H23. congruence. }
  by apply (removeFileFromAllKnowledgeBases_keeps host _ (λ _, True)).
Qed.

(** With the URL and the token set, the deletion sends its request and
    returns, whatever comes back. *)
Lemma deleteFileFromOpenWebUI_configured fileId p :
  configured p →
  deleteFileFromOpenWebUI host fileId p = (Ok tt, withCall (DeleteFile fileId) p).
Proof.
  intros [Hurl Htoken]. unfold deleteFileFromOpenWebUI, tryCatch, makeApiRequest.
  rewrite Hurl, Htoken. cbn [negb orb].
  destruct (deleteReply (remote host) (calls p) fileId) as [e|status text []].
  - by destruct (isNotFoundMessage e).
  - destruct (400 <=? status)%N; [|done].
    by destruct (isNotFoundMessage _).
Qed.

Lemma removeFileFromAllKnowledgeBases_last filePath record p :
  configured p →
  last (calls (removeFileFromAllKnowledgeBases host filePath record p).2)
  = Some (DeleteFile (fileId record)).
Proof.
  intros Hconf. unfold removeFileFromAllKnowledgeBases. unfold bind at 1.
  match goal with |- context [forEach ?l ?body p] =>
    assert (Hloop : preserves (Frame (λ _, True)) (forEach l body));
    [|destruct (forEach l body p) as [[[]|e] q] eqn:Eloop]
  end.
  - repeat frame_step. by apply removeFileFromKnowledgeBase_frame.
  - assert (Hq : configured q).
    { eapply (configured_frame (λ _, True)); [|exact Hconf].
      exact (Hloop _ _ _ Eloop). }
    unfold tryCatch. rewrite (deleteFileFromOpenWebUI_configured _ q Hq).
    cbn. by rewrite last_snoc.
  - exfalso.
    assert (Hnever : neverThrows
              (forEach (knowledgeBases record) (λ kbName,
                 tryCatch
                   (removeFileFromKnowledgeBase host kbName filePath
                      (fileId record))
                   (λ _, logged)))).
    { apply neverThrows_forEach. intros kbName.
      apply neverThrows_tryCatch. intros e'. apply neverThrows_ret. }
    destruct (Hnever p) as (a & p1 & Heq). congruence.
Qed.

End Retire.

(** [removeFileFromAllKnowledgeBases] always returns, whatever the service
    replies: failures are logged and passed over.  It sends list requests,
    removals and the deletion of the upload of the record, and nothing
    else; it saves nothing, leaves [syncState] and the records of the other
    documents alone, and the record under its path can only lose
    memberships.  When the URL and the token are set, its last request is
    the deletion of the upload. *)
Theorem removeFileFromAllKnowledgeBases_returns (host : Host)
    (filePath : jsstring) (record : OpenWebUIFileRecord) (p : Plugin) :
  ∃ p',
    removeFileFromAllKnowledgeBases host filePath record p = (Ok tt, p')
    ∧ (∃ new, calls p' = calls p ++ new
              ∧ Forall (retireCall (fileId record)) new)
    ∧ (∀ k, k ≠ filePath →
         fileMapping (settings p') !! k = fileMapping (settings p) !! k)
    ∧ shrinksOpt (fileMapping (settings p) !! filePath)
        (fileMapping (settings p') !! filePath)
    ∧ syncState (settings p') = syncState (settings p)
    ∧ saved p' = saved p
    ∧ (configured p → last (calls p') = Some (DeleteFile (fileId record))).
Proof.
  destruct (removeFileFromAllKnowledgeBases_neverThrows host filePath record p)
    as ([] & p' & Hrun).
  exists p'. split; [done|].
  assert (Hframe : Frame (retireCall (fileId record)) p p').
  { eapply (removeFileFromAllKnowledgeBases_frame host
              (retireCall (fileId record)) filePath record);
      [done..|exact Hrun]. }
  pose proof (removeFileFromAllKnowledgeBases_isolated host filePath record
                _ _ _ Hrun) as Hiso.
  split; [apply (frame_calls _ _ _ Hframe)|].
  split; [apply (iso_fileMapping _ _ _ Hiso)|].
  split; [apply (frame_fileMapping _ _ _ Hframe)|].
  split; [exact (removeFileFromAllKnowledgeBases_syncState host filePath
                   record _ _ _ Hrun)|].
  split; [apply (frame_saved _ _ _ Hframe)|].
  intros Hconf.
  pose proof (removeFileFromAllKnowledgeBases_last host filePath record p
                Hconf) as Hlast.
  by rewrite Hrun in Hlast.
Qed.

(** ** Documents that are gone or have lost their tags *)

Lemma Dropped_refl p : Dropped [] p p.
Proof. intros k. split; [by intros ?%elem_of_nil|done]. Qed.

Lemma Dropped_app D1 D2 p q q' :
  Dropped D1 p q → Dropped D2 q q' → Dropped (D1 ++ D2) p q'.
Proof.
  intros H1 H2 k. destruct (H1 k) as [H1in H1out], (H2 k) as [H2in H2out].
  split.
  - intros Hk. destruct (decide (k ∈ D2)) as [Hk2|Hk2]; [by apply H2in|].
    apply elem_of_app in Hk as [Hk|Hk]; [|done].
    destruct (H2out Hk2) as [-> ->]. by apply H1in.
  - intros Hk. apply not_elem_of_app in Hk as [Hk1 Hk2].
    destruct (H2out Hk2) as [-> ->]. by apply H1out.
Qed.

Lemma Dropped_untrack filePath p q :
  Isolated filePath p q → Dropped [filePath] p (untrack filePath q).
Proof.
  intros Hiso k. split.
  - intros ->%list_elem_of_singleton. cbn. by rewrite !lookup_delete_eq.
  - intros Hk%not_elem_of_cons. destruct Hk as [Hk _]. cbn.
    rewrite !lookup_delete_ne by done.
    by rewrite (iso_fileMapping _ _ _ Hiso), (iso_syncState _ _ _ Hiso).
Qed.

(** A loop that passes over the items to keep and ends the tracking of
    the others. *)
Lemma untrack_loop {A} (key : A → jsstring) (keep : A → bool)
    (body : A → M unit) (Q : Call → Prop) (l : list A) (p : Plugin) :
  (∀ x q, ∃ q', body x q = (Ok tt, q') ∧ Sent Q q q'
                ∧ Dropped (if keep x then [] else [key x]) q q') →
  ∃ p', forEach l body p = (Ok tt, p') ∧ Sent Q p p'
        ∧ Dropped (map key (filter (λ x, keep x = false) l)) p p'.
Proof.
  intros Hbody. revert p. induction l as [|x l IH]; intros p.
  - exists p. split; [done|]. split; [apply Sent_refl|apply Dropped_refl].
  - cbn [forEach]. unfold bind at 1.
    destruct (Hbody x p) as (q & -> & Hsent & Hdrop).
    destruct (IH q) as (p' & -> & Hsent' & Hdrop').
    exists p'. split; [done|]. split; [by eapply Sent_trans|].
    rewrite filter_cons. destruct (keep x) eqn:Ekeep.
    + rewrite decide_False by done.
      exact (Dropped_app [] _ _ _ _ Hdrop Hdrop').
    + rewrite decide_True by done.
      exact (Dropped_app [key x] _ _ _ _ Hdrop Hdrop').
Qed.

Lemma tracked_paths (m : gmap jsstring OpenWebUIFileRecord) (k : jsstring) :
  k ∈ map fst (map_to_list m) ↔ is_Some (m !! k).
Proof.
  rewrite list_elem_of_fmap. split.
  - intros ([k' r] & -> & Hin). apply elem_of_map_to_list in Hin.
    by exists r.
  - intros [r Hr]. exists (k, r). split; [done|].
    by apply elem_of_map_to_list.
Qed.

(** What is left of the two maps once the tracked documents that are not
    to be kept were dropped. *)
Lemma Dropped_lookup (D : list jsstring) (p q : Plugin)
    (kept : jsstring → Prop) `{!∀ k, Decision (kept k)} :
  Dropped D p q →
  (∀ k, k ∈ D ↔ ¬ kept k ∧ is_Some (fileMapping (settings p) !! k)) →
  (∀ k, fileMapping (settings q) !! k
        = if bool_decide (kept k) then fileMapping (settings p) !! k
          else None)
  ∧ (∀ k, syncState (settings q) !! k
          = if bool_decide (kept k)
               || bool_decide (fileMapping (settings p) !! k = None)
            then syncState (settings p) !! k else None).
Proof.
  intros Hdrop HD.
  assert (Hcases : ∀ k,
            (kept k ∨ fileMapping (settings p) !! k = None) ∧ k ∉ D
            ∨ (¬ kept k ∧ is_Some (fileMapping (settings p) !! k)) ∧ k ∈ D).
  { intros k. destruct (decide (kept k)) as [Hk|Hk].
    - left. split; [by left|]. rewrite HD. tauto.
    - destruct (fileMapping (settings p) !! k) as [r|] eqn:Er.
      + right. split; [by split|]. apply HD. by split.
      + left. split; [by right|]. rewrite HD, Er. by intros [_ []]. }
  split; intros k; destruct (Hdrop k) as [Hin Hout];
    destruct (Hcases k) as [[Hkeep Hk]|[[Hno Htracked] Hk]].
  - destruct (Hout Hk) as [-> _].
    destruct Hkeep as [Hkeep|Hnone].
    + by rewrite bool_decide_eq_true_2.
    + rewrite Hnone. by destruct (bool_decide (kept k)).
  - destruct (Hin Hk) as [-> _]. by rewrite bool_decide_eq_false_2.
  - destruct (Hout Hk) as [_ ->].
    destruct Hkeep as [Hkeep|Hnone].
    + by rewrite bool_decide_eq_true_2.
    + rewrite (bool_decide_eq_true_2 (_ = None)) by done.
      by rewrite orb_true_r.
  - destruct (Hin Hk) as [_ ->].
    rewrite (bool_decide_eq_false_2 (kept k)) by done.
    rewrite bool_decide_eq_false_2; [done|].
    destruct Htracked as [r ->]. done.
Qed.

Section Untracking.

Context (host : Host).

Lemma retired_step filePath record q :
  ∃ q', removeFileFromAllKnowledgeBases host filePath record q = (Ok tt, q')
        ∧ Sent isRemoval q q' ∧ Isolated filePath q q'.
Proof.
  destruct (removeFileFromAllKnowledgeBases_neverThrows host filePath record q)
    as ([] & q' & Hrun).
  exists q'. split; [done|]. split.
  - apply (Sent_weaken (retireCall (fileId record))).
    { apply retireCall_isRemoval. }
    apply Frame_Sent.
    eapply (removeFileFromAllKnowledgeBases_frame host
              (retireCall (fileId record)) filePath record);
      [done..|exact Hrun].
  - exact (removeFileFromAllKnowledgeBases_isolated host filePath record
             _ _ _ Hrun).
Qed.

End Untracking.

(** [cleanupDeletedFiles] always returns.  Afterwards the plugin tracks
    exactly the documents it tracked before whose file is still in the
    vault, with their records as they were: the tracking of a document
    whose file is gone is ended whatever came of the requests to take its
    upload out of the service.  The settings are saved, and the requests
    sent are list requests, removals and deletions. *)
Theorem cleanupDeletedFiles_untracks (host : Host) (p : Plugin) :
  let present (k : jsstring) :=
    normalizePath host k
    ∈ map (λ f, normalizePath host (path f)) (markdownFiles host) in
  ∃ p',
    cleanupDeletedFiles host p = (Ok tt, p')
    ∧ (∀ k, fileMapping (settings p') !! k
            = if bool_decide (present k)
              then fileMapping (settings p) !! k else None)
    ∧ (∀ k, syncState (settings p') !! k
            = if bool_decide (present k)
                 || bool_decide (fileMapping (settings p) !! k = None)
              then syncState (settings p) !! k else None)
    ∧ saved p' = settings p'
    ∧ ∃ new, calls p' = calls p ++ new ∧ Forall isRemoval new.
Proof.
  intros present. unfold cleanupDeletedFiles.
  unfold bind at 1. unfold bind at 1. unfold gets at 1.
  set (keys := map fst (map_to_list (fileMapping (settings p)))).
  match goal with |- context [forEach keys ?b p] => set (body := b) end.
  destruct (untrack_loop id (λ k, bool_decide (present k)) body isRemoval
              keys p) as (q & Hloop & Hsent & Hdrop).
  { intros k q. unfold body.
    destruct (bool_decide (present k)) eqn:Ek.
    - unfold present in Ek. rewrite Ek.
      exists q. split; [done|]. split; [apply Sent_refl|apply Dropped_refl].
    - unfold present in Ek. rewrite Ek.
      unfold bind at 1. unfold gets at 1.
      destruct (fileMapping (settings q) !! k) as [r|].
      + unfold bind at 1.
        destruct (retired_step host k r q) as (q' & -> & Hsent & Hiso).
        exists (untrack k q'). split; [done|]. split; [exact Hsent|].
        by apply Dropped_untrack.
      + exists (untrack k q). split; [done|].
        split; [exact (Sent_refl isRemoval q)|].
        by apply Dropped_untrack. }
  rewrite Hloop. exists (withSaved (settings q) q). split; [done|].
  assert (HD : ∀ k, k ∈ map id (filter (λ k, bool_decide (present k) = false)
                                  keys)
                    ↔ ¬ present k ∧ is_Some (fileMapping (settings p) !! k)).
  { intros k. rewrite list_fmap_id, list_elem_of_filter.
    unfold keys. rewrite tracked_paths, bool_decide_eq_false. done. }
  destruct (Dropped_lookup _ p q present Hdrop HD) as [Hmap Hstate].
  by repeat split.
Qed.

(** [handleUntaggedFiles] always returns.  Afterwards the plugin tracks
    exactly the documents it tracked before that are among the tagged
    ones, with their records as they were; the tracking of the others is
    ended whatever came of the requests.  The settings are saved, and the
    requests sent are list requests, removals and deletions. *)
Theorem handleUntaggedFiles_untracks (host : Host)
    (currentlyTaggedFiles : list (jsstring * list jsstring)) (p : Plugin) :
  let tagged (k : jsstring) := k ∈ map fst currentlyTaggedFiles in
  ∃ p',
    handleUntaggedFiles host currentlyTaggedFiles p = (Ok tt, p')
    ∧ (∀ k, fileMapping (settings p') !! k
            = if bool_decide (tagged k)
              then fileMapping (settings p) !! k else None)
    ∧ (∀ k, syncState (settings p') !! k
            = if bool_decide (tagged k)
                 || bool_decide (fileMapping (settings p) !! k = None)
              then syncState (settings p) !! k else None)
    ∧ saved p' = settings p'
    ∧ ∃ new, calls p' = calls p ++ new ∧ Forall isRemoval new.
Proof.
  intros tagged. unfold handleUntaggedFiles.
  unfold bind at 1. unfold bind at 1. unfold gets at 1.
  set (entries := map_to_list (fileMapping (settings p))).
  match goal with |- context [forEach entries ?b p] => set (body := b) end.
  destruct (untrack_loop fst (λ entry, bool_decide (tagged entry.1)) body
              isRemoval entries p) as (q & Hloop & Hsent & Hdrop).
  { intros [k r] q. unfold body. cbn [fst snd].
    destruct (bool_decide (tagged k)) eqn:Ek.
    - unfold tagged in Ek. rewrite Ek.
      exists q. split; [done|]. split; [apply Sent_refl|apply Dropped_refl].
    - unfold tagged in Ek. rewrite Ek.
      unfold tryCatch. unfold bind at 1.
      destruct (retired_step host k r q) as (q' & -> & Hsent & Hiso).
      exists (withSyncStatus incSynced (untrack k q')).
      split; [done|]. split; [exact Hsent|].
      exact (Dropped_untrack k q q' Hiso). }
  rewrite Hloop. exists (withSaved (settings q) q). split; [done|].
  assert (HD : ∀ k, k ∈ map fst (filter (λ entry : jsstring * OpenWebUIFileRecord,
                                     bool_decide (tagged entry.1) = false)
                                   entries)
                    ↔ ¬ tagged k ∧ is_Some (fileMapping (settings p) !! k)).
  { intros k. rewrite <- tracked_paths. fold entries.
    rewrite !list_elem_of_fmap. split.
    - intros ([k' r] & -> & Hin). apply list_elem_of_filter in Hin as [Hk Hin].
      apply bool_decide_eq_false in Hk. split; [done|]. by exists (k', r).
    - intros (Hk & [k' r] & -> & Hin). exists (k', r). split; [done|].
      apply list_elem_of_filter. split; [|done].
      by apply bool_decide_eq_false. }
  destruct (Dropped_lookup _ p q tagged Hdrop HD) as [Hmap Hstate].
  by repeat split.
Qed.

Local Open Scope Z_scope.
Local Open Scope method_scope.

(** ** Resolving and creating collections *)

Section Resolve.

Context (host : Host).

(** Without a usable cache entry the lookup goes to the service. *)
Lemma findKnowledgeBaseByName_miss name p :
  cacheMiss host name p →
  findKnowledgeBaseByName host name p
  = tryCatch
      (let* knowledgeBases :=
         makeApiRequest ListKnowledgeBases (listReply (remote host)) in
       match knowledgeBases with
       | Some kbs =>
           forEach kbs (fun kb => cacheSet host (kb_name kb) (kb_id kb)) ;;
           ret (kb_id <$>
                List.find (fun kb => bool_decide (kb_name kb = name)) kbs)
       | None => ret None
       end)
      (fun _ => logged ;; ret None)
      (afterCacheCheck name p).
Proof.
  intros Hmiss. unfold findKnowledgeBaseByName, cacheMiss, afterCacheCheck in *.
  unfold bind at 1, gets. unfold bind at 1.
  destruct (kbCache p !! name) as [entry|]; [|done].
  unfold bind at 1, dateNow, ret.
  by destruct (Z.ltb_spec (clock host (ticks p) - timestamp entry)
                 KB_CACHE_TTL); [lia|].
Qed.

Lemma configured_afterCacheCheck name p :
  configured p → configured (afterCacheCheck name p).
Proof. unfold afterCacheCheck. by destruct (kbCache p !! name). Qed.

Lemma calls_afterCacheCheck name p : calls (afterCacheCheck name p) = calls p.
Proof. unfold afterCacheCheck. by destruct (kbCache p !! name). Qed.

End Resolve.

(** A lookup whose list request fails, or comes back with something that
    is not an array, returns null like a lookup of a name that does not
    exist: the failure is logged and nothing is cached. *)
Theorem findKnowledgeBaseByName_failed_lookup (host : Host) (name : jsstring)
    (p : Plugin) :
  configured p → cacheMiss host name p →
  match listReply (remote host) (calls p) with
  | Response status _ (Some _) => (400 ≤ status)%N
  | _ => True
  end →
  findKnowledgeBaseByName host name p
  = (Ok None, withCall ListKnowledgeBases (afterCacheCheck name p)).
Proof.
  intros Hconf Hmiss Hreply.
  rewrite (findKnowledgeBaseByName_miss host name p Hmiss).
  pose proof (configured_afterCacheCheck name p Hconf) as [Hurl Htoken].
  unfold tryCatch. unfold bind at 1. unfold makeApiRequest.
  rewrite Hurl, Htoken, calls_afterCacheCheck. cbn [negb orb].
  destruct (listReply (remote host) (calls p)) as [e|status text [kbs|]];
    [done| |].
  - by destruct (N.leb_spec 400 status); [|lia].
  - by destruct (400 <=? status)%N.
Qed.

Lemma findKnowledgeBaseByName_failed_lookup_witness :
  findKnowledgeBaseByName
    (hostOf {| listReply _ := Rejected (lit "net::ERR_CONNECTION_REFUSED");
               createReply := createReply obligingRemote;
               addReply := addReply obligingRemote;
               removeReply := removeReply obligingRemote;
               deleteReply := deleteReply obligingRemote;
               uploadReply := uploadReply obligingRemote |} [])
    (lit "Docs") freshPlugin
  = (Ok None, withCall ListKnowledgeBases freshPlugin).
Proof.
  apply (findKnowledgeBaseByName_failed_lookup _ (lit "Docs") freshPlugin).
  - split; reflexivity.
  - exact I.
  - exact I.
Defined.

(** When the lookup gives null (the name is not listed, or the list request
    failed) and the create request succeeds, [getOrCreateKnowledgeBase]
    returns the new id and caches it under the name; a second call a
    moment later is answered from the cache and sends nothing, so the
    collection is created once. *)
Theorem getOrCreateKnowledgeBase_creates_once (host : Host) (name : jsstring)
    (p p0 : Plugin) (status : N) (text newId : jsstring) :
  configured p →
  findKnowledgeBaseByName host name p = (Ok None, p0) →
  createReply (remote host) (calls p0) name = Response status text newId →
  (status < 400)%N → truthy newId = true →
  let p1 :=
    withKbCache
      (insert name {| cachedId := newId; timestamp := clock host (ticks p0) |})
      (withTick (withCall (CreateKnowledgeBase name) p0)) in
  getOrCreateKnowledgeBase host name p = (Ok newId, p1)
  ∧ (clock host (S (ticks p0)) - clock host (ticks p0) < KB_CACHE_TTL →
     getOrCreateKnowledgeBase host name p1 = (Ok newId, withTick p1)).
Proof.
  intros Hconf Hfind Hreply Hstatus Hid p1.
  assert (Hconf0 : configured p0).
  { eapply (configured_frame (λ _, True)); [|exact Hconf].
    eapply findKnowledgeBaseByName_frame; [done|exact Hfind]. }
  split.
  - unfold getOrCreateKnowledgeBase. unfold bind at 1. rewrite Hfind.
    unfold createKnowledgeBase, tryCatch. unfold bind at 1.
    rewrite (makeApiRequest_success _ _ p0 status text newId Hconf0 Hreply
               Hstatus).
    done.
  - intros Hfresh. unfold getOrCreateKnowledgeBase. unfold bind at 1.
    unfold findKnowledgeBaseByName. unfold bind at 1, gets.
    assert (kbCache p1 !! name
            = Some {| cachedId := newId; timestamp := clock host (ticks p0) |})
      as -> by apply lookup_insert_eq.
    unfold bind at 1. unfold bind at 1, dateNow, ret.
    cbn [timestamp cachedId ticks p1 withKbCache withTick withCall].
    destruct (Z.ltb_spec (clock host (S (ticks p0)) - clock host (ticks p0))
                KB_CACHE_TTL); [|lia].
    by rewrite Hid.
Qed.

Lemma getOrCreateKnowledgeBase_creates_once_witness :
  let host := hostOf obligingRemote [] in
  let first := getOrCreateKnowledgeBase host (lit "Docs") freshPlugin in
  first.1 = Ok (lit "kb-Docs")
  ∧ getOrCreateKnowledgeBase host (lit "Docs") first.2
    = (Ok (lit "kb-Docs"), withTick first.2).
Proof.
  intros host first.
  destruct (getOrCreateKnowledgeBase_creates_once host (lit "Docs")
              freshPlugin (withCall ListKnowledgeBases freshPlugin)
              200 [] (lit "kb-Docs"))
    as [Hfirst Hsecond].
  - split; reflexivity.
  - vm_compute. reflexivity.
  - vm_compute. reflexivity.
  - reflexivity.
  - reflexivity.
  - unfold first. rewrite Hfirst. split; [done|].
    apply Hsecond. vm_compute. reflexivity.
Defined.

(** [testConnection] never throws.  It answers true exactly when the URL
    and the token are set and the list request comes back with a status
    below 400, and sets the error flag of the status bar to the opposite;
    it touches neither the settings nor the cache. *)
Theorem testConnection_result (host : Host) (p : Plugin) :
  ∃ answer p',
    testConnection host p = (Ok answer, p')
    ∧ (answer = true
       ↔ configured p
         ∧ failureOf (listReply (remote host) (calls p)) = None)
    ∧ error (syncStatus p') = negb answer
    ∧ settings p' = settings p ∧ kbCache p' = kbCache p
    ∧ (configured p → calls p' = calls p ++ [ListKnowledgeBases]).
Proof.
  unfold testConnection, tryCatch. unfold bind at 1. unfold makeApiRequest.
  unfold configured.
  destruct (truthy (openwebuiUrl (settings p))) eqn:Hurl;
    [destruct (truthy (apiToken (settings p))) eqn:Htoken|]; cbn [negb orb].
  - destruct (listReply (remote host) (calls p)) as [e|status text json];
      cbn [failureOf]; [|destruct (400 <=? status)%N];
      eexists _, _; (split; [reflexivity|]); cbn;
      intuition congruence.
  - eexists _, _. split; [reflexivity|]. cbn. intuition congruence.
  - eexists _, _. split; [reflexivity|]. cbn. intuition congruence.
Qed.

Local Open Scope Z_scope.
Local Open Scope method_scope.

(** ** A document that is new to the plugin *)

Section NewDocument.

Context (host : Host).

Lemma addToKnowledgeBases_memberships targetKBs newRecord p r p' :
  addToKnowledgeBases host targetKBs newRecord p = (Ok r, p') →
  ∀ kb, kb ∈ knowledgeBases r →
        kb ∈ knowledgeBases newRecord ∨ kb ∈ targetKBs.
Proof.
  revert newRecord p.
  induction targetKBs as [|kbName rest IH]; intros newRecord p;
    cbn [addToKnowledgeBases].
  - intros [= <- <-] kb Hkb. by left.
  - unfold bind at 1.
    match goal with |- context [tryCatch ?m ?h p] =>
      assert (Hret : returns (λ r1, ∀ kb, kb ∈ knowledgeBases r1 →
                        kb ∈ knowledgeBases newRecord ∨ kb = kbName)
                       (tryCatch m h));
      [|destruct (tryCatch m h p) as [[r1|e] p1] eqn:E; [|done]]
    end.
    { apply returns_tryCatch.
      - repeat (apply returns_bind; intros ?). apply returns_ret.
        destruct (arrIncludes _ _); intros kb Hkb; [by left|].
        cbn in Hkb. apply elem_of_app in Hkb as [?|Hkb]; [by left|].
        right. by apply list_elem_of_singleton in Hkb.
      - intros e. apply returns_bind. intros _. apply returns_ret.
        intros kb Hkb. by left. }
    intros Hrun kb Hkb.
    destruct (IH r1 p1 Hrun kb Hkb) as [Hkb1|Hrest].
    + destruct (Hret _ _ _ E kb Hkb1) as [? | ->]; [by left|].
      right. apply list_elem_of_here.
    + right. by apply list_elem_of_further.
Qed.

(** What was read for the hash is what is uploaded. *)
Lemma readAndHash_content file config content hash :
  readAndHash host file config = Ok (content, hash) →
  readAndProcess host file = Ok content
  ∧ hash = generateContentHash content.
Proof.
  unfold readAndHash, readAndProcess.
  destruct (vaultRead file) as [raw|e]; [|done].
  destruct (match config with Some _ => _ | None => _ end); [done|].
  destruct (processLinks host raw) as [content'|e]; [|done].
  by intros [= <- <-].
Qed.

(** The upload step for a content that changed. *)
Lemma uploadIfNeeded_changed file c content q :
  c_contentChanged c = true →
  c_content c = content → readAndProcess host file = Ok content →
  let stableFilename :=
    generateStableFilename (name file) (c_contentHash c) in
  uploadIfNeeded host file c q
  = match uploadFile host stableFilename content q with
    | (Ok uploadedId, q') =>
        (Ok (Some {| fileId := uploadedId;
                     uploadedFilename := stableFilename;
                     contentHash := c_contentHash c;
                     lastModified := c_lastModified c;
                     knowledgeBases := [] |}), q')
    | (Throw e, q') => (Throw e, q')
    end.
Proof.
  intros Hcc Hcontent Hread stableFilename.
  unfold uploadIfNeeded. rewrite Hcc. cbn [orb].
  unfold tryCatch. unfold bind at 1.
  assert ((if truthy (c_content c) then ret (c_content c)
           else liftResult (readAndProcess host file)) q = (Ok content, q))
    as ->.
  { rewrite Hcontent, Hread. by destruct (truthy content). }
  unfold bind at 1. fold stableFilename.
  by destruct (uploadFile host stableFilename content q) as [[id|e] q'].
Qed.

Lemma uploadFile_run filename content q :
  uploadFile host filename content q
  = (match uploadReply (remote host) (calls q) filename content with
     | Rejected message => Throw message
     | Response status text id =>
         if ((200 <=? status) && (status <=? 299))%N then Ok id
         else if (status =? 400)%N && includes (lit "Duplicate content") text
         then Throw (lit "Duplicate content detected for " ++ filename
                     ++ lit ". The file content already exists in OpenWebUI.")
         else Throw (lit "Upload failed: " ++ toString10 status
                     ++ lit " " ++ text)
     end, withCall (UploadFile filename content) q).
Proof.
  unfold uploadFile.
  destruct (uploadReply _ _ _ _) as [e|status text id]; [done|].
  by repeat destruct (_ && _).
Qed.

End NewDocument.

(** The first reconciliation of a document.  The document has no record
    and reads with content [content] and hash [hash].  Then one upload
    request is sent, first of all, with the stable name of the document and
    that content.  If it is answered with a status from 200 to 299, the
    reconciliation returns: the record holds the id of the answer, the
    stable name, the hash and the modification time, and memberships among
    the declared names only; what follows the upload are list requests,
    create requests and additions of the new id; the stored names are the
    sorted declared names, and the settings are saved.  If not, the
    reconciliation throws, and nothing is recorded or saved. *)
Theorem syncFileWithStateTracking_new_document (host : Host) (file : TFile)
    (declared : list jsstring) (config : option SyncConfig) (p : Plugin)
    (content hash : jsstring) (r : Result unit) (p' : Plugin) :
  let filePath := normalizePath host (path file) in
  let stableFilename := generateStableFilename (name file) hash in
  fileMapping (settings p) !! filePath = None →
  readAndHash host file config = Ok (content, hash) →
  syncFileWithStateTracking host file declared config p = (r, p') →
  match uploadReply (remote host) (calls p) stableFilename content with
  | Response status _ newId =>
      (200 ≤ status ≤ 299)%N →
      r = Ok tt
      ∧ (∃ new, calls p' = calls p ++ UploadFile stableFilename content :: new
                ∧ Forall (attachCall newId) new)
      ∧ (∃ record,
           fileMapping (settings p') !! filePath = Some record
           ∧ fileId record = newId
           ∧ uploadedFilename record = stableFilename
           ∧ contentHash record = hash
           ∧ lastModified record = modifiedOf host file p
           ∧ ∀ kb, kb ∈ knowledgeBases record → kb ∈ declared)
      ∧ syncState (settings p') !! filePath = Some (jsSort declared)
      ∧ saved p' = settings p'
  | Rejected _ => True
  end
  ∧ (match uploadReply (remote host) (calls p) stableFilename content with
     | Response status _ _ => ¬ (200 ≤ status ≤ 299)%N
     | Rejected _ => True
     end →
     (∃ e, r = Throw e)
     ∧ calls p' = calls p ++ [UploadFile stableFilename content]
     ∧ fileMapping (settings p') !! filePath = None
     ∧ saved p' = saved p).
Proof.
  intros filePath stableFilename Hnew Hread Hrun.
  destruct (readAndHash_content host file config content hash Hread)
    as [Hprocess Hhash].
  unfold syncFileWithStateTracking in Hrun. unfold bind at 1 in Hrun.
  rewrite detectChanges_eq in Hrun.
  assert (Hro : readOf host file config p = Ok (content, hash)).
  { unfold readOf. fold filePath. by rewrite Hnew. }
  rewrite Hro in Hrun. fold filePath in Hrun.
  set (c := changesOf host file declared p (content, hash)) in Hrun.
  set (q0 := sortStored filePath (afterClock host file p)) in Hrun.
  assert (Hcc : c_contentChanged c = true).
  { unfold c, changesOf. cbn. fold filePath. by rewrite Hnew. }
  assert (Hprev : c_previousRecord c = None) by exact Hnew.
  rewrite Hcc in Hrun. cbn [negb andb] in Hrun.
  assert (Hcalls0 : calls q0 = calls p) by apply calls_detected.
  assert (Hmap0 : fileMapping (settings q0) = fileMapping (settings p))
    by apply fileMapping_detected.
  assert (Hsaved0 : saved q0 = saved p) by apply saved_detected.
  unfold applyChanges in Hrun. unfold bind at 1 in Hrun.
  unfold removeOutdated in Hrun. rewrite Hprev in Hrun.
  unfold ret at 1 in Hrun. unfold bind at 1 in Hrun.
  rewrite (uploadIfNeeded_changed host file c content q0 Hcc eq_refl Hprocess)
    in Hrun.
  change (c_contentHash c) with hash in Hrun. fold stableFilename in Hrun.
  rewrite uploadFile_run, Hcalls0 in Hrun.
  set (q1 := withCall (UploadFile stableFilename content) q0) in Hrun.
  assert (Hfailed : calls q1 = calls p ++ [UploadFile stableFilename content]
                    ∧ fileMapping (settings q1) !! filePath = None
                    ∧ saved q1 = saved p).
  { split; [|split].
    - unfold q1. cbn [calls withCall]. by rewrite Hcalls0.
    - change (settings q1) with (settings q0). by rewrite Hmap0.
    - exact Hsaved0. }
  destruct (uploadReply (remote host) (calls p) stableFilename content)
    as [message|status text newId].
  - split; [done|]. intros _. injection Hrun as <- <-.
    split; [by eexists|done].
  - destruct (N.leb_spec 200 status) as [Hlo|Hlo];
      [destruct (N.leb_spec status 299) as [Hhi|Hhi]|]; cbn [andb] in Hrun.
    + split; [|intros Hbad; lia]. intros _.
      unfold bind at 1 in Hrun. unfold bind at 1 in Hrun.
      set (r0 := {| fileId := newId; uploadedFilename := stableFilename;
                    contentHash := hash; lastModified := c_lastModified c;
                    knowledgeBases := [] |}) in Hrun.
      destruct (addToKnowledgeBases_returns host (attachCall newId)
                  (targetKBs c) r0 q1)
        as (r' & q3 & Hadd & Hfr & Hid & Hname & Hrhash & Hmod);
        [done..|].
      rewrite Hadd in Hrun. unfold ret at 1 in Hrun.
      rewrite updateState_eq in Hrun. injection Hrun as <- <-.
      split; [done|].
      destruct (frame_calls _ _ _ Hfr) as (new & Hcalls & Hattach).
      split.
      { exists new. split; [|done].
        change (calls (persisted c (Some r') q3)) with (calls q3).
        rewrite Hcalls. destruct Hfailed as [-> _].
        by rewrite <- app_assoc. }
      split.
      { exists r'. split; [cbn; apply lookup_insert_eq|].
        repeat split; try done.
        intros kb Hkb.
        destruct (addToKnowledgeBases_memberships host _ _ _ _ _ Hadd kb Hkb)
          as [Hin|Hin]; [by apply elem_of_nil in Hin|].
        unfold targetKBs in Hin. rewrite Hcc in Hin.
        change (c_currentKBs c) with (jsSort declared) in Hin.
        by rewrite jsSort_elem in Hin. }
      split; [cbn; apply lookup_insert_eq|done].
    + split; [intros ?; lia|]. intros _.
      destruct (_ && _); injection Hrun as <- <-;
        (split; [by eexists|done]).
    + split; [intros ?; lia|]. intros _.
      destruct (_ && _); injection Hrun as <- <-;
        (split; [by eexists|done]).
Qed.

Lemma syncFileWithStateTracking_new_document_witness :
  let host := hostOf obligingRemote [noteFile] in
  let run := syncFileWithStateTracking host noteFile [lit "Docs"] None
               freshPlugin in
  ∃ record,
    fileMapping (settings run.2) !! lit "Note.md" = Some record
    ∧ fileId record = lit "file-0"
    ∧ uploadedFilename record = lit "Note_7d24db04.md".
Proof.
  intros host run.
  assert (Hrun : syncFileWithStateTracking host noteFile [lit "Docs"] None
                   freshPlugin = (Ok tt, run.2))
    by (vm_compute; reflexivity).
  assert (Hreply : uploadReply (remote host) (calls freshPlugin)
                     (generateStableFilename (name noteFile) (lit "7d24db04"))
                     (lit "Body of the note #kb/docs")
                   = Response 200 [] (lit "file-0"))
    by (vm_compute; reflexivity).
  pose proof (syncFileWithStateTracking_new_document host noteFile
                [lit "Docs"] None freshPlugin (lit "Body of the note #kb/docs")
                (lit "7d24db04") (Ok tt) run.2) as Hthm.
  cbv zeta in Hthm.
  specialize (Hthm ltac:(reflexivity) ltac:(vm_compute; reflexivity) Hrun).
  destruct Hthm as [Hok _]. rewrite Hreply in Hok.
  destruct Hok as (_ & _ & (record & Hrec & Hid & Hname & _) & _).
  { split; discriminate. }
  exists record. split; [exact Hrec|split; [exact Hid|]].
  rewrite Hname. vm_compute. reflexivity.
Defined.

(** A document over the size limit of the connection is refused before
    anything is sent: when its content has to be read (no record, or
    another modification time) and has more UTF-16 code units than a
    positive [maxFileSize], the reconciliation throws "File too large" and
    leaves the plugin object as it is, but for the reading of the clock. *)
Theorem syncFileWithStateTracking_file_too_large (host : Host) (file : TFile)
    (declared : list jsstring) (config : SyncConfig) (p : Plugin)
    (rawContent : jsstring) :
  vaultRead file = Ok rawContent →
  0 < maxFileSize config < Z.of_nat (length rawContent) →
  timeChangedOf host file p
    (fileMapping (settings p) !! normalizePath host (path file)) = true →
  syncFileWithStateTracking host file declared (Some config) p
  = (Throw (lit "File too large (" ++ toFixed2MB (Z.of_nat (length rawContent))
            ++ lit "MB > " ++ toFixed2MB (maxFileSize config)
            ++ lit "MB limit on current connection)"),
     afterClock host file p).
Proof.
  intros Hread [Hpos Hsize] Htime.
  unfold syncFileWithStateTracking. unfold bind at 1.
  rewrite detectChanges_eq. unfold readOf. rewrite Htime.
  unfold readAndHash. rewrite Hread.
  destruct (Z.ltb_spec 0 (maxFileSize config)); [|lia].
  destruct (Z.ltb_spec (maxFileSize config) (Z.of_nat (length rawContent)));
    [|lia].
  done.
Qed.

Lemma syncFileWithStateTracking_file_too_large_witness :
  syncFileWithStateTracking (hostOf obligingRemote [noteFile]) noteFile
    [lit "Docs"] (Some {| maxFileSize := 10; configBatchSize := 5;
                          maxConcurrent := 1 |}) freshPlugin
  = (Throw (lit "File too large (0.00MB > 0.00MB limit on current connection)"),
     freshPlugin).
Proof.
  apply (syncFileWithStateTracking_file_too_large
           (hostOf obligingRemote [noteFile]) noteFile [lit "Docs"]
           {| maxFileSize := 10; configBatchSize := 5; maxConcurrent := 1 |}
           freshPlugin (lit "Body of the note #kb/docs")).
  - reflexivity.
  - vm_compute. split; reflexivity.
  - reflexivity.
Defined.

Local Open Scope Z_scope.
Local Open Scope method_scope.

(** ** The scan of the vault *)

(** The scan stops at the first file that cannot be read, and throws what
    the reading threw. *)
Lemma findFilesWithKBTags_unreadable (good : list TFile) (bad : TFile)
    (rest : list TFile) (e : jsstring) (p : Plugin) :
  Forall (λ f, ∃ content, vaultRead f = Ok content) good →
  vaultRead bad = Throw e →
  findFilesWithKBTags (good ++ bad :: rest) p = (Throw e, p).
Proof.
  intros Hgood Hbad.
  induction Hgood as [|f good [content Hf] _ IH]; cbn [app findFilesWithKBTags].
  - unfold bind, liftResult. by rewrite Hbad.
  - unfold bind at 1, liftResult. rewrite Hf. unfold bind at 1.
    by rewrite IH.
Qed.

Lemma cleanupDeletedFiles_neverThrows host : neverThrows (cleanupDeletedFiles host).
Proof.
  unfold cleanupDeletedFiles.
  apply neverThrows_bind; [apply neverThrows_gets|]. intros tracked.
  apply neverThrows_bind; [|intros _; apply neverThrows_modify].
  apply neverThrows_forEach. intros filePath.
  destruct (bool_decide _); [apply neverThrows_ret|].
  apply neverThrows_bind; [apply neverThrows_gets|]. intros [r|].
  - apply neverThrows_bind; [|intros _; apply neverThrows_modify].
    apply removeFileFromAllKnowledgeBases_neverThrows.
  - apply neverThrows_bind; [apply neverThrows_ret|].
    intros _. apply neverThrows_modify.
Qed.

(** One markdown file that cannot be read makes the whole pass fail: the
    clean-up of the deleted files is done, the scan of the vault throws,
    and the pass ends with the error flag set and the Notice "Sync failed";
    no document is reconciled. *)
Theorem performSyncOperation_unreadable_file (host : Host) (p : Plugin)
    (good : list TFile) (bad : TFile) (rest : list TFile) (e : jsstring) :
  markdownFiles host = good ++ bad :: rest →
  Forall (λ f, ∃ content, vaultRead f = Ok content) good →
  vaultRead bad = Throw e →
  ∃ p1,
    cleanupDeletedFiles host p = (Ok tt, p1)
    ∧ performSyncOperation host p
      = (Ends (Ok tt),
         withNotice (lit "Sync failed: " ++ e)
           (withSyncStatus
              (fun s => {| synced := synced s; total := total s;
                           issyncing := false; error := true |}) p1)).
Proof.
  intros Hfiles Hgood Hbad.
  destruct (cleanupDeletedFiles_neverThrows host p) as ([] & p1 & Hclean).
  exists p1. split; [done|].
  unfold performSyncOperation, tryCatchP. unfold bindP at 1, liftP at 1.
  rewrite Hclean. unfold bindP at 1, liftP at 1. rewrite Hfiles.
  by rewrite (findFilesWithKBTags_unreadable good bad rest e p1 Hgood Hbad).
Qed.

Lemma performSyncOperation_unreadable_file_witness :
  let locked :=
    {| path := lit "Locked.md"; name := lit "Locked.md"; mtime := 1;
       vaultRead := Throw (lit "EACCES: permission denied") |} in
  let host := hostOf obligingRemote [noteFile; locked] in
  (performSyncOperation host freshPlugin).1 = Ends (Ok tt)
  ∧ notices (performSyncOperation host freshPlugin).2
    = [lit "Sync failed: EACCES: permission denied"]
  ∧ calls (performSyncOperation host freshPlugin).2 = [].
Proof.
  intros locked host.
  destruct (performSyncOperation_unreadable_file host freshPlugin
              [noteFile] locked [] (lit "EACCES: permission denied"))
    as (p1 & Hclean & ->).
  - reflexivity.
  - repeat constructor. by eexists.
  - reflexivity.
  - vm_compute in Hclean. injection Hclean as <-. by vm_compute.
Defined.

(** *** The groups of a pass *)

Lemma groupOf_groupPush filePath kb fileGroups filePath' :
  groupOf filePath' (groupPush filePath kb fileGroups)
  = if decide (filePath' = filePath)
    then groupOf filePath fileGroups ++ [kb]
    else groupOf filePath' fileGroups.
Proof.
  unfold groupOf. induction fileGroups as [|[k kbs] G IH].
  - cbn. by repeat (case_bool_decide || case_decide); simplify_eq/=.
  - cbn [groupPush]. destruct (decide (k = filePath)) as [->|Hk].
    + rewrite bool_decide_eq_true_2 by done. cbn.
      by repeat (case_bool_decide || case_decide); simplify_eq/=.
    + rewrite (bool_decide_eq_false_2 (k = filePath)) by done.
      cbn [List.find fst].
      rewrite (bool_decide_eq_false_2 (k = filePath)) by done.
      destruct (decide (k = filePath')) as [->|Hk'].
      * rewrite bool_decide_eq_true_2 by done. cbn.
        by rewrite decide_False.
      * rewrite bool_decide_eq_false_2 by done. exact IH.
Qed.

Lemma groupPush_paths filePath kb fileGroups :
  map fst (groupPush filePath kb fileGroups)
  = if decide (filePath ∈ map fst fileGroups) then map fst fileGroups
    else map fst fileGroups ++ [filePath].
Proof.
  induction fileGroups as [|[k kbs] G IH]; cbn [groupPush map fst].
  - rewrite decide_False; [done|]. apply not_elem_of_nil.
  - destruct (decide (k = filePath)) as [->|Hk].
    + rewrite bool_decide_eq_true_2 by done.
      rewrite decide_True; [done|]. apply list_elem_of_here.
    + rewrite bool_decide_eq_false_2 by done. cbn [map fst]. rewrite IH.
      destruct (decide (filePath ∈ map fst G)) as [Hin|Hout].
      * rewrite decide_True; [done|]. by apply list_elem_of_further.
      * rewrite decide_False; [done|].
        intros [?|?]%elem_of_cons; congruence.
Qed.

Lemma namesFor_snoc filePath items (file : TFile) kb :
  namesFor filePath (items ++ [(file, kb)])
  = if decide (filePath = path file) then namesFor filePath items ++ [kb]
    else namesFor filePath items.
Proof.
  unfold namesFor. rewrite filter_app, map_app.
  rewrite filter_cons, filter_nil. cbn [fst].
  destruct (decide (filePath = path file)) as [->|Hne].
  - by rewrite decide_True.
  - rewrite decide_False by done. by rewrite app_nil_r.
Qed.

(** What the loop that builds the groups keeps true. *)
Lemma groupByFile_invariant (items done : list (TFile * jsstring))
    (fileGroups : list (jsstring * list jsstring)) :
  NoDup (map fst fileGroups) →
  (∀ filePath, groupOf filePath fileGroups = namesFor filePath done) →
  (∀ filePath, filePath ∈ map fst fileGroups
               ↔ ∃ item, item ∈ done ∧ path item.1 = filePath) →
  let result :=
    fold_left (λ groups item, groupPush (path item.1) item.2 groups)
      items fileGroups in
  NoDup (map fst result)
  ∧ (∀ filePath, groupOf filePath result = namesFor filePath (done ++ items))
  ∧ (∀ filePath, filePath ∈ map fst result
                 ↔ ∃ item, item ∈ done ++ items ∧ path item.1 = filePath).
Proof.
  revert done fileGroups.
  induction items as [|[file kb] items IH];
    intros done fileGroups Hnd Hgroups Hpaths; cbn [fold_left].
  - by rewrite app_nil_r.
  - cbn [fst snd].
    replace (done ++ (file, kb) :: items)
      with ((done ++ [(file, kb)]) ++ items) by by rewrite <- app_assoc.
    apply IH.
    + rewrite groupPush_paths.
      destruct (decide (path file ∈ map fst fileGroups)); [done|].
      apply NoDup_app. split; [done|]. split; [|apply NoDup_singleton].
      intros k Hk ->%list_elem_of_singleton. done.
    + intros filePath. rewrite groupOf_groupPush, namesFor_snoc.
      destruct (decide (filePath = path file)) as [->|Hne]; [|done].
      by rewrite Hgroups.
    + intros filePath. rewrite groupPush_paths.
      assert (Hsnoc : (∃ item, item ∈ done ++ [(file, kb)]
                               ∧ path item.1 = filePath)
                      ↔ filePath ∈ map fst fileGroups ∨ filePath = path file).
      { rewrite Hpaths. split.
        - intros (item & Hin & Hp). apply elem_of_app in Hin as [Hin|Hin].
          + left. by exists item.
          + apply list_elem_of_singleton in Hin as ->. by right.
        - intros [(item & Hin & Hp)| ->].
          + exists item. split; [|done]. apply elem_of_app. by left.
          + exists (file, kb). split; [|done]. apply elem_of_app. right.
            apply list_elem_of_here. }
      rewrite Hsnoc.
      destruct (decide (path file ∈ map fst fileGroups)) as [Hin|Hout].
      * split; [by left|]. by intros [?| ->].
      * rewrite elem_of_app, list_elem_of_singleton. done.
Qed.

Lemma groupOf_elem filePath kbs fileGroups :
  NoDup (map fst fileGroups) → (filePath, kbs) ∈ fileGroups →
  groupOf filePath fileGroups = kbs.
Proof.
  unfold groupOf. induction fileGroups as [|[k l] G IH]; intros Hnd Hin.
  - by apply elem_of_nil in Hin.
  - cbn [map fst] in Hnd. apply NoDup_cons in Hnd as [Hk Hnd].
    apply elem_of_cons in Hin as [[= <- <-]|Hin].
    + cbn. by rewrite bool_decide_eq_true_2.
    + cbn. rewrite bool_decide_eq_false_2; [by apply IH|].
      intros ->. apply Hk. apply list_elem_of_fmap. by exists (filePath, kbs).
Qed.

(** The groups of a pass: one group for every path that has an item, no
    path twice, and in the group of a path the names of all its items, in
    their order. *)
Theorem groupByFile_groups (filesToSync : list (TFile * jsstring)) :
  NoDup (map fst (groupByFile filesToSync))
  ∧ (∀ filePath kbs,
       (filePath, kbs) ∈ groupByFile filesToSync →
       kbs = namesFor filePath filesToSync ∧ kbs ≠ [])
  ∧ (∀ item, item ∈ filesToSync →
       path item.1 ∈ map fst (groupByFile filesToSync)).
Proof.
  destruct (groupByFile_invariant filesToSync [] [])
    as (Hnd & Hgroups & Hpaths).
  { apply NoDup_nil_2. }
  { done. }
  { intros filePath. split; [by intros ?%elem_of_nil|].
    by intros (item & ?%elem_of_nil & _). }
  cbn [app] in Hgroups, Hpaths. fold (groupByFile filesToSync) in *.
  split; [exact Hnd|]. split.
  - intros filePath kbs Hin.
    assert (Hkbs : kbs = namesFor filePath filesToSync).
    { rewrite <- Hgroups. symmetry. by apply groupOf_elem. }
    split; [exact Hkbs|].
    assert (Hkey : filePath ∈ map fst (groupByFile filesToSync)).
    { apply list_elem_of_fmap. by exists (filePath, kbs). }
    apply Hpaths in Hkey as (item & Hitem & Hpath).
    intros Hnil. rewrite Hnil in Hkbs. unfold namesFor in Hkbs.
    symmetry in Hkbs. apply fmap_nil_inv in Hkbs.
    assert (Hfiltered : item ∈ filter (λ item, path item.1 = filePath)
                                 filesToSync)
      by by apply list_elem_of_filter.
    rewrite Hkbs in Hfiltered. by apply elem_of_nil in Hfiltered.
  - intros item Hin. apply Hpaths. by exists item.
Qed.

Local Open Scope Z_scope.
Local Open Scope method_scope.

(** ** A document whose content changed *)

Section ChangedDocument.

Context (host : Host).

(** The removal of an upload, step by step: the loop over the
    memberships, then the deletion, which is the one request sent when the
    URL and the token are set. *)
Lemma removeFileFromAllKnowledgeBases_run filePath record p :
  ∃ q p',
    removeFileFromAllKnowledgeBases host filePath record p = (Ok tt, p')
    ∧ Frame (retireCall (fileId record)) p q
    ∧ Frame (retireCall (fileId record)) q p'
    ∧ (configured p → p' = withCall (DeleteFile (fileId record)) q).
Proof.
  unfold removeFileFromAllKnowledgeBases. unfold bind at 1.
  match goal with |- context [forEach ?l ?body p] =>
    assert (preserves (Frame (retireCall (fileId record))) (forEach l body)
            ∧ neverThrows (forEach l body)) as [Hloop Hnever]
  end.
  { split.
    - repeat frame_step. by apply removeFileFromKnowledgeBase_frame.
    - apply neverThrows_forEach. intros kbName.
      apply neverThrows_tryCatch. intros e. apply neverThrows_ret. }
  destruct (Hnever p) as ([] & q & Eloop). rewrite Eloop.
  assert (preserves (Frame (retireCall (fileId record)))
            (tryCatch (deleteFileFromOpenWebUI host (fileId record))
               (λ _, logged))
          ∧ neverThrows
              (tryCatch (deleteFileFromOpenWebUI host (fileId record))
                 (λ _, logged))) as [Hdelete Hnever'].
  { split.
    - repeat frame_step. by apply deleteFileFromOpenWebUI_frame.
    - apply neverThrows_tryCatch. intros e. apply neverThrows_ret. }
  destruct (Hnever' q) as ([] & p' & Edelete). rewrite Edelete.
  exists q, p'. split; [done|].
  split; [exact (Hloop _ _ _ Eloop)|].
  split; [exact (Hdelete _ _ _ Edelete)|].
  intros Hconf.
  assert (Hq : configured q).
  { eapply configured_frame; [exact (Hloop _ _ _ Eloop)|exact Hconf]. }
  unfold tryCatch in Edelete.
  rewrite (deleteFileFromOpenWebUI_configured host _ q Hq) in Edelete.
  by injection Edelete as <-.
Qed.

Lemma configured_detected (filePath : jsstring) file p :
  configured p → configured (sortStored filePath (afterClock host file p)).
Proof. unfold afterClock. by destruct (mtime file =? 0). Qed.

End ChangedDocument.

(** The reconciliation of a document whose content changed.  The document
    has a record, its modification time is not the recorded one, and it
    reads with a hash other than the recorded one.  If the reconciliation
    returns, it has first taken the old upload out of the service (list
    requests, removals and the deletion of the old id, the deletion coming
    last when the URL and the token are set), then uploaded the content
    under the new stable name, and then attached the new id; the record
    holds the new id, name and hash, memberships among the declared names
    only, and the settings are saved. *)
Theorem syncFileWithStateTracking_changed_document (host : Host) (file : TFile)
    (declared : list jsstring) (config : option SyncConfig) (p : Plugin)
    (record : OpenWebUIFileRecord) (content hash : jsstring) (p' : Plugin) :
  let filePath := normalizePath host (path file) in
  let stableFilename := generateStableFilename (name file) hash in
  fileMapping (settings p) !! filePath = Some record →
  lastModified record ≠ modifiedOf host file p →
  readAndHash host file config = Ok (content, hash) →
  hash ≠ contentHash record →
  syncFileWithStateTracking host file declared config p = (Ok tt, p') →
  ∃ retired attached status text newId record',
    calls p'
    = calls p ++ retired ++ UploadFile stableFilename content :: attached
    ∧ Forall (retireCall (fileId record)) retired
    ∧ (configured p → last retired = Some (DeleteFile (fileId record)))
    ∧ uploadReply (remote host) (calls p ++ retired) stableFilename content
      = Response status text newId
    ∧ (200 ≤ status ≤ 299)%N
    ∧ Forall (attachCall newId) attached
    ∧ fileMapping (settings p') !! filePath = Some record'
    ∧ fileId record' = newId
    ∧ uploadedFilename record' = stableFilename
    ∧ contentHash record' = hash
    ∧ (∀ kb, kb ∈ knowledgeBases record' → kb ∈ declared)
    ∧ syncState (settings p') !! filePath = Some (jsSort declared)
    ∧ saved p' = settings p'.
Proof.
  intros filePath stableFilename Hrec Htime Hread Hhash Hrun.
  destruct (readAndHash_content host file config content hash Hread)
    as [Hprocess _].
  unfold syncFileWithStateTracking in Hrun. unfold bind at 1 in Hrun.
  rewrite detectChanges_eq in Hrun.
  assert (Htc : timeChangedOf host file p (Some record) = true).
  { cbn. by destruct (Z.eqb_spec (lastModified record) (modifiedOf host file p)). }
  assert (Hro : readOf host file config p = Ok (content, hash)).
  { unfold readOf. fold filePath. by rewrite Hrec, Htc. }
  rewrite Hro in Hrun. fold filePath in Hrun.
  set (c := changesOf host file declared p (content, hash)) in Hrun.
  set (q0 := sortStored filePath (afterClock host file p)) in Hrun.
  assert (Hcc : c_contentChanged c = true).
  { unfold c, changesOf. cbn. fold filePath. rewrite Hrec, Htc. cbn.
    by rewrite bool_decide_eq_false_2. }
  assert (Hprev : c_previousRecord c = Some record) by exact Hrec.
  rewrite Hcc in Hrun. cbn [negb andb] in Hrun.
  assert (Hcalls0 : calls q0 = calls p) by apply calls_detected.
  unfold applyChanges in Hrun. unfold bind at 1 in Hrun.
  unfold removeOutdated in Hrun. rewrite Hprev, Hcc in Hrun.
  change (c_filePath c) with filePath in Hrun.
  destruct (removeFileFromAllKnowledgeBases_run host filePath record q0)
    as (qa & q1 & Hremove & Hfra & Hfrb & Hlast).
  rewrite Hremove in Hrun. unfold bind at 1 in Hrun.
  rewrite (uploadIfNeeded_changed host file c content q1 Hcc eq_refl Hprocess)
    in Hrun.
  change (c_contentHash c) with hash in Hrun. fold stableFilename in Hrun.
  rewrite uploadFile_run in Hrun.
  set (q2 := withCall (UploadFile stableFilename content) q1) in Hrun.
  destruct (frame_calls _ _ _ Hfra) as (newa & Hcallsa & Hnewa).
  destruct (frame_calls _ _ _ Hfrb) as (newb & Hcallsb & Hnewb).
  assert (Hcalls1 : calls q1 = calls p ++ newa ++ newb).
  { by rewrite Hcallsb, Hcallsa, Hcalls0, app_assoc. }
  assert (Hlast' : configured p → last (newa ++ newb)
                                  = Some (DeleteFile (fileId record))).
  { intros Hconf. specialize (Hlast (configured_detected host _ _ _ Hconf)).
    rewrite Hlast in Hcallsb. cbn [calls withCall] in Hcallsb.
    apply app_inv_head in Hcallsb as <-. by rewrite last_snoc. }
  destruct (uploadReply (remote host) (calls q1) stableFilename content)
    as [message|status text newId] eqn:Hreply; [done|].
  destruct (N.leb_spec 200 status) as [Hlo|Hlo];
    [destruct (N.leb_spec status 299) as [Hhi|Hhi]|]; cbn [andb] in Hrun;
    [|by destruct (_ && _)..].
  unfold bind at 1 in Hrun. unfold bind at 1 in Hrun.
  set (r0 := {| fileId := newId; uploadedFilename := stableFilename;
                contentHash := hash; lastModified := c_lastModified c;
                knowledgeBases := [] |}) in Hrun.
  destruct (addToKnowledgeBases_returns host (attachCall newId)
              (targetKBs c) r0 q2)
    as (r' & q3 & Hadd & Hfr & Hid & Hname & Hrhash & Hmod); [done..|].
  rewrite Hadd in Hrun. unfold ret at 1 in Hrun.
  rewrite updateState_eq in Hrun. injection Hrun as <-.
  destruct (frame_calls _ _ _ Hfr) as (attached & Hcalls & Hattach).
  exists (newa ++ newb), attached, status, text, newId, r'.
  split.
  { change (calls (persisted c (Some r') q3)) with (calls q3).
    rewrite Hcalls. unfold q2. cbn [calls withCall]. rewrite Hcalls1.
    by rewrite <- !app_assoc. }
  split; [by apply Forall_app|]. split; [exact Hlast'|].
  split; [by rewrite <- Hcalls1|]. split; [done|].
  split; [exact Hattach|].
  split; [cbn; apply lookup_insert_eq|].
  split; [exact Hid|]. split; [exact Hname|]. split; [exact Hrhash|].
  split.
  { intros kb Hkb.
    destruct (addToKnowledgeBases_memberships host _ _ _ _ _ Hadd kb Hkb)
      as [Hin|Hin]; [by apply elem_of_nil in Hin|].
    unfold targetKBs in Hin. rewrite Hcc in Hin.
    change (c_currentKBs c) with (jsSort declared) in Hin.
    by rewrite jsSort_elem in Hin. }
  split; [cbn; apply lookup_insert_eq|done].
Qed.

Lemma syncFileWithStateTracking_changed_document_witness :
  let host := hostOf obligingRemote [noteFile] in
  let run := syncFileWithStateTracking host noteFile [lit "Docs"] None
               trackedPlugin in
  ∃ retired attached record',
    calls run.2
    = calls trackedPlugin ++ retired
      ++ UploadFile (lit "Note_7d24db04.md") (lit "Body of the note #kb/docs")
         :: attached
    ∧ last retired = Some (DeleteFile (lit "file-0"))
    ∧ fileMapping (settings run.2) !! lit "Note.md" = Some record'
    ∧ contentHash record' = lit "7d24db04".
Proof.
  intros host run.
  destruct (syncFileWithStateTracking_changed_document host noteFile
              [lit "Docs"] None trackedPlugin
              {| fileId := lit "file-0";
                 uploadedFilename := lit "Note_1a2b3c4d.md";
                 contentHash := lit "1a2b3c4d";
                 lastModified := 1699999000000;
                 knowledgeBases := [lit "Docs"] |}
              (lit "Body of the note #kb/docs") (lit "7d24db04") run.2)
    as (retired & attached & _ & _ & _ & record' & Hcalls & _ & Hlast & _ & _
        & _ & Hrec & _ & _ & Hhash & _).
  - vm_compute. reflexivity.
  - vm_compute. discriminate.
  - vm_compute. reflexivity.
  - vm_compute. discriminate.
  - vm_compute. reflexivity.
  - exists retired, attached, record'. split; [exact Hcalls|].
    split; [|by split]. apply Hlast. split; reflexivity.
Defined.

(** ** How a pass begins and ends *)

(** A vault without tags: the scan finds nothing. *)
Lemma findFilesWithKBTags_no_tags (files : list TFile) (p : Plugin) :
  Forall (λ f, ∃ content, vaultRead f = Ok content
                          ∧ declaredKnowledgeBases content = []) files →
  findFilesWithKBTags files p = (Ok [], p).
Proof.
  induction 1 as [|f files (content & Hf & Hnone) _ IH];
    cbn [findFilesWithKBTags]; [done|].
  unfold bind at 1, liftResult. rewrite Hf. unfold bind at 1. rewrite IH.
  by rewrite Hnone.
Qed.

(** When no file of the vault has a tag, the pass ends after the clean-up
    of the deleted files with the Notice "No files found with #kb/ tags":
    [handleUntaggedFiles] is not run, so that the documents that the plugin
    tracks and whose files are still there stay tracked, and stay in their
    collections. *)
Theorem performSyncOperation_no_tags (host : Host) (p : Plugin) :
  Forall (λ f, ∃ content, vaultRead f = Ok content
                          ∧ declaredKnowledgeBases content = [])
    (markdownFiles host) →
  ∃ p1,
    cleanupDeletedFiles host p = (Ok tt, p1)
    ∧ performSyncOperation host p
      = (Ends (Ok tt), withNotice (lit "No files found with #kb/ tags") p1).
Proof.
  intros Hfiles.
  destruct (cleanupDeletedFiles_neverThrows host p) as ([] & p1 & Hclean).
  exists p1. split; [done|].
  unfold performSyncOperation, tryCatchP. unfold bindP at 1, liftP at 1.
  rewrite Hclean. unfold bindP at 1, liftP at 1.
  by rewrite (findFilesWithKBTags_no_tags _ p1 Hfiles).
Qed.

Lemma performSyncOperation_no_tags_witness :
  let untagged :=
    {| path := lit "Note.md"; name := lit "Note.md"; mtime := 1700000000000;
       vaultRead := Ok (lit "Body of the note, without its tag") |} in
  let run := performSyncOperation (hostOf obligingRemote [untagged])
               trackedPlugin in
  run.1 = Ends (Ok tt)
  ∧ notices run.2 = [lit "No files found with #kb/ tags"]
  ∧ calls run.2 = []
  ∧ is_Some (fileMapping (settings run.2) !! lit "Note.md").
Proof.
  intros untagged run.
  destruct (performSyncOperation_no_tags (hostOf obligingRemote [untagged])
              trackedPlugin) as (p1 & Hclean & Hrun).
  - repeat constructor. eexists. split; [reflexivity|]. by vm_compute.
  - unfold run. rewrite Hrun. vm_compute in Hclean. injection Hclean as <-.
    vm_compute. repeat split. by eexists.
Defined.

(** A trigger that is refused: without an API token, and over a cellular
    connection in WiFi-only mode, [syncToKnowledgeBase] shows a Notice and
    does nothing else; the pass body is not run. *)
Theorem syncToKnowledgeBase_refused (host : Host) (body : Pass unit)
    (p : Plugin) :
  syncMutex p = false →
  (truthy (apiToken (settings p)) = false →
   syncToKnowledgeBaseWith host body p
   = (Ends (Ok tt),
      withNotice (lit "Please configure OpenWebUI API token in settings") p))
  ∧ (truthy (apiToken (settings p)) = true →
     connectionType host = cellular →
     networkBehavior (mobile (settings p)) = wifi_only →
     syncToKnowledgeBaseWith host body p
     = (Ends (Ok tt),
        withNotice
          (lit "Sync blocked: WiFi-only mode enabled in mobile settings") p)).
Proof.
  intros Hfree. split.
  - intros Htoken. unfold syncToKnowledgeBaseWith.
    unfold bindP at 1, liftP at 1, gets.
    rewrite Hfree. unfold bindP at 1, liftP at 1. by rewrite Htoken.
  - intros Htoken Hconn Hmode. unfold syncToKnowledgeBaseWith.
    unfold bindP at 1, liftP at 1, gets. rewrite Hfree.
    unfold bindP at 1, liftP at 1.
    rewrite Htoken. cbn [negb]. unfold bindP at 1, liftP at 1, shouldAllowSync.
    rewrite Hconn. unfold bind at 1, gets. by rewrite Hmode.
Qed.

Lemma syncToKnowledgeBase_refused_witness :
  syncToKnowledgeBase (hostOf obligingRemote [noteFile])
    (pluginWith {| openwebuiUrl := lit "http://localhost:3000";
                   apiToken := lit ""; syncState := ∅; fileMapping := ∅;
                   mobile := defaultMobile |})
  = (Ends (Ok tt),
     withNotice (lit "Please configure OpenWebUI API token in settings")
       (pluginWith {| openwebuiUrl := lit "http://localhost:3000";
                      apiToken := lit ""; syncState := ∅; fileMapping := ∅;
                      mobile := defaultMobile |})).
Proof.
  apply (syncToKnowledgeBase_refused (hostOf obligingRemote [noteFile])).
  - reflexivity.
  - reflexivity.
Defined.

(** The warning about cellular data.  In the WiFi-preferred mode a pass
    over a cellular connection is never blocked; the warning is shown when
    more than ten minutes have passed since the last one, and a check that
    follows a warning within ten minutes shows none. *)
Theorem shouldAllowSync_cellular_warning (host : Host) (p : Plugin) :
  connectionType host = cellular →
  networkBehavior (mobile (settings p)) = wifi_preferred →
  let warning :=
    lit "Syncing over cellular data (change in mobile settings if needed)" in
  let first := shouldAllowSync host p in
  let second := shouldAllowSync host first.2 in
  first.1 = Ok None ∧ second.1 = Ok None
  ∧ (CELLULAR_WARNING_INTERVAL < clock host (ticks p) - lastCellularWarning p →
     notices first.2 = notices p ++ [warning]
     ∧ lastCellularWarning first.2 = clock host (S (ticks p))
     ∧ (clock host (S (S (ticks p))) - clock host (S (ticks p))
        ≤ CELLULAR_WARNING_INTERVAL →
        notices second.2 = notices first.2))
  ∧ (clock host (ticks p) - lastCellularWarning p ≤ CELLULAR_WARNING_INTERVAL →
     notices first.2 = notices p).
Proof.
  intros Hconn Hmode warning first second.
  assert (Hrun : ∀ q,
            networkBehavior (mobile (settings q)) = wifi_preferred →
            shouldAllowSync host q
            = (Ok None,
               if CELLULAR_WARNING_INTERVAL
                  <? clock host (ticks q) - lastCellularWarning q
               then withLastCellularWarning (clock host (S (ticks q)))
                      (withTick (withNotice warning (withTick q)))
               else withTick q)).
  { intros q Hq. unfold shouldAllowSync. rewrite Hconn.
    unfold bind at 1, gets. rewrite Hq.
    unfold bind at 1, dateNow. unfold bind at 1, gets.
    cbn [lastCellularWarning withTick].
    unfold bind at 1.
    by destruct (_ <? _). }
  assert (Hfirst := Hrun p Hmode). fold first in Hfirst.
  assert (Hmode1 : networkBehavior (mobile (settings first.2)) = wifi_preferred).
  { rewrite Hfirst. cbn [snd]. by destruct (_ <? _). }
  assert (Hsecond := Hrun first.2 Hmode1). fold second in Hsecond.
  split; [by rewrite Hfirst|]. split; [by rewrite Hsecond|]. split.
  - intros Hdue.
    assert (Hstate : first.2
                     = withLastCellularWarning (clock host (S (ticks p)))
                         (withTick (withNotice warning (withTick p)))).
    { rewrite Hfirst. cbn [snd].
      by destruct (Z.ltb_spec CELLULAR_WARNING_INTERVAL
                     (clock host (ticks p) - lastCellularWarning p)); [|lia]. }
    split; [by rewrite Hstate|]. split; [by rewrite Hstate|].
    intros Hsoon. rewrite Hsecond. cbn [snd]. rewrite Hstate.
    cbn [ticks lastCellularWarning withLastCellularWarning withTick
         withNotice].
    by destruct (Z.ltb_spec CELLULAR_WARNING_INTERVAL
                   (clock host (S (S (ticks p))) - clock host (S (ticks p))));
      [lia|].
  - intros Hrecent. rewrite Hfirst. cbn [snd].
    by destruct (Z.ltb_spec CELLULAR_WARNING_INTERVAL
                   (clock host (ticks p) - lastCellularWarning p)); [lia|].
Qed.

Lemma shouldAllowSync_cellular_warning_witness :
  let host :=
    {| remote := obligingRemote; clock n := 1700000000000 + Z.of_nat n;
       vaultName := lit "Vault"; normalizePath p := p;
       markdownFiles := []; connectionType := cellular;
       isMobileDevice := true; batteryLevel := inject_Z 80;
       documentHidden := false; schedule _ := [] |} in
  (shouldAllowSync host freshPlugin).1 = Ok None
  ∧ notices (shouldAllowSync host freshPlugin).2
    = [lit "Syncing over cellular data (change in mobile settings if needed)"].
Proof.
  intros host.
  destruct (shouldAllowSync_cellular_warning host freshPlugin)
    as (Hallowed & _ & Hdue & _).
  - reflexivity.
  - reflexivity.
  - split; [exact Hallowed|].
    destruct Hdue as [Hshown _]; [reflexivity|exact Hshown].
Defined.

(** * The methods with their suspensions *)

Local Open Scope Z_scope.
Local Open Scope method_scope.

(** ** Resumed without anything in between, a method is the method above *)

Lemma runTask_thenTask {A B} (t : Task A) (k : A → AsyncCall B) (p : Plugin) :
  (let (t', p') := thenTask t k p in runTask t' p')
  = match runTask t p with
    | (Ok a, p1) => run (k a) p1
    | (Throw e, p1) => (Throw e, p1)
    end.
Proof.
  revert p. induction t as [[a|e]|next IH effect]; intros p; cbn; [done..|].
  specialize (IH p (effect p)).
  by destruct (thenTask (next p) k (effect p)).
Qed.

Lemma run_bindA {A B} (m : AsyncCall A) (k : A → AsyncCall B) (p : Plugin) :
  run (bindA m k) p = bind (run m) (fun a => run (k a)) p.
Proof.
  unfold run at 1 2, bindA, bind. destruct (m p) as [t p0].
  apply runTask_thenTask.
Qed.

Lemma runTask_catchTask {A} (t : Task A) (handler : jsstring → AsyncCall A)
    (p : Plugin) :
  (let (t', p') := catchTask t handler p in runTask t' p')
  = match runTask t p with
    | (Ok a, p1) => (Ok a, p1)
    | (Throw e, p1) => run (handler e) p1
    end.
Proof.
  revert p. induction t as [[a|e]|next IH effect]; intros p; cbn; [done..|].
  specialize (IH p (effect p)).
  by destruct (catchTask (next p) handler (effect p)).
Qed.

Lemma run_tryCatchA {A} (m : AsyncCall A) (handler : jsstring → AsyncCall A)
    (p : Plugin) :
  run (tryCatchA m handler) p = tryCatch (run m) (fun e => run (handler e)) p.
Proof.
  unfold run at 1 2, tryCatchA, tryCatch. destruct (m p) as [t p0].
  apply runTask_catchTask.
Qed.

Lemma run_liftA {A} (m : M A) (p : Plugin) : run (liftA m) p = m p.
Proof. unfold run, liftA. by destruct (m p). Qed.

Lemma run_retA {A} (a : A) (p : Plugin) : run (retA a) p = ret a p.
Proof. reflexivity. Qed.

Lemma run_throwA {A} (e : jsstring) (p : Plugin) :
  run (@throwA A e) p = throw e p.
Proof. reflexivity. Qed.

Lemma run_suspend (p : Plugin) : run suspend p = ret tt p.
Proof. reflexivity. Qed.

Lemma runTask_settle {A} (t : Task A) (p : Plugin) :
  runTask (settle t) p = runTask t p.
Proof. revert p. induction t as [r|next IH effect]; intros p; cbn; done. Qed.

Lemma run_await {A} (m : AsyncCall A) (p : Plugin) : run (await m) p = run m p.
Proof. unfold run, await. destruct (m p). apply runTask_settle. Qed.

Lemma bind_ext {A B} (m m' : M A) (k k' : A → M B) (p : Plugin) :
  (∀ q, m q = m' q) → (∀ a q, k a q = k' a q) → bind m k p = bind m' k' p.
Proof.
  intros Hm Hk. unfold bind. rewrite Hm. by destruct (m' p) as [[a|e] q].
Qed.

Lemma tryCatch_ext {A} (m m' : M A) (h h' : jsstring → M A) (p : Plugin) :
  (∀ q, m q = m' q) → (∀ e q, h e q = h' e q) →
  tryCatch m h p = tryCatch m' h' p.
Proof.
  intros Hm Hh. unfold tryCatch. rewrite Hm. by destruct (m' p) as [[a|e] q].
Qed.

Lemma forEach_ext {A} (l : list A) (body body' : A → M unit) (p : Plugin) :
  (∀ x q, body x q = body' x q) → forEach l body p = forEach l body' p.
Proof.
  intros Hbody. revert p. induction l as [|x l IH]; intros p; [done|].
  cbn [forEach]. by apply bind_ext.
Qed.

Lemma run_forEachA {A} (l : list A) (body : A → AsyncCall unit) (p : Plugin) :
  run (forEachA l body) p = forEach l (fun x => run (body x)) p.
Proof.
  revert p. induction l as [|x l IH]; intros p; [done|].
  cbn [forEachA forEach]. rewrite run_bindA. by apply bind_ext.
Qed.

Ltac bridge :=
  repeat first
    [ rewrite run_bindA; apply bind_ext; [intros ?|intros ? ?]
    | rewrite run_tryCatchA; apply tryCatch_ext; [intros ?|intros ? ?]
    | rewrite run_forEachA; apply forEach_ext; intros ? ?
    | rewrite run_liftA
    | rewrite run_await
    | rewrite run_retA
    | rewrite run_throwA
    | rewrite run_suspend
    | reflexivity
    | match goal with
      | |- run (match ?x with _ => _ end) _ = _ => destruct x
      end ].

Section Bridge.

Context (host : Host).

Lemma run_saveSettings p : run Async.saveSettings p = saveSettings p.
Proof. reflexivity. Qed.

Lemma run_makeApiRequest {A} c (reply : list Call → Reply A) p :
  run (Async.makeApiRequest c reply) p = makeApiRequest c reply p.
Proof.
  unfold run, Async.makeApiRequest, makeApiRequest.
  destruct (negb _ || negb _); [done|].
  destruct (reply (calls p)) as [message|status text json]; cbn; [done|].
  by destruct (400 <=? status)%N.
Qed.

Lemma run_findKnowledgeBaseByName name p :
  run (Async.findKnowledgeBaseByName host name) p
  = findKnowledgeBaseByName host name p.
Proof.
  unfold Async.findKnowledgeBaseByName, findKnowledgeBaseByName. bridge.
  apply run_makeApiRequest.
Qed.

Lemma run_createKnowledgeBase name p :
  run (Async.createKnowledgeBase host name) p = createKnowledgeBase host name p.
Proof.
  unfold Async.createKnowledgeBase, createKnowledgeBase. bridge.
  apply run_makeApiRequest.
Qed.

Lemma run_getOrCreateKnowledgeBase name p :
  run (Async.getOrCreateKnowledgeBase host name) p
  = getOrCreateKnowledgeBase host name p.
Proof.
  unfold Async.getOrCreateKnowledgeBase, getOrCreateKnowledgeBase. bridge;
    first [apply run_findKnowledgeBaseByName|apply run_createKnowledgeBase].
Qed.

Lemma run_addFileToKnowledgeBase kbId fileId p :
  run (Async.addFileToKnowledgeBase host kbId fileId) p
  = addFileToKnowledgeBase host kbId fileId p.
Proof.
  unfold Async.addFileToKnowledgeBase, addFileToKnowledgeBase. bridge.
  apply run_makeApiRequest.
Qed.

Lemma run_removeFileFromKnowledgeBase kbName filePath fileId p :
  run (Async.removeFileFromKnowledgeBase host kbName filePath fileId) p
  = removeFileFromKnowledgeBase host kbName filePath fileId p.
Proof.
  unfold Async.removeFileFromKnowledgeBase, removeFileFromKnowledgeBase.
  bridge;
    first [apply run_findKnowledgeBaseByName|apply run_makeApiRequest].
Qed.

Lemma run_deleteFileFromOpenWebUI fileId p :
  run (Async.deleteFileFromOpenWebUI host fileId) p
  = deleteFileFromOpenWebUI host fileId p.
Proof.
  unfold Async.deleteFileFromOpenWebUI, deleteFileFromOpenWebUI. bridge.
  apply run_makeApiRequest.
Qed.

Lemma run_removeFileFromAllKnowledgeBases filePath record p :
  run (Async.removeFileFromAllKnowledgeBases host filePath record) p
  = removeFileFromAllKnowledgeBases host filePath record p.
Proof.
  unfold Async.removeFileFromAllKnowledgeBases,
    removeFileFromAllKnowledgeBases. bridge.
  - apply run_removeFileFromKnowledgeBase.
  - apply run_deleteFileFromOpenWebUI.
Qed.

Lemma run_uploadFile filename content p :
  run (Async.uploadFile host filename content) p
  = uploadFile host filename content p.
Proof.
  unfold run, Async.uploadFile, uploadFile.
  destruct (uploadReply _ _ _ _) as [message|status text id]; cbn; [done|].
  destruct (_ && _)%N; [done|]. by destruct (_ && _).
Qed.

Lemma run_addToKnowledgeBases targetKBs newRecord p :
  run (Async.addToKnowledgeBases host targetKBs newRecord) p
  = addToKnowledgeBases host targetKBs newRecord p.
Proof.
  revert newRecord p.
  induction targetKBs as [|kbName rest IH]; intros newRecord p; [done|].
  cbn [Async.addToKnowledgeBases addToKnowledgeBases]. bridge.
  - apply run_getOrCreateKnowledgeBase.
  - apply run_addFileToKnowledgeBase.
  - apply IH.
Qed.

Lemma run_detectChanges file currentKBs config p :
  run (Async.detectChanges host file currentKBs config) p
  = detectChanges host file currentKBs config p.
Proof. unfold Async.detectChanges, detectChanges. bridge. Qed.

Lemma run_removeOutdated c p :
  run (Async.removeOutdated host c) p = removeOutdated host c p.
Proof.
  unfold Async.removeOutdated, removeOutdated. bridge.
  - apply run_removeFileFromAllKnowledgeBases.
  - apply run_removeFileFromKnowledgeBase.
Qed.

Lemma run_uploadIfNeeded file c p :
  run (Async.uploadIfNeeded host file c) p = uploadIfNeeded host file c p.
Proof.
  unfold Async.uploadIfNeeded, uploadIfNeeded. bridge. apply run_uploadFile.
Qed.

Lemma run_updateState c newRecord p :
  run (Async.updateState c newRecord) p = updateState c newRecord p.
Proof. reflexivity. Qed.

Lemma run_applyChanges file c p :
  run (Async.applyChanges host file c) p = applyChanges host file c p.
Proof.
  unfold Async.applyChanges, applyChanges. bridge.
  - apply run_removeOutdated.
  - apply run_uploadIfNeeded.
  - apply run_addToKnowledgeBases.
Qed.

(** The reconciliation of a document with its suspensions, resumed each
    time before anything else happens, is the reconciliation that the
    properties of this development are about. *)
Lemma run_syncFileWithStateTracking file currentKBs config p :
  run (Async.syncFileWithStateTracking host file currentKBs config) p
  = syncFileWithStateTracking host file currentKBs config p.
Proof.
  unfold Async.syncFileWithStateTracking, syncFileWithStateTracking. bridge.
  - apply run_detectChanges.
  - apply run_applyChanges.
Qed.

End Bridge.

(** ** What holds at every stop *)

Lemma Kept_preorder (I : Plugin → Prop) : PreOrder (Kept I).
Proof.
  split; [intros p H; exact H|]. intros p1 p2 p3 H1 H2 H. by apply H2, H1.
Qed.

#[global] Existing Instance Kept_preorder.

Lemma preserves_Kept {A} (I : Plugin → Prop) (m : M A) (p : Plugin) :
  preserves (Kept I) m → I p → I (m p).2.
Proof. intros Hm. destruct (m p) as [r p'] eqn:E. exact (Hm _ _ _ E). Qed.

Section Invariants.

Context (I : Plugin → Prop).

Lemma TaskInv_weaken {A} (Q Q' : Result A → Prop) (t : Task A) :
  (∀ r, Q r → Q' r) → TaskInv I Q t → TaskInv I Q' t.
Proof.
  intros HQ. induction t as [r|next IH effect]; cbn; [apply HQ|].
  intros Ht q Hq. destruct (Ht q Hq) as [H1 H2]. split; [done|by apply IH].
Qed.

Lemma AsyncInv_weaken {A} (Q Q' : Result A → Prop) (m : AsyncCall A) :
  (∀ r, Q r → Q' r) → AsyncInv I Q m → AsyncInv I Q' m.
Proof.
  intros HQ Hm p Hp. destruct (Hm p Hp) as [H1 H2].
  split; [done|by eapply TaskInv_weaken].
Qed.

Lemma AsyncInv_ret {A} (Q : Result A → Prop) (a : A) :
  Q (Ok a) → AsyncInv I Q (retA a).
Proof. by intros HQ p Hp. Qed.

Lemma AsyncInv_throw {A} (Q : Result A → Prop) (e : jsstring) :
  Q (Throw e) → AsyncInv I Q (throwA e).
Proof. by intros HQ p Hp. Qed.

Lemma AsyncInv_lift {A} (Q : Result A → Prop) (m : M A) :
  (∀ p, I p → I (m p).2 ∧ Q (m p).1) → AsyncInv I Q (liftA m).
Proof.
  intros Hm p Hp. specialize (Hm p Hp). unfold liftA.
  by destruct (m p).
Qed.

Lemma AsyncInv_suspend (Q : Result unit → Prop) :
  Q (Ok tt) → AsyncInv I Q suspend.
Proof. intros HQ p Hp. split; [done|]. by intros q Hq. Qed.

Lemma TaskInv_thenTask {A B} (Q1 : Result A → Prop) (Q : Result B → Prop)
    (t : Task A) (k : A → AsyncCall B) (p : Plugin) :
  (∀ a, Q1 (Ok a) → AsyncInv I Q (k a)) → (∀ e, Q1 (Throw e) → Q (Throw e)) →
  I p → TaskInv I Q1 t →
  I (thenTask t k p).2 ∧ TaskInv I Q (thenTask t k p).1.
Proof.
  intros Hk He. revert p.
  induction t as [[a|e]|next IH effect]; intros p Hp Ht; cbn.
  - by apply Hk.
  - split; [done|]. by apply He.
  - split; [done|]. intros q Hq. destruct (Ht q Hq) as [H1 H2].
    by apply IH.
Qed.

Lemma AsyncInv_bind {A B} (Q1 : Result A → Prop) (Q : Result B → Prop)
    (m : AsyncCall A) (k : A → AsyncCall B) :
  AsyncInv I Q1 m →
  (∀ a, Q1 (Ok a) → AsyncInv I Q (k a)) → (∀ e, Q1 (Throw e) → Q (Throw e)) →
  AsyncInv I Q (bindA m k).
Proof.
  intros Hm Hk He p Hp. unfold bindA. destruct (Hm p Hp) as [H1 H2].
  destruct (m p) as [t p']. by eapply TaskInv_thenTask.
Qed.

Lemma TaskInv_catchTask {A} (Q1 Q : Result A → Prop) (t : Task A)
    (handler : jsstring → AsyncCall A) (p : Plugin) :
  (∀ a, Q1 (Ok a) → Q (Ok a)) → (∀ e, Q1 (Throw e) → AsyncInv I Q (handler e)) →
  I p → TaskInv I Q1 t →
  I (catchTask t handler p).2 ∧ TaskInv I Q (catchTask t handler p).1.
Proof.
  intros Ha Hh. revert p.
  induction t as [[a|e]|next IH effect]; intros p Hp Ht; cbn.
  - split; [done|]. by apply Ha.
  - by apply Hh.
  - split; [done|]. intros q Hq. destruct (Ht q Hq) as [H1 H2].
    by apply IH.
Qed.

Lemma AsyncInv_tryCatch {A} (Q1 Q : Result A → Prop) (m : AsyncCall A)
    (handler : jsstring → AsyncCall A) :
  AsyncInv I Q1 m →
  (∀ a, Q1 (Ok a) → Q (Ok a)) → (∀ e, Q1 (Throw e) → AsyncInv I Q (handler e)) →
  AsyncInv I Q (tryCatchA m handler).
Proof.
  intros Hm Ha Hh p Hp. unfold tryCatchA. destruct (Hm p Hp) as [H1 H2].
  destruct (m p) as [t p']. by eapply TaskInv_catchTask.
Qed.

Lemma TaskInv_settle {A} (Q : Result A → Prop) (t : Task A) :
  TaskInv I Q t → TaskInv I Q (settle t).
Proof.
  induction t as [r|next IH effect]; cbn.
  - by intros HQ q Hq.
  - intros Ht q Hq. destruct (Ht q Hq) as [H1 H2]. split; [done|by apply IH].
Qed.

Lemma AsyncInv_await {A} (Q : Result A → Prop) (m : AsyncCall A) :
  AsyncInv I Q m → AsyncInv I Q (await m).
Proof.
  intros Hm p Hp. unfold await. destruct (Hm p Hp) as [H1 H2].
  destruct (m p) as [t p']. split; [done|by apply TaskInv_settle].
Qed.

Lemma AsyncInv_forEach {A} (Q : Result unit → Prop) (l : list A)
    (body : A → AsyncCall unit) :
  Q (Ok tt) → (∀ x, AsyncInv I Q (body x)) → AsyncInv I Q (forEachA l body).
Proof.
  intros HQ Hbody. induction l as [|x l IH]; cbn [forEachA].
  - by apply AsyncInv_ret.
  - eapply AsyncInv_bind; [apply Hbody|by intros|done].
Qed.

Lemma TaskInv_runTask {A} (Q : Result A → Prop) (t : Task A) (p : Plugin) :
  I p → TaskInv I Q t → I (runTask t p).2 ∧ Q (runTask t p).1.
Proof.
  revert p. induction t as [r|next IH effect]; intros p Hp Ht; cbn; [done|].
  destruct (Ht p Hp) as [H1 H2]. by apply IH.
Qed.

Lemma AsyncInv_run {A} (Q : Result A → Prop) (m : AsyncCall A) (p : Plugin) :
  AsyncInv I Q m → I p → I (run m p).2 ∧ Q (run m p).1.
Proof.
  intros Hm Hp. unfold run. destruct (Hm p Hp) as [H1 H2].
  destruct (m p) as [t p']. by apply TaskInv_runTask.
Qed.

(** *** Methods under way together *)

Lemma startAll_inv {A} (Q : Result A → Prop) (ms : list (AsyncCall A))
    (p : Plugin) :
  Forall (AsyncInv I Q) ms → I p →
  I (startAll ms p).2 ∧ Forall (TaskInv I Q) (startAll ms p).1.
Proof.
  intros Hms. revert p.
  induction Hms as [|m ms Hm _ IH]; intros p Hp; cbn; [done|].
  destruct (Hm p Hp) as [H1 H2]. destruct (m p) as [t p1].
  destruct (IH p1 H1) as [H3 H4]. destruct (startAll ms p1) as [ts p2].
  split; [done|]. by constructor.
Qed.

Lemma resumeTask_inv {A} (Q : Result A → Prop) (i : nat)
    (ts : list (Task A)) (p : Plugin) :
  Forall (TaskInv I Q) ts → I p →
  I (resumeTask i ts p).2 ∧ Forall (TaskInv I Q) (resumeTask i ts p).1.
Proof.
  intros Hts Hp. unfold resumeTask.
  destruct (ts !! i) as [[r|next effect]|] eqn:Ei; [done| |done].
  pose proof (Forall_lookup_1 _ _ _ _ Hts Ei) as Ht. cbn in Ht.
  destruct (Ht p Hp) as [H1 H2]. split; [done|]. by apply Forall_insert.
Qed.

Lemma interleave_inv {A} (Q : Result A → Prop) (schedule : list nat)
    (ts : list (Task A)) (p : Plugin) :
  Forall (TaskInv I Q) ts → I p →
  I (interleave schedule ts p).2
  ∧ Forall (TaskInv I Q) (interleave schedule ts p).1.
Proof.
  revert ts p. induction schedule as [|i schedule IH]; intros ts p Hts Hp;
    cbn; [done|].
  destruct (resumeTask_inv Q i ts p Hts Hp) as [H1 H2].
  destruct (resumeTask i ts p) as [ts' p']. by apply IH.
Qed.

Lemma finishAll_inv {A} (Q : Result A → Prop) (ts : list (Task A))
    (p : Plugin) :
  Forall (TaskInv I Q) ts → I p →
  I (finishAll ts p).2 ∧ Forall Q (finishAll ts p).1.
Proof.
  intros Hts. revert p.
  induction Hts as [|t ts Ht _ IH]; intros p Hp; cbn; [done|].
  destruct (TaskInv_runTask Q t p Hp Ht) as [H1 H2].
  destruct (runTask t p) as [r p1].
  destruct (IH p1 H1) as [H3 H4]. destruct (finishAll ts p1) as [rs p2].
  split; [done|]. by constructor.
Qed.

Lemma firstThrow_isOk {A} (rs : list (Result A)) :
  Forall isOk rs → firstThrow rs = Ok tt.
Proof. induction 1 as [|r rs [a ->] _ IH]; cbn; done. Qed.

(** Callbacks that keep [I] and catch what they throw, under way together
    in whatever order: [Promise.all] is fulfilled, and [I] is kept. *)
Lemma promiseAll_inv {A} (schedule : list nat) (ms : list (AsyncCall A))
    (p : Plugin) :
  Forall (AsyncInv I isOk) ms → I p →
  ∃ p', promiseAll schedule ms p = (Ok tt, p') ∧ I p'.
Proof.
  intros Hms Hp. unfold promiseAll.
  destruct (startAll_inv isOk ms p Hms Hp) as [H1 H2].
  destruct (startAll ms p) as [ts p1].
  destruct (interleave_inv isOk schedule ts p1 H2 H1) as [H3 H4].
  destruct (interleave schedule ts p1) as [ts' p2].
  destruct (finishAll_inv isOk ts' p2 H4 H3) as [H5 H6].
  destruct (finishAll ts' p2) as [rs p3].
  exists p3. by rewrite firstThrow_isOk.
Qed.

End Invariants.

(** ** The batches of a pass *)

Section BatchInvariants.

Context (host : Host) (I : Plugin → Prop).

Lemma processBatch_inv config i batch p :
  Forall (λ entry, AsyncInv I isOk (reconcileEntry host config entry)) batch →
  I p → ∃ p', processBatch host config i batch p = (Ok tt, p') ∧ I p'.
Proof.
  intros Hbatch Hp. unfold processBatch. destruct (maxConcurrent config =? 1).
  - revert p Hp. induction Hbatch as [|entry batch Hentry _ IH]; intros p Hp;
      cbn [forEach]; [by exists p|].
    destruct (AsyncInv_run I isOk _ p Hentry Hp) as [H1 [[] H2]].
    unfold bind. destruct (run (reconcileEntry host config entry) p)
      as [r p1]. cbn in H1, H2. subst r. by apply IH.
  - apply promiseAll_inv; [|done]. by apply Forall_map.
Qed.

Lemma Forall_slice {A} (P : A → Prop) (start stop : Z) (l : list A) :
  Forall P l → Forall P (slice start stop l).
Proof. intros Hl. unfold slice. by apply Forall_take, Forall_drop. Qed.

Lemma processBatches_entries config fileEntries fuel i p :
  Forall (λ entry, AsyncInv I isOk (reconcileEntry host config entry))
    fileEntries →
  I p →
  ∃ ending p',
    processBatches host config fileEntries fuel i p = (ending, p')
    ∧ I p' ∧ (ending = Ends (Ok tt) ∨ ending = Hangs).
Proof.
  intros Hentries. revert i p. induction fuel as [|fuel IH]; intros i p Hp;
    cbn [processBatches]; destruct (i <? _).
  - exists Hangs, p. by repeat split; [|right].
  - exists (Ends (Ok tt)), p. by repeat split; [|left].
  - destruct (processBatch_inv config i
                (slice i (i + configBatchSize config) fileEntries) p)
      as (p1 & Hrun & Hp1); [by apply Forall_slice|done|].
    unfold bindP at 1, liftP at 1. rewrite Hrun. by apply IH.
  - exists (Ends (Ok tt)), p. by repeat split; [|left].
Qed.

End BatchInvariants.

Lemma TaskInv_True {A} (t : Task A) : TaskInv (λ _, True) (λ _, True) t.
Proof. induction t as [r|next IH effect]; cbn; [done|]. by intros q _. Qed.

(** ** What the reconciliation of a document keeps at every stop *)

(** A property of the plugin object that the updates of the plugin keep,
    whatever they write, is kept by every method from stop to stop. *)
Section AsyncFootprint.

Context (host : Host) (I : Plugin → Prop).

Hypothesis I_tick : ∀ p, I p → I (withTick p).
Hypothesis I_cache : ∀ f p, I p → I (withKbCache f p).
Hypothesis I_status : ∀ f p, I p → I (withSyncStatus f p).
Hypothesis I_call : ∀ c p, I p → I (withCall c p).
Hypothesis I_settings : ∀ f p, I p → I (withSettings f p).
Hypothesis I_saved : ∀ s p, I p → I (withSaved s p).
Hypothesis I_notice : ∀ message p, I p → I (withNotice message p).

Ltac kept := first [apply _|intros; unfold Kept; eauto].

Ltac keep_step :=
  lazymatch goal with
  | |- AsyncInv _ _ (bindA _ _) =>
      eapply AsyncInv_bind with (Q1 := λ _, True); [|intros ? _|done]
  | |- AsyncInv _ _ (tryCatchA _ _) =>
      eapply AsyncInv_tryCatch with (Q1 := λ _, True); [|done|intros ? _]
  | |- AsyncInv _ _ (forEachA _ _) => apply AsyncInv_forEach; [done|intros ?]
  | |- AsyncInv _ _ (await _) => apply AsyncInv_await
  | |- AsyncInv _ _ suspend => by apply AsyncInv_suspend
  | |- AsyncInv _ _ (retA _) => by apply AsyncInv_ret
  | |- AsyncInv _ _ (throwA _) => by apply AsyncInv_throw
  | |- AsyncInv _ _ (liftA _) =>
      apply AsyncInv_lift;
      let q := fresh "q" in let Hq := fresh "Hq" in
      intros q Hq; split; [apply (preserves_Kept I); [|exact Hq]|done]
  | |- AsyncInv _ _ (if ?b then _ else _) => destruct b
  | |- AsyncInv _ _ (match ?o with _ => _ end) => destruct o
  | |- preserves _ (modify _) => apply preserves_modify; kept
  | |- preserves _ (dateNow _) => apply dateNow_keeps; kept
  | |- preserves _ (cacheSet _ _ _) => apply cacheSet_keeps; kept
  | |- preserves _ saveSettings => apply preserves_modify; kept
  | |- preserves _ _ => frame_step
  end.

Lemma makeApiRequest_stops {A} c (reply : list Call → Reply A) :
  AsyncInv I (λ _, True) (Async.makeApiRequest c reply).
Proof.
  intros p Hp. unfold Async.makeApiRequest.
  destruct (_ || _); [done|]. split; [by apply I_call|]. by intros q Hq.
Qed.

Lemma findKnowledgeBaseByName_stops name :
  AsyncInv I (λ _, True) (Async.findKnowledgeBaseByName host name).
Proof.
  unfold Async.findKnowledgeBaseByName. repeat keep_step.
  apply makeApiRequest_stops.
Qed.

Lemma createKnowledgeBase_stops name :
  AsyncInv I (λ _, True) (Async.createKnowledgeBase host name).
Proof.
  unfold Async.createKnowledgeBase. repeat keep_step.
  apply makeApiRequest_stops.
Qed.

Lemma getOrCreateKnowledgeBase_stops name :
  AsyncInv I (λ _, True) (Async.getOrCreateKnowledgeBase host name).
Proof.
  unfold Async.getOrCreateKnowledgeBase. repeat keep_step;
    first [apply findKnowledgeBaseByName_stops|apply createKnowledgeBase_stops].
Qed.

Lemma addFileToKnowledgeBase_stops kbId fileId :
  AsyncInv I (λ _, True) (Async.addFileToKnowledgeBase host kbId fileId).
Proof.
  unfold Async.addFileToKnowledgeBase. repeat keep_step.
  apply makeApiRequest_stops.
Qed.

Lemma removeFileFromKnowledgeBase_stops kbName filePath fileId :
  AsyncInv I (λ _, True)
    (Async.removeFileFromKnowledgeBase host kbName filePath fileId).
Proof.
  unfold Async.removeFileFromKnowledgeBase, dropKnowledgeBase.
  repeat keep_step;
    first [apply findKnowledgeBaseByName_stops|apply makeApiRequest_stops].
Qed.

Lemma deleteFileFromOpenWebUI_stops fileId :
  AsyncInv I (λ _, True) (Async.deleteFileFromOpenWebUI host fileId).
Proof.
  unfold Async.deleteFileFromOpenWebUI. repeat keep_step.
  apply makeApiRequest_stops.
Qed.

Lemma removeFileFromAllKnowledgeBases_stops filePath record :
  AsyncInv I (λ _, True)
    (Async.removeFileFromAllKnowledgeBases host filePath record).
Proof.
  unfold Async.removeFileFromAllKnowledgeBases. repeat keep_step.
  - apply removeFileFromKnowledgeBase_stops.
  - apply deleteFileFromOpenWebUI_stops.
Qed.

Lemma uploadFile_stops filename content :
  AsyncInv I (λ _, True) (Async.uploadFile host filename content).
Proof.
  intros p Hp. unfold Async.uploadFile. split; [by apply I_call|].
  intros q Hq. split; [done|].
  destruct (uploadReply _ _ _ _) as [message|status text id]; [done|].
  by intros q' Hq'.
Qed.

Lemma addToKnowledgeBases_stops targetKBs newRecord :
  AsyncInv I (λ _, True) (Async.addToKnowledgeBases host targetKBs newRecord).
Proof.
  revert newRecord.
  induction targetKBs as [|kbName rest IH]; intros newRecord;
    cbn [Async.addToKnowledgeBases]; [by apply AsyncInv_ret|].
  keep_step; [|apply IH]. repeat keep_step.
  - apply getOrCreateKnowledgeBase_stops.
  - apply addFileToKnowledgeBase_stops.
Qed.

Lemma detectChanges_stops file currentKBs config :
  AsyncInv I (λ _, True) (Async.detectChanges host file currentKBs config).
Proof. unfold Async.detectChanges. repeat keep_step. Qed.

Lemma removeOutdated_stops c :
  AsyncInv I (λ _, True) (Async.removeOutdated host c).
Proof.
  unfold Async.removeOutdated. repeat keep_step.
  - apply removeFileFromAllKnowledgeBases_stops.
  - apply removeFileFromKnowledgeBase_stops.
Qed.

Lemma uploadIfNeeded_stops file c :
  AsyncInv I (λ _, True) (Async.uploadIfNeeded host file c).
Proof.
  unfold Async.uploadIfNeeded. repeat keep_step. apply uploadFile_stops.
Qed.

Lemma updateState_stops c newRecord :
  AsyncInv I (λ _, True) (Async.updateState c newRecord).
Proof. unfold Async.updateState, Async.saveSettings. repeat keep_step. Qed.

Lemma syncFileWithStateTracking_stops file currentKBs config :
  AsyncInv I (λ _, True)
    (Async.syncFileWithStateTracking host file currentKBs config).
Proof.
  unfold Async.syncFileWithStateTracking, Async.applyChanges.
  keep_step; [apply detectChanges_stops|]. repeat keep_step.
  - apply removeOutdated_stops.
  - apply uploadIfNeeded_stops.
  - apply addToKnowledgeBases_stops.
  - apply updateState_stops.
Qed.

(** The callback of a batch never throws: its [catch] shows a Notice. *)
Lemma reconcileEntry_settles config entry :
  AsyncInv I isOk (reconcileEntry host config entry).
Proof.
  unfold reconcileEntry.
  eapply AsyncInv_tryCatch with (Q1 := λ _, True).
  - destruct (getAbstractFileByPath host entry.1) as [file|].
    + apply AsyncInv_await, syncFileWithStateTracking_stops.
    + by apply AsyncInv_ret.
  - intros a _. by exists a.
  - intros e _. apply AsyncInv_lift. intros p Hp. split.
    + by apply I_notice.
    + by exists tt.
Qed.

Lemma processBatch_returns config i batch p :
  I p → ∃ p', processBatch host config i batch p = (Ok tt, p') ∧ I p'.
Proof.
  apply processBatch_inv. apply Forall_true. intros entry.
  apply reconcileEntry_settles.
Qed.

(** The loop over the batches returns or hangs; it does not throw. *)
Lemma processBatches_inv config fileEntries fuel i p :
  I p →
  ∃ ending p',
    processBatches host config fileEntries fuel i p = (ending, p')
    ∧ I p' ∧ (ending = Ends (Ok tt) ∨ ending = Hangs).
Proof.
  apply processBatches_entries. apply Forall_true. intros entry.
  apply reconcileEntry_settles.
Qed.

(** *** The pass, from end to end *)

Lemma removeFileFromAllKnowledgeBases_kept filePath record :
  preserves (Kept I) (removeFileFromAllKnowledgeBases host filePath record).
Proof.
  apply (removeFileFromAllKnowledgeBases_keeps host (Kept I) (λ _, True));
    try done; unfold dropKnowledgeBase; kept.
Qed.

Lemma cleanupDeletedFiles_kept : preserves (Kept I) (cleanupDeletedFiles host).
Proof.
  unfold cleanupDeletedFiles, untrack. repeat keep_step.
  apply removeFileFromAllKnowledgeBases_kept.
Qed.

Lemma handleUntaggedFiles_kept currentlyTaggedFiles :
  preserves (Kept I) (handleUntaggedFiles host currentlyTaggedFiles).
Proof.
  unfold handleUntaggedFiles, untrack. repeat keep_step.
  apply removeFileFromAllKnowledgeBases_kept.
Qed.

Lemma findFilesWithKBTags_state files p :
  (findFilesWithKBTags files p).2 = p.
Proof.
  revert p. induction files as [|file files IH]; intros p; [done|].
  cbn [findFilesWithKBTags]. unfold bind at 1, liftResult.
  destruct (vaultRead file) as [content|e]; [|done].
  unfold bind. specialize (IH p).
  by destruct (findFilesWithKBTags files p) as [[results|e] p'].
Qed.

Lemma handleUntaggedFiles_neverThrows currentlyTaggedFiles :
  neverThrows (handleUntaggedFiles host currentlyTaggedFiles).
Proof.
  unfold handleUntaggedFiles.
  apply neverThrows_bind; [apply neverThrows_gets|]. intros entries.
  apply neverThrows_bind; [|intros _; apply neverThrows_modify].
  apply neverThrows_forEach. intros entry.
  destruct (bool_decide _); [apply neverThrows_ret|].
  apply neverThrows_tryCatch. intros e. apply neverThrows_ret.
Qed.

(** What the updates of the plugin keep, the pass keeps, however it ends
    and in whatever order the documents of a batch go on. *)
Lemma performSyncOperation_inv p :
  I p → I (performSyncOperation host p).2.
Proof.
  intros Hp. unfold performSyncOperation, tryCatchP.
  assert (Hfail : ∀ e q, I q →
            I (liftP (logged ;;
                      modify (withSyncStatus (fun s =>
                        {| synced := synced s; total := total s;
                           issyncing := false; error := true |})) ;;
                      Notice (lit "Sync failed: " ++ e)) q).2).
  { intros e q Hq. cbn. by apply I_notice, I_status. }
  unfold bindP at 1, liftP at 1.
  pose proof (preserves_Kept I _ p cleanupDeletedFiles_kept Hp) as H1.
  destruct (cleanupDeletedFiles host p) as [[[]|e] p1]; cbn in H1;
    [|by apply Hfail].
  unfold bindP at 1, liftP at 1.
  pose proof (findFilesWithKBTags_state (markdownFiles host) p1) as H2.
  destruct (findFilesWithKBTags (markdownFiles host) p1)
    as [[filesToSync|e] p2]; cbn in H2; subst p2; [|by apply Hfail].
  destruct (groupByFile filesToSync) as [|group groups] eqn:Eg.
  { cbn. by apply I_notice. }
  unfold bindP at 1, liftP at 1, modify.
  unfold bindP at 1, liftP at 1, getMobileAdjustedConfig, gets.
  set (config := {| maxFileSize := _; configBatchSize := _;
                    maxConcurrent := _ |}).
  set (p2 := withSyncStatus _ p1).
  assert (Hp2 : I p2) by by apply I_status.
  destruct (processBatches_inv config (group :: groups)
              (length (group :: groups)) 0 p2 Hp2)
    as (ending & p3 & Hloop & Hp3 & Hending).
  unfold bindP at 1. rewrite Hloop.
  destruct Hending as [-> | ->]; [|done].
  unfold bindP at 1, liftP at 1.
  pose proof (preserves_Kept I _ p3
                (handleUntaggedFiles_kept (group :: groups)) Hp3) as H4.
  destruct (handleUntaggedFiles_neverThrows (group :: groups) p3)
    as ([] & p4 & Hrun).
  rewrite Hrun in H4 |- *. cbn in H4 |- *. by apply I_notice, I_status.
Qed.

End AsyncFootprint.

(** ** When the loop over the batches ends *)

Section Batches.

Context (host : Host).

Lemma processBatch_ok config i batch p :
  ∃ p', processBatch host config i batch p = (Ok tt, p').
Proof.
  destruct (processBatch_returns host (λ _, True)) with (p := p)
    (config := config) (i := i) (batch := batch) as (p' & Hrun & _); try done.
  by exists p'.
Qed.

(** With a positive batch size the loop ends before its fuel does. *)
Lemma processBatches_ends config fileEntries fuel i p :
  0 < configBatchSize config →
  Z.of_nat (length fileEntries) - i ≤ Z.of_nat fuel →
  (processBatches host config fileEntries fuel i p).1 = Ends (Ok tt).
Proof.
  intros Hsize. revert i p. induction fuel as [|fuel IH]; intros i p Hfuel;
    cbn [processBatches];
    destruct (Z.ltb_spec i (Z.of_nat (length fileEntries))); try done.
  - lia.
  - destruct (processBatch_ok config i
                (slice i (i + configBatchSize config) fileEntries) p)
      as (p1 & Hrun).
    unfold bindP at 1, liftP at 1. rewrite Hrun. apply IH. lia.
Qed.

(** With a batch size of zero or below, the index never reaches the
    length: the loop does not end. *)
Lemma processBatches_hangs config fileEntries fuel i p :
  configBatchSize config ≤ 0 → i < Z.of_nat (length fileEntries) →
  (processBatches host config fileEntries fuel i p).1 = Hangs.
Proof.
  intros Hsize. revert i p. induction fuel as [|fuel IH]; intros i p Hi;
    cbn [processBatches];
    destruct (Z.ltb_spec i (Z.of_nat (length fileEntries))); try done;
    try lia.
  destruct (processBatch_ok config i
              (slice i (i + configBatchSize config) fileEntries) p)
    as (p1 & Hrun).
  unfold bindP at 1, liftP at 1. rewrite Hrun. apply IH. lia.
Qed.

Lemma slice_backwards {A} (start stop : Z) (l : list A) :
  stop ≤ start → start < 0 ∨ stop = start → slice start stop l = [].
Proof.
  intros Hle Hcase. unfold slice.
  set (len := Z.of_nat (length l)).
  assert (Hnil : ∀ n k, (n ≤ 0)%Z → firstn (Z.to_nat n) (skipn k l) = [])
    by (intros n k Hn; by replace (Z.to_nat n) with 0%nat by lia).
  apply Hnil.
  destruct (Z.ltb_spec start 0), (Z.ltb_spec stop 0); lia.
Qed.

Lemma interleave_nil {A} (schedule : list nat) (p : Plugin) :
  interleave schedule (@nil (Task A)) p = ([], p).
Proof. induction schedule as [|i schedule IH]; cbn; done. Qed.

Lemma processBatch_nil config i p :
  processBatch host config i [] p = (Ok tt, p).
Proof.
  unfold processBatch. destruct (_ =? _); [done|].
  unfold promiseAll. cbn [map startAll]. by rewrite interleave_nil.
Qed.

(** Where the loop hangs, every batch but the first is empty: the plugin
    object is left as the first batch leaves it, whatever the fuel. *)
Lemma processBatches_hangs_state config fileEntries fuel i p :
  configBatchSize config ≤ 0 → i ≤ 0 → i < Z.of_nat (length fileEntries) →
  processBatches host config fileEntries (S fuel) i p
  = (Hangs,
     (processBatch host config i
        (slice i (i + configBatchSize config) fileEntries) p).2).
Proof.
  intros Hsize Hi Hlen.
  assert (Hrest : ∀ fuel' j q,
            j < 0 ∨ (j ≤ 0 ∧ configBatchSize config = 0) →
            j < Z.of_nat (length fileEntries) →
            processBatches host config fileEntries fuel' j q = (Hangs, q)).
  { induction fuel' as [|fuel' IH]; intros j q Hj Hjlen;
      cbn [processBatches];
      destruct (Z.ltb_spec j (Z.of_nat (length fileEntries))); try done;
      try lia.
    rewrite slice_backwards by lia. unfold bindP at 1, liftP at 1.
    rewrite processBatch_nil. apply IH; lia. }
  cbn [processBatches].
  destruct (Z.ltb_spec i (Z.of_nat (length fileEntries))); [|lia].
  destruct (processBatch_ok config i
              (slice i (i + configBatchSize config) fileEntries) p)
    as (p1 & Hrun).
  unfold bindP at 1, liftP at 1. rewrite Hrun. cbn [snd].
  apply Hrest; lia.
Qed.

End Batches.

(** ** C4: the single-flight guard *)

Lemma shouldAllowSync_guard host p :
  ∃ blocked p', shouldAllowSync host p = (Ok blocked, p')
                ∧ syncMutex p' = syncMutex p.
Proof.
  unfold shouldAllowSync.
  destruct (connectionType host); try by eexists _, _.
  unfold bind, gets.
  destruct (networkBehavior (mobile (settings p))); try by eexists _, _.
  unfold dateNow, Notice, modify, ret.
  destruct (_ <? _); by eexists _, _.
Qed.

(** The pass never writes the guard: as it was held when the pass began, it
    is held at every stop of the pass, whatever the order in which the
    documents of a batch go on. *)
Lemma performSyncOperation_guard host p :
  syncMutex (performSyncOperation host p).2 = syncMutex p.
Proof.
  by apply (performSyncOperation_inv host (λ q, syncMutex q = syncMutex p)).
Qed.

(** C4, amended.  While the guard is held a call of [syncToKnowledgeBase]
    is turned away at once with a Notice and the timer callback returns
    without a word; neither runs the pass body nor touches the counters or
    anything else of the plugin object.  A call that finds the guard free
    and is let through by the checks takes the guard, runs the pass body on
    the plugin object with the guard held, and gives the guard back when
    the body returns or throws (a body that never ends keeps it); so a call
    that ends leaves the guard free.  [performSyncOperation], the body that
    the plugin passes, does not write the guard. *)
Theorem syncMutex_single_flight (host : Host) (body : Pass unit) (p : Plugin) :
  (syncMutex p = true →
     syncToKnowledgeBaseWith host body p
     = (Ends (Ok tt),
        withNotice (lit "Sync already in progress, please wait...") p)
     ∧ autoSyncTimerWith host body p = (Ends (Ok tt), p))
  ∧ (syncMutex p = false → truthy (apiToken (settings p)) = true →
     ∀ p1, shouldAllowSync host p = (Ok None, p1) →
       syncMutex (withSyncMutex true p1) = true
       ∧ syncToKnowledgeBaseWith host body p
         = match body (withSyncMutex true p1) with
           | (Ends r, p') => (Ends r, withSyncMutex false p')
           | (Hangs, p') => (Hangs, p')
           end)
  ∧ (syncMutex p = false →
     ∀ r p', syncToKnowledgeBaseWith host body p = (Ends r, p') →
             syncMutex p' = false)
  ∧ (∀ q, syncMutex (performSyncOperation host q).2 = syncMutex q).
Proof.
  split; [|split; [|split]].
  - intros Hbusy. unfold autoSyncTimerWith, syncToKnowledgeBaseWith.
    unfold bindP, liftP, gets. by rewrite Hbusy.
  - intros Hfree Htoken p1 Hallow. split; [done|].
    unfold syncToKnowledgeBaseWith.
    unfold bindP at 1, liftP at 1, gets. rewrite Hfree.
    unfold bindP at 1, liftP at 1. rewrite Htoken. cbn [negb].
    unfold bindP at 1, liftP at 1. rewrite Hallow.
    unfold bindP at 1, liftP at 1, modify, tryFinallyP. done.
  - intros Hfree r p'. unfold syncToKnowledgeBaseWith.
    unfold bindP at 1, liftP at 1, gets. rewrite Hfree.
    unfold bindP at 1, liftP at 1.
    destruct (negb _); [cbn; by intros [= <- <-]|].
    destruct (shouldAllowSync_guard host p) as (blocked & p1 & Hallow & Hp1).
    unfold bindP at 1, liftP at 1. rewrite Hallow.
    destruct blocked as [reason|]; [cbn; intros [= <- <-]; cbn; congruence|].
    unfold bindP at 1, liftP at 1, modify, tryFinallyP.
    destruct (body _) as [[r'|] p2]; [|done]. by intros [= <- <-].
  - apply performSyncOperation_guard.
Qed.

Lemma syncMutex_single_flight_witness :
  syncToKnowledgeBase (hostOf obligingRemote []) busyPlugin
  = (Ends (Ok tt),
     withNotice (lit "Sync already in progress, please wait...") busyPlugin)
  ∧ syncToKnowledgeBase (hostOf obligingRemote [noteFile]) freshPlugin
    = match performSyncOperation (hostOf obligingRemote [noteFile])
              (withSyncMutex true freshPlugin) with
      | (Ends r, p') => (Ends r, withSyncMutex false p')
      | (Hangs, p') => (Hangs, p')
      end.
Proof.
  split.
  - apply (syncMutex_single_flight (hostOf obligingRemote [])
             (performSyncOperation (hostOf obligingRemote [])) busyPlugin).
    reflexivity.
  - apply (syncMutex_single_flight (hostOf obligingRemote [noteFile])
             (performSyncOperation (hostOf obligingRemote [noteFile]))
             freshPlugin); reflexivity.
Defined.

(** C4 as stated fails: when the timer fires while the guard is held, the
    trigger is dropped and no Notice (nor anything else) tells the user. *)
Lemma syncMutex_single_flight_counterexample :
  syncMutex busyPlugin = true
  ∧ autoSyncTimer (hostOf obligingRemote []) busyPlugin
    = (Ends (Ok tt), busyPlugin)
  ∧ notices busyPlugin = [].
Proof. repeat split. Qed.

(** ** How a pass ends *)

Lemma sameMobile_preorder :
  PreOrder (λ p p' : Plugin, mobile (settings p') = mobile (settings p)).
Proof. split; [done|]. intros p1 p2 p3 H1 H2. by rewrite H2. Qed.

Lemma cleanupDeletedFiles_mobile host p :
  mobile (settings (cleanupDeletedFiles host p).2) = mobile (settings p).
Proof.
  pose proof sameMobile_preorder as Hpre.
  assert (Hkeeps : preserves
            (λ p p' : Plugin, mobile (settings p') = mobile (settings p))
            (cleanupDeletedFiles host)).
  { unfold cleanupDeletedFiles. repeat frame_step;
      first [by apply (removeFileFromAllKnowledgeBases_keeps host _ (λ _, True))
            |by apply preserves_modify]. }
  destruct (cleanupDeletedFiles host p) as [r p'] eqn:E.
  exact (Hkeeps _ _ _ E).
Qed.

Lemma findFilesWithKBTags_readable (files : list TFile) (p : Plugin) :
  Forall readable files →
  findFilesWithKBTags files p = (Ok (scanned files), p).
Proof.
  induction 1 as [|file files [content Hfile] _ IH];
    cbn [findFilesWithKBTags]; [done|].
  unfold bind at 1, liftResult. rewrite Hfile. unfold bind at 1. rewrite IH.
  cbn. unfold contentOf. by rewrite Hfile.
Qed.

Lemma groupPush_nonempty filePath kb fileGroups :
  groupPush filePath kb fileGroups ≠ [].
Proof.
  destruct fileGroups as [|[p kbs] rest]; cbn; [done|].
  by destruct (bool_decide _).
Qed.

Lemma groupByFile_nonempty filesToSync :
  filesToSync ≠ [] → groupByFile filesToSync ≠ [].
Proof.
  unfold groupByFile. intros Hne.
  assert (Hfold : ∀ items groups,
            groups ≠ [] ∨ items ≠ [] →
            fold_left (λ groups item,
                         groupPush (path item.1) item.2 groups) items groups
            ≠ []).
  { induction items as [|item items IH]; intros groups Hg; cbn.
    - by destruct Hg.
    - apply IH. left. apply groupPush_nonempty. }
  apply Hfold. by right.
Qed.

(** [performSyncOperation] never throws.  Either it returns, and the last
    thing it has done is to show a Notice that tells how the pass ended (no
    tagged files, the pass completed with its counts, or the pass failed
    with the reason); or it never ends, which takes a batch size of zero or
    below in the settings, and is what happens with such a batch size
    whenever the scan finds a tag. *)
Theorem performSyncOperation_reports (host : Host) (p : Plugin) :
  let ending := (performSyncOperation host p).1 in
  let p' := (performSyncOperation host p).2 in
  ((ending = Ends (Ok tt)
    ∧ ∃ message, last (notices p') = Some message ∧ isPassReport message)
   ∨ (ending = Hangs ∧ batchSize (mobile (settings p)) ≤ 0))
  ∧ (batchSize (mobile (settings p)) ≤ 0 →
     Forall readable (markdownFiles host) →
     scanned (markdownFiles host) ≠ [] →
     ending = Hangs).
Proof.
  cbv zeta.
  pose proof (cleanupDeletedFiles_mobile host p) as Hmobile.
  destruct (cleanupDeletedFiles_neverThrows host p) as ([] & p1 & Hclean).
  rewrite Hclean in Hmobile. cbn [snd] in Hmobile.
  pose proof (findFilesWithKBTags_state (markdownFiles host) p1) as Hstate.
  pose proof (findFilesWithKBTags_readable (markdownFiles host) p1) as Hscan.
  unfold performSyncOperation, tryCatchP, bindP, liftP.
  rewrite Hclean. cbv beta iota.
  destruct (findFilesWithKBTags (markdownFiles host) p1)
    as [[filesToSync|e] p2]; cbn [snd] in Hstate; subst p2; cbv beta iota.
  2: { cbn. split.
       - left. split; [done|]. eexists. split; [apply last_snoc|].
         right. right. by eexists.
       - intros _ Hread _. by specialize (Hscan Hread). }
  destruct (groupByFile filesToSync) as [|group groups] eqn:Eg.
  { cbn. split.
    - left. split; [done|]. eexists. split; [apply last_snoc|]. by left.
    - intros _ Hread Hne. specialize (Hscan Hread). injection Hscan as ->.
      by apply groupByFile_nonempty in Hne. }
  unfold modify, getMobileAdjustedConfig, gets. cbv beta iota.
  set (config := {| maxFileSize := _; configBatchSize := _;
                    maxConcurrent := _ |}).
  set (p2 := withSyncStatus _ p1).
  assert (Hsize : configBatchSize config ≤ 0
                  ↔ batchSize (mobile (settings p)) ≤ 0).
  { unfold config. cbn. rewrite Hmobile.
    destruct (connectionType host); lia. }
  destruct (processBatches_inv host (λ _, True)) with (p := p2)
    (config := config) (fileEntries := group :: groups)
    (fuel := length (group :: groups)) (i := 0)
    as (ending & p3 & Hloop & _ & Hending); try done.
  pose proof (processBatches_ends host config (group :: groups)
                (length (group :: groups)) 0 p2) as Hends.
  pose proof (processBatches_hangs host config (group :: groups)
                (length (group :: groups)) 0 p2) as Hhangs.
  rewrite Hloop in Hends, Hhangs |- *. cbn [fst] in Hends, Hhangs.
  destruct Hending as [-> | ->]; cbv beta iota.
  - destruct (handleUntaggedFiles_neverThrows host (group :: groups) p3)
      as ([] & p4 & Hrun).
    rewrite Hrun. cbn. split.
    + left. split; [done|]. eexists.
      split; [apply last_snoc|]. right. left. by eexists.
    + intros Hbad _ _. apply Hhangs; [by apply Hsize|cbn [length]; lia].
  - split; [|done]. right. split; [done|].
    apply Hsize. apply Z.nlt_ge. intros Hpos.
    by discriminate Hends; lia.
Qed.

(** * C1: a pass without local changes *)




Section Settled.

Context (host : Host) (p : Plugin).

Let config : SyncConfig := configOf host (mobile (settings p)).

(** What the batches of a settled vault keep: the settings, the requests
    sent, the cache, what is saved and the count of operations. *)
Let I (q : Plugin) : Prop :=
  settings q = settings p ∧ calls q = calls p ∧ kbCache q = kbCache p
  ∧ saved q = settings p ∧ synced (syncStatus q) = 0.






End Settled.



(** The pass of the claim, run twice on a vault that nobody touched, sends
    a request on the second run: the upload of the first pass was refused,
    so nothing was recorded, and the second pass uploads the note again. *)
Lemma unchanged_document_no_remote_calls_counterexample :
  let host := hostOf uploadDownRemote [noteFile] in
  let first := performSyncOperation host freshPlugin in
  let second := performSyncOperation host first.2 in
  first.1 = Ends (Ok tt) ∧ second.1 = Ends (Ok tt)
  ∧ fileMapping (settings first.2) = ∅
  ∧ uploadCount (calls first.2) = 1%nat
  ∧ uploadCount (calls second.2) = 2%nat
  ∧ calls second.2 ≠ calls first.2.
Proof.
  intros host first second.
  split; [vm_compute; reflexivity|].
  split; [vm_compute; reflexivity|].
  split; [vm_compute; reflexivity|].
  split; [vm_compute; reflexivity|].
  split; [vm_compute; reflexivity|].
  intros Heq. apply (f_equal length) in Heq. vm_compute in Heq.
  discriminate.
Qed.

(** * C7: not found on detach, failure on attach *)

(** Resolving a collection touches neither the settings nor the
    counters. *)
Lemma getOrCreateKnowledgeBase_status (host : Host) (name : jsstring)
    (p : Plugin) (r : Result jsstring) (p1 : Plugin) :
  getOrCreateKnowledgeBase host name p = (r, p1) →
  syncStatus p1 = syncStatus p ∧ settings p1 = settings p.
Proof.
  assert (Hpre : PreOrder (λ q q' : Plugin,
                    syncStatus q' = syncStatus q ∧ settings q' = settings q)).
  { split; [by intros q|].
    intros q1 q2 q3 [H1 H2] [H3 H4]. by rewrite H3, H4. }
  intros Hrun.
  by eapply (getOrCreateKnowledgeBase_keeps host
               (λ q q', syncStatus q' = syncStatus q
                        ∧ settings q' = settings q) (λ _, True));
    [..|exact Hrun].
Qed.

(** C7, amended: the detach operation takes a remote "not found" for done:
    it never throws an error with a not-found message, and on a 404 to its
    remove request it returns normally, the collection struck out of the
    record.  The attach operation throws whatever its request fails with, a
    404 included.  The loop of the reconciliation over the collections to
    attach to catches that: it goes on with the next collection, the
    record and the count of operations being what they were before the
    failed request. *)
Theorem not_found_on_detach_and_attach (host : Host)
    (kbName filePath remoteId : jsstring) (p : Plugin) :
  (∀ e p',
     removeFileFromKnowledgeBase host kbName filePath remoteId p
     = (Throw e, p') →
     isNotFoundMessage e = false)
  ∧ (∀ kbId p1 text,
       configured p →
       findKnowledgeBaseByName host kbName p = (Ok (Some kbId), p1) →
       truthy kbId = true →
       removeReply (remote host) (calls p1) kbId remoteId
       = Response 404 text tt →
       removeFileFromKnowledgeBase host kbName filePath remoteId p
       = (Ok tt, dropKnowledgeBase filePath kbName
                   (withCall (RemoveFile kbId remoteId) p1)))
  ∧ (∀ kbId text,
       configured p →
       addReply (remote host) (calls p) kbId remoteId = Response 404 text tt →
       addFileToKnowledgeBase host kbId remoteId p
       = (Throw (lit "API request failed: " ++ toString10 404
                 ++ lit " " ++ text),
          withCall (AddFile kbId remoteId) p))
  ∧ (∀ kbId e,
       configured p →
       failureOf (addReply (remote host) (calls p) kbId remoteId) = Some e →
       addFileToKnowledgeBase host kbId remoteId p
       = (Throw e, withCall (AddFile kbId remoteId) p))
  ∧ (∀ kbId p1 e rest newRecord,
       configured p →
       getOrCreateKnowledgeBase host kbName p = (Ok kbId, p1) →
       failureOf (addReply (remote host) (calls p1) kbId (fileId newRecord))
       = Some e →
       addToKnowledgeBases host (kbName :: rest) newRecord p
       = addToKnowledgeBases host rest newRecord
           (withCall (AddFile kbId (fileId newRecord)) p1)
       ∧ syncStatus (withCall (AddFile kbId (fileId newRecord)) p1)
         = syncStatus p
       ∧ addToKnowledgeBases host [kbName] newRecord p
         = (Ok newRecord, withCall (AddFile kbId (fileId newRecord)) p1)).
Proof.
  assert (Hattach : ∀ q kbId documentId e,
            configured q →
            failureOf (addReply (remote host) (calls q) kbId documentId)
            = Some e →
            addFileToKnowledgeBase host kbId documentId q
            = (Throw e, withCall (AddFile kbId documentId) q)).
  { intros q kbId documentId e Hconf Hfail.
    unfold addFileToKnowledgeBase, tryCatch.
    by rewrite (makeApiRequest_failure _ _ q e Hconf Hfail). }
  split; [|split; [|split; [|split]]].
  - intros e p'. unfold removeFileFromKnowledgeBase, tryCatch.
    destruct (bind _ _ p) as [[[]|e0] p0]; [done|].
    destruct (isNotFoundMessage e0) eqn:E0; [done|].
    unfold bind, logged, ret, throw. by intros [= <- <-].
  - intros kbId p1 text Hconf Hfind Hid Hreply.
    assert (Hconf1 : configured p1).
    { eapply (configured_frame (λ _, True)); [|exact Hconf].
      eapply findKnowledgeBaseByName_frame; [done|exact Hfind]. }
    unfold removeFileFromKnowledgeBase, tryCatch. unfold bind at 1.
    rewrite Hfind, Hid. unfold bind.
    rewrite (makeApiRequest_failure _ _ p1
               (lit "API request failed: " ++ toString10 404
                ++ lit " " ++ text) Hconf1)
      by (by rewrite Hreply).
    by rewrite isNotFoundMessage_404.
  - intros kbId text Hconf Hreply. apply Hattach; [done|].
    by rewrite Hreply.
  - intros kbId e. apply Hattach.
  - intros kbId p1 e rest newRecord Hconf Hresolve Hfail.
    destruct (getOrCreateKnowledgeBase_status host kbName p (Ok kbId) p1
                Hresolve) as [Hstatus Hsettings].
    assert (Hconf1 : configured p1).
    { unfold configured. by rewrite Hsettings. }
    assert (Hstep : ∀ rest',
              addToKnowledgeBases host (kbName :: rest') newRecord p
              = addToKnowledgeBases host rest' newRecord
                  (withCall (AddFile kbId (fileId newRecord)) p1)).
    { intros rest'. cbn [addToKnowledgeBases]. unfold bind at 1, tryCatch.
      unfold bind at 1. rewrite Hresolve. unfold bind at 1.
      by rewrite (Hattach p1 kbId (fileId newRecord) e Hconf1 Hfail). }
    split; [apply Hstep|]. split; [exact Hstatus|by rewrite Hstep].
Qed.

Lemma not_found_on_detach_and_attach_witness :
  let host := hostOf notFoundRemote [] in
  let record :=
    {| fileId := lit "file-0"; uploadedFilename := lit "Note_7d24db04.md";
       contentHash := lit "7d24db04"; lastModified := 1699999990000;
       knowledgeBases := [] |} in
  removeFileFromKnowledgeBase host (lit "Docs") (lit "Note.md") (lit "file-0")
    (withCall (CreateKnowledgeBase (lit "Docs")) freshPlugin)
  = (Ok tt,
     dropKnowledgeBase (lit "Note.md") (lit "Docs")
       (withCall (RemoveFile (lit "kb-Docs") (lit "file-0"))
          (findKnowledgeBaseByName host (lit "Docs")
             (withCall (CreateKnowledgeBase (lit "Docs")) freshPlugin)).2))
  ∧ addToKnowledgeBases host [lit "Docs"] record freshPlugin
    = (Ok record,
       withCall (AddFile (lit "kb-Docs") (lit "file-0"))
         (getOrCreateKnowledgeBase host (lit "Docs") freshPlugin).2).
Proof.
  intros host record. split.
  - apply (proj1 (proj2 (not_found_on_detach_and_attach
                           host (lit "Docs") (lit "Note.md") (lit "file-0")
                           (withCall (CreateKnowledgeBase (lit "Docs"))
                              freshPlugin)))
             (lit "kb-Docs") _ (lit "Not Found")).
    + split; reflexivity.
    + vm_compute. reflexivity.
    + reflexivity.
    + vm_compute. reflexivity.
  - refine (proj2 (proj2 (proj2 (proj2 (proj2 (proj2
              (not_found_on_detach_and_attach
                 host (lit "Docs") (lit "Note.md") (lit "file-0") freshPlugin))))
              (lit "kb-Docs")
              (getOrCreateKnowledgeBase host (lit "Docs") freshPlugin).2
              (lit "API request failed: 404 Not Found") [] record _ _ _))).
    + split; reflexivity.
    + vm_compute. reflexivity.
    + vm_compute. reflexivity.
Defined.

(** C7 as stated fails for the attach operation: a 404 to the add request
    is thrown; the reconciliation that asked for it logs the failure and
    neither records the collection nor counts the operation. *)
Lemma not_found_on_detach_and_attach_counterexample :
  (addFileToKnowledgeBase (hostOf notFoundRemote []) (lit "kb-Docs")
     (lit "file-0") freshPlugin).1
  = Throw (lit "API request failed: 404 Not Found")
  ∧ let after :=
      (syncFileWithStateTracking (hostOf notFoundRemote []) noteFile
         [lit "Docs"] None freshPlugin).2 in
    knowledgeBases <$> (fileMapping (settings after) !! lit "Note.md")
    = Some []
    ∧ synced (syncStatus after) = 0
    ∧ last (calls after) = Some (AddFile (lit "kb-Docs") (lit "file-0")).
Proof. vm_compute. repeat split. Qed.

(** * C2: what a change of membership sends *)

Lemma makeApiRequest_accepted c (reply : list Call → Reply unit) p :
  configured p → failureOf (reply (calls p)) = None →
  makeApiRequest c reply p = (Ok tt, withCall c p).
Proof.
  intros [Hurl Htoken] Hfail. unfold makeApiRequest.
  rewrite Hurl, Htoken. cbn [negb orb].
  destruct (reply (calls p)) as [m|status text []]; cbn [failureOf] in Hfail;
    [done|].
  by destruct (400 <=? status)%N.
Qed.

Lemma removalsOf_app l l' : removalsOf (l ++ l') = removalsOf l ++ removalsOf l'.
Proof. apply omap_app. Qed.

Lemma additionsOf_app l l' :
  additionsOf (l ++ l') = additionsOf l ++ additionsOf l'.
Proof. apply omap_app. Qed.

Lemma removalsOf_listing l :
  Forall (λ c, c = ListKnowledgeBases) l → removalsOf l = [].
Proof. induction 1 as [|c l -> _ IH]; [done|]. exact IH. Qed.

Lemma additionsOf_resolving name l :
  Forall (λ c, c = ListKnowledgeBases ∨ c = CreateKnowledgeBase name) l →
  additionsOf l = [].
Proof. induction 1 as [|c l [-> | ->] _ IH]; [done|exact IH..]. Qed.

Lemma filter_all {A} (P : A → Prop) `{!∀ x, Decision (P x)} (l : list A) :
  (∀ x, P x) → filter P l = l.
Proof.
  intros HP. induction l as [|x l IH]; [done|].
  by rewrite filter_cons_True, IH.
Qed.

Lemma pushNew_elem kb l targets :
  kb ∈ foldl pushNew l targets ↔ kb ∈ l ∨ kb ∈ targets.
Proof.
  revert l. induction targets as [|t targets IH]; intros l; cbn [foldl].
  - rewrite elem_of_nil. tauto.
  - rewrite IH, elem_of_cons. unfold pushNew, arrIncludes.
    case_bool_decide as Ht.
    + split; [tauto|]. intros [?|[->|?]]; tauto.
    + rewrite elem_of_app, list_elem_of_singleton. tauto.
Qed.

Section Obligations.

Context (host : Host) (idFor : jsstring → jsstring) (known : list jsstring)
  (sent0 : list Call).

Hypothesis service : Obliging host idFor known sent0.

Lemma ready_step q q' new :
  ready idFor sent0 q →
  openwebuiUrl (settings q') = openwebuiUrl (settings q) →
  apiToken (settings q') = apiToken (settings q) →
  kbCache q' = kbCache q → calls q' = calls q ++ new →
  ready idFor sent0 q'.
Proof.
  intros ([Hurl Htoken] & Hcoh & sent & Hsent) Hu Ht Hc Hcalls.
  split; [|split].
  - unfold configured. by rewrite Hu, Ht.
  - unfold coherent. by rewrite Hc.
  - exists (sent ++ new). by rewrite Hcalls, Hsent, app_assoc.
Qed.

Lemma cacheAll_settings kbs q : settings (cacheAll host kbs q) = settings q.
Proof.
  revert q. induction kbs as [|kb kbs IH]; intros q; cbn [cacheAll]; [done|].
  by rewrite IH.
Qed.

Lemma cacheAll_syncStatus kbs q :
  syncStatus (cacheAll host kbs q) = syncStatus q.
Proof.
  revert q. induction kbs as [|kb kbs IH]; intros q; cbn [cacheAll]; [done|].
  by rewrite IH.
Qed.

Lemma cacheAll_coherent kbs q :
  Forall (λ kb, kb_id kb = idFor (kb_name kb)) kbs →
  coherent idFor q → coherent idFor (cacheAll host kbs q).
Proof.
  intros Hkbs. revert q.
  induction Hkbs as [|kb kbs Hkb _ IH]; intros q Hq; cbn [cacheAll]; [done|].
  apply IH. unfold coherent. cbn. by apply map_Forall_insert_2.
Qed.

(** The list request of a lookup that the cache did not answer. *)
Lemma listKnowledgeBases_served name q :
  ready idFor sent0 q →
  ∃ r q',
    tryCatch
      (let* knowledgeBases :=
         makeApiRequest ListKnowledgeBases (listReply (remote host)) in
       match knowledgeBases with
       | Some kbs =>
           forEach kbs (fun kb => cacheSet host (kb_name kb) (kb_id kb)) ;;
           ret (kb_id <$>
                List.find (fun kb => bool_decide (kb_name kb = name)) kbs)
       | None => ret None
       end)
      (fun _ => logged ;; ret None) q
    = (Ok r, q')
    ∧ (r = Some (idFor name) ∨ (r = None ∧ name ∉ known))
    ∧ ready idFor sent0 q' ∧ calls q' = calls q ++ [ListKnowledgeBases]
    ∧ settings q' = settings q ∧ syncStatus q' = syncStatus q.
Proof.
  intros Hq. pose proof Hq as (Hconf & Hcoh & sent & Hsent).
  destruct (obliging_list _ _ _ _ service sent)
    as (status & text & kbs & Hreply & Hstatus & Hids & Hknown).
  rewrite <- Hsent in Hreply.
  exists (kb_id <$> List.find (fun kb => bool_decide (kb_name kb = name)) kbs),
    (cacheAll host kbs (withCall ListKnowledgeBases q)).
  split.
  { unfold tryCatch. unfold bind at 1.
    rewrite (makeApiRequest_success _ _ q status text (Some kbs) Hconf Hreply
               Hstatus).
    unfold bind at 1. by rewrite forEach_cacheSet. }
  split.
  { destruct (List.find _ kbs) as [kb|] eqn:Hfind.
    - left. apply find_some in Hfind as [Hin Hname].
      apply bool_decide_eq_true in Hname. cbn. f_equal.
      rewrite Forall_forall in Hids. rewrite <- Hname. apply Hids.
      by apply list_elem_of_In.
    - right. split; [done|]. intros Hin.
      rewrite Forall_forall in Hknown.
      destruct (Hknown name Hin) as (kb & Hkb & Hname).
      apply list_elem_of_In in Hkb.
      pose proof (find_none _ _ Hfind kb Hkb) as Hno. cbn in Hno.
      by rewrite bool_decide_eq_true_2 in Hno. }
  split.
  { split; [|split].
    - unfold configured. by rewrite cacheAll_settings.
    - by apply cacheAll_coherent.
    - exists (sent ++ [ListKnowledgeBases]).
      rewrite cacheAll_calls. cbn. by rewrite Hsent, app_assoc. }
  split; [by rewrite cacheAll_calls|].
  by rewrite cacheAll_settings, cacheAll_syncStatus.
Qed.

Lemma findKnowledgeBaseByName_served name q :
  ready idFor sent0 q →
  ∃ r q' listing,
    findKnowledgeBaseByName host name q = (Ok r, q')
    ∧ (r = Some (idFor name) ∨ (r = None ∧ name ∉ known))
    ∧ ready idFor sent0 q' ∧ calls q' = calls q ++ listing
    ∧ Forall (λ c, c = ListKnowledgeBases) listing
    ∧ settings q' = settings q ∧ syncStatus q' = syncStatus q.
Proof.
  intros Hq. pose proof Hq as (Hconf & Hcoh & sent & Hsent).
  assert (Htick : ready idFor sent0 (withTick q)).
  { apply (ready_step q _ []); try done. by rewrite app_nil_r. }
  unfold findKnowledgeBaseByName. unfold bind at 1, gets at 1.
  destruct (kbCache q !! name) as [entry|] eqn:Hentry.
  - unfold bind at 1. unfold bind at 1, dateNow at 1, ret at 1.
    destruct (clock host (ticks q) - timestamp entry <? KB_CACHE_TTL).
    + exists (Some (cachedId entry)), (withTick q), [].
      split; [done|]. split; [left; f_equal; by apply (Hcoh name entry)|].
      split; [done|]. split; [by rewrite app_nil_r|]. done.
    + destruct (listKnowledgeBases_served name (withTick q) Htick)
        as (r & q' & Hrun & Hr & Hq' & Hcalls & Hsettings & Hstatus).
      exists r, q', [ListKnowledgeBases].
      split; [exact Hrun|]. split; [done|]. split; [done|].
      split; [done|]. split; [by constructor|]. done.
  - unfold bind at 1, ret at 1.
    destruct (listKnowledgeBases_served name q Hq)
      as (r & q' & Hrun & Hr & Hq' & Hcalls & Hsettings & Hstatus).
    exists r, q', [ListKnowledgeBases].
    split; [exact Hrun|]. split; [done|]. split; [done|].
    split; [done|]. split; [by constructor|]. done.
Qed.

Lemma getOrCreateKnowledgeBase_served name q :
  ready idFor sent0 q →
  ∃ q' new,
    getOrCreateKnowledgeBase host name q = (Ok (idFor name), q')
    ∧ ready idFor sent0 q' ∧ calls q' = calls q ++ new
    ∧ Forall (λ c, c = ListKnowledgeBases ∨ c = CreateKnowledgeBase name) new
    ∧ settings q' = settings q ∧ syncStatus q' = syncStatus q.
Proof.
  intros Hq.
  destruct (findKnowledgeBaseByName_served name q Hq)
    as (r & q1 & listing & Hfind & Hr & Hq1 & Hcalls & Hlisting & Hs & Hst).
  unfold getOrCreateKnowledgeBase. unfold bind at 1. rewrite Hfind.
  assert (Hlisting' : Forall (λ c, c = ListKnowledgeBases
                                   ∨ c = CreateKnowledgeBase name) listing).
  { eapply Forall_impl; [exact Hlisting|]. by left. }
  destruct Hr as [-> | [-> _]].
  - rewrite (obliging_id _ _ _ _ service). by exists q1, listing.
  - pose proof Hq1 as (Hconf1 & Hcoh1 & sent & Hsent).
    destruct (obliging_create _ _ _ _ service sent name)
      as (status & text & Hreply & Hstatus).
    rewrite <- Hsent in Hreply.
    eexists _, (listing ++ [CreateKnowledgeBase name]).
    split.
    { unfold createKnowledgeBase, tryCatch. unfold bind at 1.
      rewrite (makeApiRequest_success _ _ q1 status text (idFor name) Hconf1
                 Hreply Hstatus).
      unfold bind at 1, cacheSet, bind at 1, dateNow, modify, ret.
      reflexivity. }
    split.
    { split; [done|]. split.
      - unfold coherent. cbn. by apply map_Forall_insert_2.
      - exists (sent ++ [CreateKnowledgeBase name]). cbn.
        by rewrite Hsent, app_assoc. }
    split; [cbn; by rewrite Hcalls, app_assoc|].
    split; [apply Forall_app; split; [done|]; constructor; [by right|done]|].
    by cbn.
Qed.

Lemma removeFileFromKnowledgeBase_served kbName filePath documentId q :
  ready idFor sent0 q → kbName ∈ known →
  ∃ q' listing,
    removeFileFromKnowledgeBase host kbName filePath documentId q = (Ok tt, q')
    ∧ ready idFor sent0 q'
    ∧ calls q' = calls q ++ listing ++ [RemoveFile (idFor kbName) documentId]
    ∧ Forall (λ c, c = ListKnowledgeBases) listing
    ∧ settings q' = settings (dropKnowledgeBase filePath kbName q)
    ∧ syncStatus q' = syncStatus q.
Proof.
  intros Hq Hknown.
  destruct (findKnowledgeBaseByName_served kbName q Hq)
    as (r & q1 & listing & Hfind & Hr & Hq1 & Hcalls & Hlisting & Hs & Hst).
  destruct Hr as [-> | [_ Hno]]; [|done].
  pose proof Hq1 as (Hconf1 & Hcoh1 & sent & Hsent).
  pose proof (obliging_remove _ _ _ _ service sent (idFor kbName) documentId)
    as Haccepted.
  rewrite <- Hsent in Haccepted.
  exists (dropKnowledgeBase filePath kbName
            (withCall (RemoveFile (idFor kbName) documentId) q1)), listing.
  split.
  { unfold removeFileFromKnowledgeBase, tryCatch. unfold bind at 1.
    rewrite Hfind, (obliging_id _ _ _ _ service). unfold bind at 1.
    by rewrite (makeApiRequest_accepted _ _ q1 Hconf1 Haccepted). }
  split.
  { split; [done|]. split; [done|].
    exists (sent ++ [RemoveFile (idFor kbName) documentId]). cbn.
    by rewrite Hsent, app_assoc. }
  split; [cbn; by rewrite Hcalls, app_assoc|].
  split; [done|]. split; [cbn; by rewrite Hs|done].
Qed.

(** The loop over [kbsToRemoveFrom]. *)
Lemma removeLoop_served filePath documentId removed q :
  ready idFor sent0 q → Forall (λ kb, kb ∈ known) removed →
  ∃ q' new,
    forEach removed (fun kbName =>
      tryCatch
        (removeFileFromKnowledgeBase host kbName filePath documentId ;;
         modify (withSyncStatus incSynced))
        (fun _ => logged)) q
    = (Ok tt, q')
    ∧ ready idFor sent0 q' ∧ calls q' = calls q ++ new
    ∧ removalsOf new = map (λ kb, (idFor kb, documentId)) removed
    ∧ fileMapping (settings q') !! filePath
      = withKnowledgeBases (filter (λ kb, kb ∉ removed))
        <$> fileMapping (settings q) !! filePath
    ∧ synced (syncStatus q')
      = synced (syncStatus q) + Z.of_nat (length removed).
Proof.
  intros Hq Hremoved. revert q Hq.
  induction Hremoved as [|kbName removed Hknown _ IH]; intros q Hq.
  - exists q, []. split; [done|]. split; [done|].
    split; [by rewrite app_nil_r|]. split; [done|]. split; [|cbn; lia].
    destruct (fileMapping (settings q) !! filePath) as [[]|]; cbn; [|done].
    unfold withKnowledgeBases. cbn. do 2 f_equal.
    symmetry. apply filter_all. intros kb. apply not_elem_of_nil.
  - destruct (removeFileFromKnowledgeBase_served kbName filePath documentId
                q Hq Hknown)
      as (q1 & listing & Hrun & Hq1 & Hcalls1 & Hlisting & Hs1 & Hst1).
    assert (Hq2 : ready idFor sent0 (withSyncStatus incSynced q1)).
    { apply (ready_step q1 _ []); try done. by rewrite app_nil_r. }
    destruct (IH _ Hq2) as (q' & new & Hloop & Hq' & Hcalls & Hrem & Hfm & Hsy).
    exists q', (listing ++ [RemoveFile (idFor kbName) documentId] ++ new).
    split.
    { cbn [forEach]. unfold bind at 1, tryCatch. unfold bind at 1.
      rewrite Hrun. exact Hloop. }
    split; [done|].
    split; [rewrite Hcalls; cbn; rewrite Hcalls1; by rewrite <- !app_assoc|].
    split.
    { by rewrite !removalsOf_app, (removalsOf_listing listing Hlisting),
        Hrem. }
    split.
    { rewrite Hfm. cbn [settings withSyncStatus]. rewrite Hs1. cbn.
      rewrite lookup_alter_eq.
      destruct (fileMapping (settings q) !! filePath) as [[]|]; cbn; [|done].
      unfold withKnowledgeBases. cbn. do 2 f_equal.
      rewrite list_filter_filter. apply list_filter_iff. intros kb.
      rewrite not_elem_of_cons. tauto. }
    rewrite Hsy. cbn. rewrite Hst1. cbn [length]. lia.
Qed.

(** The loop over the target collections. *)
Lemma addToKnowledgeBases_served targets newRecord q :
  ready idFor sent0 q →
  ∃ r' q' new,
    addToKnowledgeBases host targets newRecord q = (Ok r', q')
    ∧ ready idFor sent0 q' ∧ calls q' = calls q ++ new
    ∧ additionsOf new = map (λ kb, (idFor kb, fileId newRecord)) targets
    ∧ knowledgeBases r' = foldl pushNew (knowledgeBases newRecord) targets
    ∧ settings q' = settings q
    ∧ synced (syncStatus q')
      = synced (syncStatus q) + Z.of_nat (length targets).
Proof.
  intros Hq. revert newRecord q Hq.
  induction targets as [|kbName targets IH]; intros newRecord q Hq.
  - exists newRecord, q, []. split; [done|]. split; [done|].
    split; [by rewrite app_nil_r|]. split; [done|]. split; [done|].
    split; [done|]. cbn. lia.
  - destruct (getOrCreateKnowledgeBase_served kbName q Hq)
      as (q1 & new1 & Hresolve & Hq1 & Hcalls1 & Hnew1 & Hs1 & Hst1).
    pose proof Hq1 as (Hconf1 & Hcoh1 & sent & Hsent).
    pose proof (obliging_add _ _ _ _ service sent (idFor kbName)
                  (fileId newRecord)) as Haccepted.
    rewrite <- Hsent in Haccepted.
    set (q2 := withSyncStatus incSynced
                 (withCall (AddFile (idFor kbName) (fileId newRecord)) q1)).
    assert (Hq2 : ready idFor sent0 q2).
    { apply (ready_step q1 _ [AddFile (idFor kbName) (fileId newRecord)]);
        done. }
    set (record1 := if arrIncludes kbName (knowledgeBases newRecord)
                    then newRecord
                    else withKnowledgeBases (fun l => l ++ [kbName])
                           newRecord).
    assert (Hid : fileId record1 = fileId newRecord).
    { unfold record1. by destruct (arrIncludes _ _). }
    assert (Hkbs : knowledgeBases record1
                   = pushNew (knowledgeBases newRecord) kbName).
    { unfold record1, pushNew. by destruct (arrIncludes _ _). }
    destruct (IH record1 q2 Hq2)
      as (r' & q' & new & Hloop & Hq' & Hcalls & Hadd & Hr' & Hs & Hsy).
    exists r', q',
      (new1 ++ [AddFile (idFor kbName) (fileId newRecord)] ++ new).
    split.
    { cbn [addToKnowledgeBases]. unfold bind at 1, tryCatch.
      unfold bind at 1. rewrite Hresolve. unfold bind at 1.
      unfold addFileToKnowledgeBase, tryCatch.
      rewrite (makeApiRequest_accepted _ _ q1 Hconf1 Haccepted).
      exact Hloop. }
    split; [done|].
    split.
    { rewrite Hcalls. unfold q2. cbn. rewrite Hcalls1.
      by rewrite <- !app_assoc. }
    split.
    { by rewrite !additionsOf_app, (additionsOf_resolving kbName new1 Hnew1),
        Hadd, Hid. }
    split; [by rewrite Hr', Hkbs|].
    split; [by rewrite Hs|].
    rewrite Hsy. unfold q2. cbn. rewrite Hst1. cbn [length]. lia.
Qed.

End Obligations.

(** C2, amended.  The document has a record, its modification time is
    the recorded one or it reads with the recorded fingerprint, and the
    sorted declared names differ from the sorted stored names.  Then the
    reconciliation first sends list requests and removals of the recorded
    document id only.  If every declared name is a stored one, it sends
    nothing else and returns: the record keeps its document id and
    fingerprint, it can only have lost memberships, and the stored names
    are the sorted declared ones.  If some declared name is not a stored
    one and the reconciliation returns, it has uploaded the document again
    under its stable name, the record holds the document id of the reply
    to that upload together with the same fingerprint, and the requests
    after the upload are list requests, create requests and additions of
    the new document id.  On a service that does what it is asked and
    still has the stored collections, the removals are those of the
    recorded document from the stored collections that are no longer
    declared, one each and in their order, and every one is counted; when
    no declared name is new, the record loses exactly these memberships;
    when one is, the additions are those of the new document to the
    declared collections that were not stored, one each and in their
    order, the record holds exactly these memberships, and every addition
    is counted. *)
Theorem membership_change_uploads_again (host : Host) (file : TFile)
    (declared : list jsstring) (config : option SyncConfig) (p : Plugin)
    (record : OpenWebUIFileRecord) :
  let filePath := normalizePath host (path file) in
  let stored := default [] (syncState (settings p) !! filePath) in
  let stableFilename :=
    generateStableFilename (name file) (contentHash record) in
  fileMapping (settings p) !! filePath = Some record →
  lastModified record = modifiedOf host file p
  ∨ (∃ content,
       readAndHash host file config = Ok (content, contentHash record)) →
  jsSort declared ≠ jsSort stored →
  ∀ r p',
    syncFileWithStateTracking host file declared config p = (r, p') →
    ((∀ kb, kb ∈ declared → kb ∈ stored) →
     r = Ok tt
     ∧ ∃ new record',
         calls p' = calls p ++ new
         ∧ Forall (detachCall (fileId record)) new
         ∧ fileMapping (settings p') !! filePath = Some record'
         ∧ fileId record' = fileId record
         ∧ contentHash record' = contentHash record
         ∧ sublist (knowledgeBases record') (knowledgeBases record)
         ∧ syncState (settings p') !! filePath = Some (jsSort declared))
    ∧ (∀ kb, kb ∈ declared → kb ∉ stored → r = Ok tt →
       ∃ new1 sent new2 status text newId record',
         calls p'
         = calls p ++ new1 ++ UploadFile stableFilename sent :: new2
         ∧ Forall (detachCall (fileId record)) new1
         ∧ Forall (attachCall newId) new2
         ∧ uploadReply (remote host) (calls p ++ new1) stableFilename sent
           = Response status text newId
         ∧ fileMapping (settings p') !! filePath = Some record'
         ∧ fileId record' = newId
         ∧ contentHash record' = contentHash record
         ∧ syncState (settings p') !! filePath = Some (jsSort declared))
    ∧ (∀ idFor : jsstring → jsstring,
         Obliging host idFor stored (calls p) →
         configured p → coherent idFor p →
         let removed :=
           filter (λ kb, kb ∉ jsSort declared) (jsSort stored) in
         let added :=
           filter (λ kb, kb ∉ jsSort stored) (jsSort declared) in
         (added = [] →
          ∃ new record',
            calls p' = calls p ++ new
            ∧ removalsOf new = map (λ kb, (idFor kb, fileId record)) removed
            ∧ additionsOf new = []
            ∧ fileMapping (settings p') !! filePath = Some record'
            ∧ knowledgeBases record'
              = filter (λ kb, kb ∉ removed) (knowledgeBases record)
            ∧ synced (syncStatus p')
              = synced (syncStatus p) + Z.of_nat (length removed))
         ∧ (added ≠ [] → r = Ok tt →
            ∃ new1 sent new2 newId record',
              calls p'
              = calls p ++ new1 ++ UploadFile stableFilename sent :: new2
              ∧ removalsOf new1
                = map (λ kb, (idFor kb, fileId record)) removed
              ∧ additionsOf new1 = []
              ∧ removalsOf new2 = []
              ∧ additionsOf new2 = map (λ kb, (idFor kb, newId)) added
              ∧ fileMapping (settings p') !! filePath = Some record'
              ∧ fileId record' = newId
              ∧ (∀ kb, kb ∈ knowledgeBases record' ↔ kb ∈ added)
              ∧ synced (syncStatus p')
                = synced (syncStatus p)
                  + Z.of_nat (length removed + length added))).
Proof.
  intros filePath stored stableFilename Hrec Hread Hkbs r p' Hrun.
  destruct (readOf_same_fingerprint host file config p record
              Hrec Hread) as (read & Hro & Hsnd).
  pose (c := changesOf host file declared p read).
  assert (Hcc : c_contentChanged c = false)
    by exact (contentChanged_readOf host file config declared p record read
                Hrec Hro Hsnd).
  assert (Hprev : c_previousRecord c = Some record) by exact Hrec.
  assert (Hpath : c_filePath c = filePath) by done.
  assert (Hcur : c_currentKBs c = jsSort declared) by done.
  assert (Hold : c_previousKBs c = jsSort stored) by done.
  assert (Hhash : c_contentHash c = contentHash record) by exact Hsnd.
  assert (Hchanged : c_kbsChanged c = true).
  { unfold c_kbsChanged. rewrite Hcur, Hold.
    by rewrite bool_decide_eq_false_2. }
  unfold syncFileWithStateTracking in Hrun. unfold bind at 1 in Hrun.
  rewrite detectChanges_eq, Hro in Hrun. fold c filePath in Hrun.
  rewrite Hcc, Hchanged in Hrun. cbn [negb andb] in Hrun.
  set (q0 := sortStored filePath (afterClock host file p)) in Hrun.
  apply applyChanges_run in Hrun as (q1 & Hrem & Hcases).
  pose proof (removeOutdated_frame host c _ _ _ Hrem) as Hfr1.
  destruct (frame_calls _ _ _ Hfr1) as (new1 & Hcalls1 & Hnew1).
  unfold q0 in Hcalls1. rewrite calls_detected in Hcalls1.
  apply (removalCall_detach c record new1 Hprev Hcc) in Hnew1.
  pose proof (frame_fileMapping _ _ _ Hfr1 filePath) as Hshr.
  unfold q0 in Hshr. rewrite fileMapping_detected, Hrec in Hshr.
  destruct (fileMapping (settings q1) !! filePath) as [record1|] eqn:Hrec1;
    [|done].
  destruct Hshr as (Hid1 & Hname1 & Hhash1 & Hmod1 & Hkbs1).
  split; [|split].
  - intros Hall.
    assert (Hnone : kbsToAddTo c = []).
    { apply kbsToAddTo_none. intros kb. rewrite Hcur, Hold, !jsSort_elem.
      apply Hall. }
    rewrite (uploadIfNeeded_kept host file c q1 Hcc Hnone) in Hcases.
    rewrite Hpath, Hrec1 in Hcases.
    assert (Htargets : targetKBs c = []).
    { unfold targetKBs, kbsToUpdate. by rewrite Hcc, Hnone. }
    destruct Hcases as [(e & [=] & _)|[(q2 & [=] & _)
      |(r0 & q2 & r' & q3 & [= <- <-] & Hadd & -> & ->)]].
    rewrite Htargets in Hadd. cbn [addToKnowledgeBases] in Hadd.
    injection Hadd as <- <-.
    split; [done|]. exists new1, record1.
    split; [exact Hcalls1|]. split; [exact Hnew1|].
    split; [cbn; apply lookup_insert_eq|].
    split; [done|]. split; [done|]. split; [done|].
    cbn. apply lookup_insert_eq.
  - intros kb Hin Hnot ->.
    assert (Hsome : kbsToAddTo c ≠ []).
    { apply (kbsToAddTo_some c kb).
      - rewrite Hcur. by apply jsSort_elem.
      - rewrite Hold. by rewrite jsSort_elem. }
    destruct (uploadIfNeeded_upload host file c q1 (or_intror Hsome))
      as [(e & q' & Hthrow & _)
         |(sent & status & text & newId & Hreply & Hstatus & Hup)].
    + rewrite Hthrow in Hcases.
      by destruct Hcases as [(? & _ & [=])|[(? & [=] & _)
        |(? & ? & ? & ? & [=] & _)]].
    + rewrite Hup in Hcases. rewrite Hhash in Hreply, Hcases.
      fold stableFilename in Hreply, Hcases.
      destruct Hcases as [(? & [=] & _)|[(? & [=] & _)
        |(r0 & q2 & r' & q3 & [= <- <-] & Hadd & _ & ->)]].
      destruct (addToKnowledgeBases_returns host (attachCall newId)
                  (targetKBs c)
                  {| fileId := newId; uploadedFilename := stableFilename;
                     contentHash := contentHash record;
                     lastModified := c_lastModified c;
                     knowledgeBases := [] |}
                  (withCall (UploadFile stableFilename sent) q1))
        as (r'' & q3' & Hadd' & Hfr2 & Hid2 & _ & Hhash2 & _);
        [done..|].
      pose proof (eq_trans (eq_sym Hadd) Hadd') as Heq.
      injection Heq as -> ->.
      destruct (frame_calls _ _ _ Hfr2) as (new2 & Hcalls2 & Hnew2).
      exists new1, sent, new2, status, text, newId, r''.
      split.
      { cbn. rewrite Hcalls2. cbn. rewrite Hcalls1.
        by rewrite <- !app_assoc. }
      split; [exact Hnew1|]. split; [exact Hnew2|].
      split; [by rewrite <- Hcalls1|].
      split; [cbn; apply lookup_insert_eq|].
      split; [exact Hid2|]. split; [exact Hhash2|].
      cbn. apply lookup_insert_eq.
  - intros idFor Hservice Hconf Hcoh removed added.
    assert (Hq0 : ready idFor (calls p) q0).
    { split; [by apply configured_detected|]. split.
      - unfold coherent, q0, afterClock. by destruct (mtime file =? 0).
      - exists []. unfold q0. by rewrite calls_detected, app_nil_r. }
    assert (Hknown : Forall (λ kb, kb ∈ stored) removed).
    { apply Forall_forall. intros kb Hkb.
      apply list_elem_of_filter in Hkb as [_ Hkb]. by apply jsSort_elem. }
    destruct (removeLoop_served host idFor stored (calls p) Hservice
                filePath (fileId record) removed q0 Hq0 Hknown)
      as (q1' & sent1 & Hloop & Hq1 & Hsent1 & Hremovals & Hfm1 & Hsynced1).
    unfold removeOutdated in Hrem. rewrite Hprev, Hcc in Hrem.
    change (kbsToRemoveFrom c) with removed in Hrem.
    rewrite Hpath, Hloop in Hrem. injection Hrem as ->.
    unfold q0 in Hsent1. rewrite calls_detected in Hsent1.
    assert (sent1 = new1) as ->.
    { rewrite Hcalls1 in Hsent1. by apply app_inv_head in Hsent1. }
    assert (Hnoadd1 : additionsOf new1 = []).
    { clear -Hnew1. induction Hnew1 as [|call new1 Hcall _ IH]; [done|].
      by destruct call. }
    unfold q0 in Hfm1, Hsynced1.
    rewrite fileMapping_detected, Hrec, Hrec1 in Hfm1.
    rewrite syncStatus_detected in Hsynced1.
    injection Hfm1 as ->.
    split.
    + intros Hnone. change (kbsToAddTo c = []) in Hnone.
      rewrite (uploadIfNeeded_kept host file c q1 Hcc Hnone) in Hcases.
      rewrite Hpath, Hrec1 in Hcases.
      assert (Htargets : targetKBs c = []).
      { unfold targetKBs, kbsToUpdate. by rewrite Hcc, Hnone. }
      destruct Hcases as [(e & [=] & _)|[(q2 & [=] & _)
        |(r0 & q2 & r' & q3 & [= <- <-] & Hadd & -> & ->)]].
      rewrite Htargets in Hadd. cbn [addToKnowledgeBases] in Hadd.
      injection Hadd as <- <-.
      eexists new1, _.
      split; [exact Hcalls1|]. split; [exact Hremovals|].
      split; [exact Hnoadd1|].
      split; [cbn; apply lookup_insert_eq|].
      split; [done|]. exact Hsynced1.
    + intros Hsome ->. change (kbsToAddTo c ≠ []) in Hsome.
      destruct (uploadIfNeeded_upload host file c q1 (or_intror Hsome))
        as [(e & q' & Hthrow & _)
           |(sent & status & text & newId & Hreply & Hstatus & Hup)].
      * rewrite Hthrow in Hcases.
        by destruct Hcases as [(? & _ & [=])|[(? & [=] & _)
          |(? & ? & ? & ? & [=] & _)]].
      * rewrite Hup in Hcases. rewrite Hhash in Hcases.
        fold stableFilename in Hcases.
        destruct Hcases as [(? & [=] & _)|[(? & [=] & _)
          |(r0 & q2 & r' & q3 & [= <- <-] & Hadd & _ & ->)]].
        assert (Htargets : targetKBs c = added).
        { unfold targetKBs, kbsToUpdate. rewrite Hcc. apply app_nil_r. }
        rewrite Htargets in Hadd.
        assert (Hq2 : ready idFor (calls p)
                        (withCall (UploadFile stableFilename sent) q1)).
        { by apply (ready_step idFor (calls p) q1 _
                      [UploadFile stableFilename sent]). }
        destruct (addToKnowledgeBases_served host idFor stored (calls p)
                    Hservice added
                    {| fileId := newId; uploadedFilename := stableFilename;
                       contentHash := contentHash record;
                       lastModified := c_lastModified c;
                       knowledgeBases := [] |}
                    _ Hq2)
          as (r'' & q3' & new2 & Hadd' & _ & Hcalls2 & Hadditions & Hkbs2
              & _ & Hsynced2).
        pose proof (eq_trans (eq_sym Hadd) Hadd') as Heq.
        injection Heq as -> ->.
        destruct (addToKnowledgeBases_returns host (attachCall newId) added
                    {| fileId := newId; uploadedFilename := stableFilename;
                       contentHash := contentHash record;
                       lastModified := c_lastModified c;
                       knowledgeBases := [] |}
                    (withCall (UploadFile stableFilename sent) q1))
          as (r3 & q4 & Hadd3 & Hfr3 & Hid3 & _); [done..|].
        pose proof (eq_trans (eq_sym Hadd') Hadd3) as Heq.
        injection Heq as <- <-.
        destruct (frame_calls _ _ _ Hfr3) as (new3 & Hcalls3 & Hnew3).
        assert (new3 = new2) as ->.
        { rewrite Hcalls2 in Hcalls3. by apply app_inv_head in Hcalls3. }
        assert (Hnorem2 : removalsOf new2 = []).
        { clear -Hnew3. induction Hnew3 as [|call new2 Hcall _ IH]; [done|].
          by destruct call. }
        exists new1, sent, new2, newId, r''.
        split.
        { cbn. rewrite Hcalls2. cbn. rewrite Hcalls1.
          by rewrite <- !app_assoc. }
        split; [exact Hremovals|]. split; [exact Hnoadd1|].
        split; [exact Hnorem2|]. split; [exact Hadditions|].
        split; [cbn; apply lookup_insert_eq|].
        split; [exact Hid3|].
        split.
        { intros kb. rewrite Hkbs2, pushNew_elem. cbn.
          rewrite elem_of_nil. tauto. }
        cbn. rewrite Hsynced2. cbn. rewrite Hsynced1. lia.
Qed.

(** The service of the examples is obliging from the moment it has the
    known collections. *)
Lemma obligingRemote_Obliging (files : list TFile) (known : list jsstring)
    (sent0 : list Call) :
  Forall (λ name, name ∈ createdNames sent0) known →
  Obliging (hostOf obligingRemote files) (λ name, lit "kb-" ++ name) known
    sent0.
Proof.
  intros Hknown. split.
  - intros name. unfold truthy. rewrite bool_decide_eq_false_2; [done|].
    intros [H _]%app_eq_nil. by vm_compute in H.
  - intros new. eexists 200%N, [], _. split; [reflexivity|].
    split; [done|]. split.
    + apply Forall_forall. intros kb Hkb.
      by apply list_elem_of_fmap in Hkb as (name & -> & _).
    + eapply Forall_impl; [exact Hknown|]. intros name Hname.
      exists {| kb_id := lit "kb-" ++ name; kb_name := name |}.
      split; [|done].
      apply (list_elem_of_fmap_2
               (λ n, {| kb_id := lit "kb-" ++ n; kb_name := n |})).
      unfold createdNames. rewrite omap_app. apply elem_of_app. by left.
  - intros new name. by exists 200%N, [].
  - done.
  - done.
Qed.

Lemma membership_change_uploads_again_witness :
  let host := hostOf obligingRemote [planFileRetagged] in
  let p :=
    (syncFileWithStateTracking (hostOf obligingRemote [planFile]) planFile
       [lit "A"; lit "B"] None freshPlugin).2 in
  let run :=
    syncFileWithStateTracking host planFileRetagged [lit "A"; lit "C"] None p
  in
  ∃ new1 sent new2 newId record',
    calls run.2
    = calls p ++ new1 ++ UploadFile (lit "Plan_5f8010f1.md") sent :: new2
    ∧ removalsOf new1 = [(lit "kb-B", lit "file-0")]
    ∧ additionsOf new2 = [(lit "kb-C", newId)]
    ∧ fileMapping (settings run.2) !! lit "Plan.md" = Some record'
    ∧ fileId record' = newId
    ∧ (∀ kb, kb ∈ knowledgeBases record' ↔ kb ∈ [lit "C"]).
Proof.
  intros host p run.
  assert (Hrec : fileMapping (settings p)
                 !! normalizePath host (path planFileRetagged)
                 = Some {| fileId := lit "file-0";
                           uploadedFilename := lit "Plan_5f8010f1.md";
                           contentHash := lit "5f8010f1";
                           lastModified := 1699999990000;
                           knowledgeBases := [lit "A"; lit "B"] |})
    by (vm_compute; reflexivity).
  assert (Hrun : syncFileWithStateTracking host planFileRetagged
                   [lit "A"; lit "C"] None p = (Ok tt, run.2))
    by (vm_compute; reflexivity).
  pose proof (membership_change_uploads_again host planFileRetagged
                [lit "A"; lit "C"] None p _ Hrec) as Hthm.
  cbv zeta in Hthm.
  specialize (Hthm ltac:(left; vm_compute; reflexivity)
                   ltac:(vm_compute; discriminate) (Ok tt) run.2 Hrun).
  destruct Hthm as (_ & _ & Hthm).
  specialize (Hthm (λ name, lit "kb-" ++ name)).
  destruct Hthm as [_ Hthm].
  - apply obligingRemote_Obliging. apply (bool_decide_unpack _).
    vm_compute. exact I.
  - split; reflexivity.
  - apply (bool_decide_unpack _). vm_compute. exact I.
  - destruct Hthm
      as (new1 & sent & new2 & newId & record' & Hcalls & Hremovals & _ & _
          & Hadditions & Hrec' & Hid & Hkbs).
    + vm_compute. discriminate.
    + reflexivity.
    + exists new1, sent, new2, newId, record'.
      split; [exact Hcalls|]. split; [exact Hremovals|].
      split; [exact Hadditions|]. split; [exact Hrec'|].
      split; [exact Hid|]. intros kb. apply Hkbs.
Defined.

(** C2 as stated fails: the plan is attached to "A" and "B" as document
    "file-0"; it is edited to declare "A" and "C", with the modification
    time kept, so that its content counts as unchanged.  The next pass
    uploads it a second time, and the record holds the new document id
    "file-1", attached to "C" only. *)
Lemma membership_change_uploads_again_counterexample :
  let first :=
    syncToKnowledgeBase (hostOf obligingRemote [planFile]) freshPlugin in
  let second :=
    syncToKnowledgeBase (hostOf obligingRemote [planFileRetagged]) first.2 in
  let recordAfter (run : Ending () * Plugin) :=
    fileMapping (settings run.2) !! lit "Plan.md" in
  fileId <$> recordAfter first = Some (lit "file-0")
  ∧ knowledgeBases <$> recordAfter first = Some [lit "A"; lit "B"]
  ∧ uploadCount (calls first.2) = 1%nat
  ∧ second.1 = Ends (Ok tt)
  ∧ fileId <$> recordAfter second = Some (lit "file-1")
  ∧ contentHash <$> recordAfter second = contentHash <$> recordAfter first
  ∧ knowledgeBases <$> recordAfter second = Some [lit "C"]
  ∧ uploadCount (calls second.2) = 2%nat.
Proof. vm_compute. repeat split. Qed.
